(** * d2q9-bgk: a shallow embedding of the lattice Boltzmann kernel

    The development follows [src/d2q9-bgk.c]; line numbers in comments
    refer to that file. *)

From Stdlib Require Import ZArith QArith Lia Lqa Field Qfield.
From Stdlib Require Import Floats.SpecFloat.
From stdpp Require Import base option list strings.

Local Open Scope Z_scope.

(** ** Arithmetic of the C type [float]

    The kernels only use the four arithmetic operations, unary minus,
    [sqrtf], the comparison [>] and conversions from [int] (the literals
    [9.f], [36.f], ... are exactly such integers).  They are kept behind
    an interface so that the structural theorems hold for any arithmetic,
    in particular for IEEE 754 binary32 ([Binary32] below, the type the
    program runs on) and for exact rational arithmetic ([Q], the
    idealisation the specification speaks about). *)

Class FloatOps (F : Type) := {
  of_int : Z -> F;
  fadd : F -> F -> F;
  fsub : F -> F -> F;
  fmul : F -> F -> F;
  fdiv : F -> F -> F;
  fopp : F -> F;
  fgt : F -> F -> bool;
}.

Class FloatSqrt (F : Type) := fsqrt : F -> F.

Declare Scope float_scope.
Delimit Scope float_scope with fl.
Infix "⊕" := fadd (at level 50, left associativity) : float_scope.
Infix "⊖" := fsub (at level 50, left associativity) : float_scope.
Infix "⊗" := fmul (at level 40, left associativity) : float_scope.
Infix "⊘" := fdiv (at level 40, left associativity) : float_scope.
Notation "-! x" := (fopp x) (at level 35, right associativity) : float_scope.
Infix ">!" := fgt (at level 65, no associativity) : float_scope.

(** IEEE 754 binary32: 24 bits of precision, [emax = 128].  Every
    operation of the program is taken to round its exact result to
    binary32, to nearest with ties to even (no excess precision, no
    contraction into fused multiply-adds). *)
Module Binary32.
Definition prec : Z := 24.
Definition emax : Z := 128.
Definition t : Type := spec_float.

Definition of_Z (n : Z) : t := binary_normalize prec emax n 0 false.
Definition gt (a b : t) : bool := SFltb b a.
End Binary32.

#[export] Instance binary32_ops : FloatOps Binary32.t := {
  of_int := Binary32.of_Z;
  fadd := SFadd Binary32.prec Binary32.emax;
  fsub := SFsub Binary32.prec Binary32.emax;
  fmul := SFmul Binary32.prec Binary32.emax;
  fdiv := SFdiv Binary32.prec Binary32.emax;
  fopp := SFopp;
  fgt := Binary32.gt;
}.

#[export] Instance binary32_sqrt : FloatSqrt Binary32.t :=
  SFsqrt Binary32.prec Binary32.emax.

(** Exact rational arithmetic (no square root). *)
Definition Qgt_bool (a b : Q) : bool := negb (Qle_bool a b).

#[export] Instance Q_ops : FloatOps Q := {
  of_int := inject_Z;
  fadd := Qplus;
  fsub := Qminus;
  fmul := Qmult;
  fdiv := Qdiv;
  fopp := Qopp;
  fgt := Qgt_bool;
}.

(** ** Data model (lines 63-93) *)

(** [t_param]: the parameter values; the [int] fields are modelled by [Z].
    On a grid whose arrays exist, every index expression the kernels
    evaluate lies between [-nx] and [nx * ny], so no [int] operation
    overflows as long as [nx * ny] itself is an [int]. *)
Record t_param (F : Type) := {
  nx : Z;
  ny : Z;
  maxIters : Z;
  reynolds_dim : Z;
  density : F;
  accel : F;
  omega : F;
}.
Arguments nx {F}.
Arguments ny {F}.
Arguments maxIters {F}.
Arguments reynolds_dim {F}.
Arguments density {F}.
Arguments accel {F}.
Arguments omega {F}.

(** A pointer to a heap block: [None] is [NULL], [Some a] a block holding
    the elements of [a].  Blocks are identified with their contents: the
    arrays of the program never overlap (each comes from its own
    allocation, and [fusion] takes its two grids as [restrict]), and a
    store through a pointer is the replacement of the block it names. *)
Abbreviation ptr A := (option (list A)).

(** [soa]: nine parallel arrays, one per discrete velocity. *)
Record soa (F : Type) := {
  s0 : ptr F; s1 : ptr F; s2 : ptr F;
  s3 : ptr F; s4 : ptr F; s5 : ptr F;
  s6 : ptr F; s7 : ptr F; s8 : ptr F;
}.
Arguments s0 {F}.
Arguments s1 {F}.
Arguments s2 {F}.
Arguments s3 {F}.
Arguments s4 {F}.
Arguments s5 {F}.
Arguments s6 {F}.
Arguments s7 {F}.
Arguments s8 {F}.

(** The nine member names of [soa]. *)
Inductive speed := S0 | S1 | S2 | S3 | S4 | S5 | S6 | S7 | S8.

#[export] Instance speed_eq_dec : EqDecision speed.
Proof. solve_decision. Defined.

Definition speeds : list speed := [S0; S1; S2; S3; S4; S5; S6; S7; S8].

Section Memory.
Context {F : Type}.

Definition field (k : speed) (g : soa F) : ptr F :=
  match k with
  | S0 => s0 g | S1 => s1 g | S2 => s2 g
  | S3 => s3 g | S4 => s4 g | S5 => s5 g
  | S6 => s6 g | S7 => s7 g | S8 => s8 g
  end.

Definition set_field (k : speed) (p : ptr F) (g : soa F) : soa F :=
  {| s0 := if decide (k = S0) then p else s0 g;
     s1 := if decide (k = S1) then p else s1 g;
     s2 := if decide (k = S2) then p else s2 g;
     s3 := if decide (k = S3) then p else s3 g;
     s4 := if decide (k = S4) then p else s4 g;
     s5 := if decide (k = S5) then p else s5 g;
     s6 := if decide (k = S6) then p else s6 g;
     s7 := if decide (k = S7) then p else s7 g;
     s8 := if decide (k = S8) then p else s8 g |}.

(** [p[i]] as an rvalue: undefined ([None]) through [NULL] or outside
    the block. *)
Definition array_get {A : Type} (p : ptr A) (i : Z) : option A :=
  a ← p; if decide (0 <= i) then a !! Z.to_nat i else None.

(** [p[i] = v]: the block after the assignment; undefined through
    [NULL] or outside the block. *)
Definition array_set {A : Type} (p : ptr A) (i : Z) (v : A) : option (list A) :=
  a ← p;
  if decide (0 <= i < Z.of_nat (length a))
  then Some (<[Z.to_nat i := v]> a) else None.

(** [g.sk[i]] *)
Definition load (g : soa F) (k : speed) (i : Z) : option F :=
  array_get (field k g) i.

(** [g.sk[i] = v] *)
Definition store (g : soa F) (k : speed) (i : Z) (v : F) : option (soa F) :=
  a ← array_set (field k g) i v; Some (set_field k (Some a) g).
End Memory.

(** ** Control structure *)

(** [for (int i = 0; i < n; i++) body] over a state [S]; the body may hit
    undefined behaviour. *)
Fixpoint for_each {S : Type} (l : list Z) (body : Z -> S -> option S) (s : S)
  : option S :=
  match l with
  | [] => Some s
  | i :: l => s' ← body i s; for_each l body s'
  end.

Definition for_loop {S : Type} (n : Z) (body : Z -> S -> option S) (s : S)
  : option S :=
  for_each (seqZ 0 n) body s.

(** C's short-circuit [a && b] where evaluating an operand may be
    undefined. *)
Definition and_then (a b : option bool) : option bool :=
  x ← a; if x : bool then b else Some false.

Section Kernels.
Context {F : Type} {ops : FloatOps F}.
Local Open Scope float_scope.

Definition zero : F := of_int 0.
Definition one : F := of_int 1.

(** [g.sk[i] += w] and [g.sk[i] -= w]. *)
Definition add_assign (g : soa F) (k : speed) (i : Z) (w : F) : option (soa F) :=
  v ← load g k i; store g k i (v ⊕ w).
Definition sub_assign (g : soa F) (k : speed) (i : Z) (w : F) : option (soa F) :=
  v ← load g k i; store g k i (v ⊖ w).

(** *** [accelerate_flow] (lines 234-269) *)

Definition accelerate_guard (params : t_param F) (obstacles : ptr Z)
    (grid : soa F) (w1 w2 : F) (idx : Z) : option bool :=
  and_then (ob ← array_get obstacles idx; Some (ob =? 0)%Z)
 (and_then (f3 ← load grid S3 idx; Some (f3 ⊖ w1 >! zero))
 (and_then (f6 ← load grid S6 idx; Some (f6 ⊖ w2 >! zero))
           (f7 ← load grid S7 idx; Some (f7 ⊖ w2 >! zero)))).

Definition accelerate_cell (params : t_param F) (obstacles : ptr Z)
    (w1 w2 : F) (jj ii : Z) (grid : soa F) : option (soa F) :=
  let idx := (ii + jj * nx params)%Z in
  c ← accelerate_guard params obstacles grid w1 w2 idx;
  if c : bool then
    (* increase 'east-side' densities *)
    grid ← add_assign grid S1 idx w1;
    grid ← add_assign grid S5 idx w2;
    grid ← add_assign grid S8 idx w2;
    (* decrease 'west-side' densities *)
    grid ← sub_assign grid S3 idx w1;
    grid ← sub_assign grid S6 idx w2;
    sub_assign grid S7 idx w2
  else Some grid.

Definition accelerate_flow (params : t_param F) (obstacles : ptr Z)
    (grid : soa F) : option (soa F) :=
  (* compute weighting factors *)
  let w1 := density params ⊗ accel params ⊘ of_int 9 in
  let w2 := density params ⊗ accel params ⊘ of_int 36 in
  (* modify the 2nd row of the grid *)
  let jj := (ny params - 2)%Z in
  for_loop (nx params) (accelerate_cell params obstacles w1 w2 jj) grid.

(** *** [collision] (lines 342-429)

    The collision step the fused kernel supersedes, on the nine
    post-stream values [t] of one fluid cell: the equilibrium densities
    of lines 376-416 and the relaxation of lines 418-424. *)
Definition collision_d_equ (t : speed -> F) : speed -> F :=
  let c_sq := of_int 1 ⊘ of_int 3 in  (* square of speed of sound *)
  let w0 := of_int 4 ⊘ of_int 9 in    (* weighting factor *)
  let w1 := of_int 1 ⊘ of_int 9 in    (* weighting factor *)
  let w2 := of_int 1 ⊘ of_int 36 in   (* weighting factor *)
  (* compute local density total *)
  let local_density :=
    zero ⊕ t S0 ⊕ t S1 ⊕ t S2 ⊕ t S3 ⊕ t S4 ⊕ t S5 ⊕ t S6 ⊕ t S7 ⊕ t S8 in
  (* compute x velocity component *)
  let u_x := (t S1 ⊕ t S5 ⊕ t S8 ⊖ (t S3 ⊕ t S6 ⊕ t S7)) ⊘ local_density in
  (* compute y velocity component *)
  let u_y := (t S2 ⊕ t S5 ⊕ t S6 ⊖ (t S4 ⊕ t S7 ⊕ t S8)) ⊘ local_density in
  (* velocity squared *)
  let u_sq := u_x ⊗ u_x ⊕ u_y ⊗ u_y in
  (* directional velocity components *)
  let u := fun k =>
    match k with
    | S0 => zero
    | S1 => u_x              (* east *)
    | S2 => u_y              (* north *)
    | S3 => -! u_x           (* west *)
    | S4 => -! u_y           (* south *)
    | S5 => u_x ⊕ u_y        (* north-east *)
    | S6 => -! u_x ⊕ u_y     (* north-west *)
    | S7 => -! u_x ⊖ u_y     (* south-west *)
    | S8 => u_x ⊖ u_y        (* south-east *)
    end in
  let two := of_int 2 in
  fun k =>
    match k with
    | S0 =>
        (* zero velocity density: weight w0 *)
        w0 ⊗ local_density ⊗ (one ⊖ u_sq ⊘ (two ⊗ c_sq))
    | S1 | S2 | S3 | S4 =>
        (* axis speeds: weight w1 *)
        w1 ⊗ local_density
        ⊗ (one ⊕ u k ⊘ c_sq ⊕ (u k ⊗ u k) ⊘ (two ⊗ c_sq ⊗ c_sq)
           ⊖ u_sq ⊘ (two ⊗ c_sq))
    | S5 | S6 | S7 | S8 =>
        (* diagonal speeds: weight w2 *)
        w2 ⊗ local_density
        ⊗ (one ⊕ u k ⊘ c_sq ⊕ (u k ⊗ u k) ⊘ (two ⊗ c_sq ⊗ c_sq)
           ⊖ u_sq ⊘ (two ⊗ c_sq))
    end.

(** relaxation step *)
Definition collision_relax (params : t_param F) (t : speed -> F)
  : speed -> F :=
  fun k => t k ⊕ omega params ⊗ (collision_d_equ t k ⊖ t k).

(** *** [av_velocity] (lines 432-481) *)

Context {sq : FloatSqrt F}.

Definition av_velocity_cell (params : t_param F) (obstacles : ptr Z)
    (grid : soa F) (jj ii : Z) (st : F * Z) : option (F * Z) :=
  let '(tot_u, tot_cells) := st in
  let idx := (ii + jj * nx params)%Z in
  ob ← array_get obstacles idx;
  (* ignore occupied cells *)
  if (ob =? 0)%Z then
    f0 ← load grid S0 idx; f1 ← load grid S1 idx; f2 ← load grid S2 idx;
    f3 ← load grid S3 idx; f4 ← load grid S4 idx; f5 ← load grid S5 idx;
    f6 ← load grid S6 idx; f7 ← load grid S7 idx; f8 ← load grid S8 idx;
    (* local density total *)
    let local_density := f0 ⊕ f1 ⊕ f2 ⊕ f3 ⊕ f4 ⊕ f5 ⊕ f6 ⊕ f7 ⊕ f8 in
    (* x-component of velocity *)
    let u_x := (f1 ⊕ f5 ⊕ f8 ⊖ (f3 ⊕ f6 ⊕ f7)) ⊘ local_density in
    (* compute y velocity component *)
    let u_y := (f2 ⊕ f5 ⊕ f6 ⊖ (f4 ⊕ f7 ⊕ f8)) ⊘ local_density in
    (* accumulate the norm of x- and y- velocity components *)
    Some (tot_u ⊕ fsqrt (u_x ⊗ u_x ⊕ u_y ⊗ u_y), (tot_cells + 1)%Z)
  else Some st.

Definition av_velocity_loop (params : t_param F) (obstacles : ptr Z)
    (grid : soa F) : option (F * Z) :=
  for_loop (ny params) (fun jj =>
    for_loop (nx params) (av_velocity_cell params obstacles grid jj))
    (zero, 0%Z).

Definition av_velocity (params : t_param F) (obstacles : ptr Z)
    (grid : soa F) : option F :=
  '(tot_u, tot_cells) ← av_velocity_loop params obstacles grid;
  Some (tot_u ⊘ of_int tot_cells).

(** *** [fusion] (lines 484-785) *)

(** [tmp.sk[idx] = grid.sk[src]] *)
Definition copy_from (grid : soa F) (k : speed) (src : Z) (tmp : soa F)
    (idx : Z) : option (soa F) :=
  v ← load grid k src; store tmp k idx v.

(** PROPAGATE (lines 561-580). *)
Definition propagate_cell (params : t_param F) (grid : soa F) (jj ii : Z)
    (tmp : soa F) : option (soa F) :=
  let nx := nx params in
  let ny := ny params in
  (* determine indices of axis-direction neighbours
     respecting periodic boundary conditions (wrap around) *)
  let y_n := Z.rem (jj + 1) ny in
  let x_e := Z.rem (ii + 1) nx in
  let y_s := if (jj =? 0)%Z then (jj + ny - 1)%Z else (jj - 1)%Z in
  let x_w := if (ii =? 0)%Z then (ii + nx - 1)%Z else (ii - 1)%Z in
  let idx := (ii + jj * nx)%Z in
  tmp ← copy_from grid S0 (ii + jj * nx)%Z tmp idx;   (* central cell *)
  tmp ← copy_from grid S1 (x_w + jj * nx)%Z tmp idx;  (* east *)
  tmp ← copy_from grid S2 (ii + y_s * nx)%Z tmp idx;  (* north *)
  tmp ← copy_from grid S3 (x_e + jj * nx)%Z tmp idx;  (* west *)
  tmp ← copy_from grid S4 (ii + y_n * nx)%Z tmp idx;  (* south *)
  tmp ← copy_from grid S5 (x_w + y_s * nx)%Z tmp idx; (* north-east *)
  tmp ← copy_from grid S6 (x_e + y_s * nx)%Z tmp idx; (* north-west *)
  tmp ← copy_from grid S7 (x_e + y_n * nx)%Z tmp idx; (* south-west *)
  copy_from grid S8 (x_w + y_n * nx)%Z tmp idx.       (* south-east *)

(** REBOUND (lines 583-607): mirror the streamed values in place. *)
Definition rebound_cell (tmp : soa F) (idx : Z) : option (soa F) :=
  t1 ← load tmp S1 idx; t2 ← load tmp S2 idx;
  t3 ← load tmp S3 idx; t4 ← load tmp S4 idx;
  t5 ← load tmp S5 idx; t6 ← load tmp S6 idx;
  t7 ← load tmp S7 idx; t8 ← load tmp S8 idx;
  tmp ← store tmp S1 idx t3;
  tmp ← store tmp S2 idx t4;
  tmp ← store tmp S3 idx t1;
  tmp ← store tmp S4 idx t2;
  tmp ← store tmp S5 idx t7;
  tmp ← store tmp S6 idx t8;
  tmp ← store tmp S7 idx t5;
  store tmp S8 idx t6.

(** The equilibrium densities the fused kernel relaxes towards (lines
    663-673).  The array [d_equ] is declared and nine assignments of
    [1.0f] follow it (the source spells the assigned array [d]); the
    density, the velocity and the formula of [collision] are commented
    out around them. *)
Definition d_equ (k : speed) : F := one.

(** One relaxation step (lines 698-741):
    [outVal = tmp.sk[idx] + omega * (d_equ[k] - tmp.sk[idx]);
     tmp.sk[idx] = outVal; av_local_density += outVal]. *)
Definition relax (params : t_param F) (k : speed) (idx : Z)
    (st : soa F * F) : option (soa F * F) :=
  let '(tmp, av_local_density) := st in
  t ← load tmp k idx;
  let outVal := t ⊕ omega params ⊗ (d_equ k ⊖ t) in
  tmp ← store tmp k idx outVal;
  Some (tmp, av_local_density ⊕ outVal).

(** COLLISION and the velocity reduction (lines 660-765). *)
Definition collide_cell (params : t_param F) (idx : Z)
    (st : soa F * F * Z) : option (soa F * F * Z) :=
  let '(tmp, tot_u, tot_cells) := st in
  (* relaxation step *)
  st ← relax params S0 idx (tmp, zero);
  st ← relax params S1 idx st;
  st ← relax params S2 idx st;
  st ← relax params S3 idx st;
  st ← relax params S4 idx st;
  st ← relax params S5 idx st;
  st ← relax params S6 idx st;
  st ← relax params S7 idx st;
  '(tmp, av_local_density) ← relax params S8 idx st;
  g1 ← load tmp S1 idx; g5 ← load tmp S5 idx; g8 ← load tmp S8 idx;
  g3 ← load tmp S3 idx; g6 ← load tmp S6 idx; g7 ← load tmp S7 idx;
  let av_u_x := (g1 ⊕ g5 ⊕ g8 ⊖ (g3 ⊕ g6 ⊕ g7)) ⊘ av_local_density in
  (* compute y velocity component *)
  g2 ← load tmp S2 idx; g4 ← load tmp S4 idx;
  let av_u_y := (g2 ⊕ g5 ⊕ g6 ⊖ (g4 ⊕ g7 ⊕ g8)) ⊘ av_local_density in
  (* accumulate the norm of x- and y- velocity components *)
  Some (tmp, tot_u ⊕ fsqrt (av_u_x ⊗ av_u_x ⊕ av_u_y ⊗ av_u_y),
        (tot_cells + 1)%Z).

(** The body of the fused loop for the cell [(ii, jj)]. *)
Definition fusion_cell (params : t_param F) (obstacles : ptr Z)
    (grid : soa F) (jj ii : Z) (st : soa F * F * Z)
    : option (soa F * F * Z) :=
  let '(tmp, tot_u, tot_cells) := st in
  tmp ← propagate_cell params grid jj ii tmp;
  ob ← array_get obstacles (jj * nx params + ii)%Z;
  (* if the cell contains an obstacle *)
  if negb (ob =? 0)%Z then
    tmp ← rebound_cell tmp (ii + jj * nx params)%Z;
    Some (tmp, tot_u, tot_cells)
  else collide_cell params (ii + jj * nx params)%Z (tmp, tot_u, tot_cells).

Definition fusion_loop (params : t_param F) (obstacles : ptr Z)
    (grid tmp_grid : soa F) : option (soa F * F * Z) :=
  for_loop (ny params) (fun jj =>
    for_loop (nx params) (fusion_cell params obstacles grid jj))
    (tmp_grid, zero, 0%Z).

(** Returns the average velocity and the scratch grid as written. *)
Definition fusion (params : t_param F) (obstacles : ptr Z)
    (grid tmp_grid : soa F) : option (F * soa F) :=
  '(tmp_grid, tot_u, tot_cells) ← fusion_loop params obstacles grid tmp_grid;
  Some (tot_u ⊘ of_int tot_cells, tmp_grid).

(** *** [timestep] (lines 228-232) *)
Definition timestep (params : t_param F) (obstacles : ptr Z)
    (grid tmp_grid : soa F) : option (F * soa F * soa F) :=
  grid ← accelerate_flow params obstacles grid;
  '(av, tmp_grid) ← fusion params obstacles grid tmp_grid;
  Some (av, grid, tmp_grid).

(** *** [calc_reynolds] (lines 990-995) *)
Definition viscosity (params : t_param F) : F :=
  of_int 1 ⊘ of_int 6 ⊗ (of_int 2 ⊘ omega params ⊖ of_int 1).

Definition calc_reynolds (params : t_param F) (obstacles : ptr Z)
    (grid : soa F) : option F :=
  av ← av_velocity params obstacles grid;
  Some (av ⊗ of_int (reynolds_dim params) ⊘ viscosity params).

End Kernels.

(** ** Process outcomes

    [die] prints a diagnostic and exits; dereferencing [NULL] or indexing
    outside a block is undefined behaviour. *)
Inductive outcome (A : Type) :=
  | Done (a : A)
  | Died (message : string)
  | Undefined.
Arguments Done {A}.
Arguments Died {A}.
Arguments Undefined {A}.

#[export] Instance outcome_ret : MRet outcome := @Done.
#[export] Instance outcome_bind : MBind outcome := fun A B f m =>
  match m with
  | Done a => f a
  | Died msg => Died msg
  | Undefined => Undefined
  end.

Definition defined {A : Type} (o : option A) : outcome A :=
  match o with Some a => Done a | None => Undefined end.

Definition die {A : Type} (message : string) : outcome A := Died message.

(** ** Reporting and set-up *)

(** One line of [final_state.dat]. *)
Record state_line (F : Type) := {
  l_ii : Z; l_jj : Z;
  l_u_x : F; l_u_y : F; l_u : F;
  l_pressure : F;
  l_flag : Z;
}.
Arguments l_ii {F}.
Arguments l_jj {F}.
Arguments l_u_x {F}.
Arguments l_u_y {F}.
Arguments l_u {F}.
Arguments l_pressure {F}.
Arguments l_flag {F}.

(** What [initialise] hands to [main]. *)
Record sim_state (F : Type) := {
  st_obstacles : ptr Z;
  st_av_vels : ptr F;
  st_grid : soa F;
  st_tmp_grid : soa F;
}.
Arguments st_obstacles {F}.
Arguments st_av_vels {F}.
Arguments st_grid {F}.
Arguments st_tmp_grid {F}.

(** What a run leaves behind: the Reynolds number printed on stdout and
    the lines of the two result files. *)
Record report (F : Type) := {
  r_reynolds : F;
  r_final_state : list (state_line F);
  r_av_vels : list (Z * F);
}.
Arguments r_reynolds {F}.
Arguments r_final_state {F}.
Arguments r_av_vels {F}.

(** [malloc]/[_mm_malloc] of [n] elements: [NULL] when the allocator
    fails, otherwise a fresh block of unspecified contents [junk]. *)
Definition malloc {A : Type} (ok : bool) (n : Z) (junk : A) : ptr A :=
  if ok then Some (replicate (Z.to_nat n) junk) else None.

Section Program.
Context {F : Type} {ops : FloatOps F} {sq : FloatSqrt F}.
Local Open Scope float_scope.

(** *** [write_values] (lines 1013-1077); the two [fopen] calls are
    taken to succeed. *)

Definition write_values_cell (params : t_param F) (obstacles : ptr Z)
    (grid : soa F) (jj ii : Z) (out : list (state_line F))
    : option (list (state_line F)) :=
  let c_sq := of_int 1 ⊘ of_int 3 in
  let idx := (ii + jj * nx params)%Z in
  ob ← array_get obstacles idx;
  '(u_x, u_y, u, pressure) ←
    (if negb (ob =? 0)%Z then
       (* an occupied cell *)
       Some (zero, zero, zero, density params ⊗ c_sq)
     else
       f0 ← load grid S0 idx; f1 ← load grid S1 idx; f2 ← load grid S2 idx;
       f3 ← load grid S3 idx; f4 ← load grid S4 idx; f5 ← load grid S5 idx;
       f6 ← load grid S6 idx; f7 ← load grid S7 idx; f8 ← load grid S8 idx;
       let local_density :=
         f0 ⊕ f1 ⊕ f2 ⊕ f3 ⊕ f4 ⊕ f5 ⊕ f6 ⊕ f7 ⊕ f8 in
       let u_x := (f1 ⊕ f5 ⊕ f8 ⊖ (f3 ⊕ f6 ⊕ f7)) ⊘ local_density in
       let u_y := (f2 ⊕ f5 ⊕ f6 ⊖ (f4 ⊕ f7 ⊕ f8)) ⊘ local_density in
       Some (u_x, u_y, fsqrt (u_x ⊗ u_x ⊕ u_y ⊗ u_y),
             local_density ⊗ c_sq));
  (* write to file *)
  flag ← array_get obstacles (ii * nx params + jj)%Z;
  Some (out ++ [ {| l_ii := ii; l_jj := jj; l_u_x := u_x; l_u_y := u_y;
                    l_u := u; l_pressure := pressure; l_flag := flag |} ]).

Definition write_values (params : t_param F) (obstacles : ptr Z)
    (av_vels : ptr F) (grid : soa F)
    : option (list (state_line F) * list (Z * F)) :=
  final_state ←
    for_loop (ny params) (fun jj =>
      for_loop (nx params) (write_values_cell params obstacles grid jj)) [];
  av ←
    for_loop (maxIters params) (fun ii out =>
      v ← array_get av_vels ii; Some (out ++ [(ii, v)])) [];
  Some (final_state, av).

(** *** [initialise] (lines 794-966)

    The parameter file is taken as parsed into [params].  The obstacle
    file is taken as scanned: [obstaclefile] is the list of the results
    of the successive calls of [fscanf] at line 941, up to the call that
    returns [EOF].  A call that converts three integers gives the record
    [Some (xx, yy, blocked)] of the values it stores in the three [int]
    variables; a call that converts fewer (a token that is no integer, or
    the end of the file after one or two integers) gives [None].  The
    format skips white space, newlines included, so these records are the
    integers of the file taken three at a time, however they are spread
    over its lines.  [alloc_ok k] tells whether the [k]-th allocation
    request of the run succeeds. *)

Definition init_cell (params : t_param F) (w0 w1 w2 : F) (jj ii : Z)
    (grid : soa F) : option (soa F) :=
  let idx := (ii + jj * nx params)%Z in
  (* centre *)
  grid ← store grid S0 idx w0;
  (* axis directions *)
  grid ← store grid S1 idx w1;
  grid ← store grid S2 idx w1;
  grid ← store grid S3 idx w1;
  grid ← store grid S4 idx w1;
  (* diagonals *)
  grid ← store grid S5 idx w2;
  grid ← store grid S6 idx w2;
  grid ← store grid S7 idx w2;
  store grid S8 idx w2.

Fixpoint read_obstacles (params : t_param F)
    (records : list (option (Z * Z * Z))) (obstacles : ptr Z)
    : outcome (ptr Z) :=
  match records with
  | [] => Done obstacles
  | None :: _ => die "expected 3 values per line in obstacle file"
  | Some (xx, yy, blocked) :: records =>
      if decide (xx < 0 \/ xx > nx params - 1)%Z
      then die "obstacle x-coord out of range"
      else if decide (yy < 0 \/ yy > ny params - 1)%Z
      then die "obstacle y-coord out of range"
      else if decide (blocked <> 1)%Z
      then die "obstacle blocked value should be 1"
      else
        (* assign to array *)
        a ← defined (array_set obstacles (xx + yy * nx params)%Z blocked);
        read_obstacles params records (Some a)
  end.

Definition initialise (alloc_ok : nat -> bool) (junk : F)
    (params : t_param F) (obstaclefile : list (option (Z * Z * Z)))
    : outcome (sim_state F) :=
  let n := (ny params * nx params)%Z in
  let grid :=
    {| s0 := malloc (alloc_ok 0%nat) n junk;
       s1 := malloc (alloc_ok 1%nat) n junk;
       s2 := malloc (alloc_ok 2%nat) n junk;
       s3 := malloc (alloc_ok 3%nat) n junk;
       s4 := malloc (alloc_ok 4%nat) n junk;
       s5 := malloc (alloc_ok 5%nat) n junk;
       s6 := malloc (alloc_ok 6%nat) n junk;
       s7 := malloc (alloc_ok 7%nat) n junk;
       s8 := malloc (alloc_ok 8%nat) n junk |} in
  let tmp_grid :=
    {| s0 := malloc (alloc_ok 9%nat) n junk;
       s1 := malloc (alloc_ok 10%nat) n junk;
       s2 := malloc (alloc_ok 11%nat) n junk;
       s3 := malloc (alloc_ok 12%nat) n junk;
       s4 := malloc (alloc_ok 13%nat) n junk;
       s5 := malloc (alloc_ok 14%nat) n junk;
       s6 := malloc (alloc_ok 15%nat) n junk;
       s7 := malloc (alloc_ok 16%nat) n junk;
       s8 := malloc (alloc_ok 17%nat) n junk |} in
  (* initialise densities *)
  let w0 := density params ⊗ of_int 4 ⊘ of_int 9 in
  let w1 := density params ⊘ of_int 9 in
  let w2 := density params ⊘ of_int 36 in
  grid ← defined
    (for_loop (ny params) (fun jj =>
       for_loop (nx params) (init_cell params w0 w1 w2 jj)) grid);
  (* the map of obstacles *)
  let obstacles := malloc (alloc_ok 18%nat) n 0%Z in
  if obstacles is None
  then die "cannot allocate column memory for obstacles"
  else
    (* first set all cells in obstacle array to zero *)
    obstacles ← defined
      (for_loop (ny params) (fun jj =>
         for_loop (nx params) (fun ii obstacles =>
           a ← array_set obstacles (ii + jj * nx params)%Z 0%Z;
           Some (Some a))) obstacles);
    (* read-in the blocked cells list *)
    obstacles ← read_obstacles params obstaclefile obstacles;
    (* allocate space to hold a record of the average velocities *)
    let av_vels := malloc (alloc_ok 19%nat) (maxIters params) junk in
    Done {| st_obstacles := obstacles; st_av_vels := av_vels;
            st_grid := grid; st_tmp_grid := tmp_grid |}.

(** *** [main] (lines 152-226) *)

(** One iteration of the time loop: the step, the record of its average
    velocity, and the exchange of the two buffer pointers. *)
Definition main_iteration (params : t_param F) (obstacles : ptr Z)
    (tt : Z) (st : soa F * soa F * ptr F) : option (soa F * soa F * ptr F) :=
  let '(grid, tmp_grid, av_vels) := st in
  '(av, grid, tmp_grid) ← timestep params obstacles grid tmp_grid;
  av_vels ← array_set av_vels tt av;
  Some (tmp_grid, grid, Some av_vels).

Definition main_loop (params : t_param F) (obstacles : ptr Z)
    (st : soa F * soa F * ptr F) : option (soa F * soa F * ptr F) :=
  for_loop (maxIters params) (main_iteration params obstacles) st.

Definition main (alloc_ok : nat -> bool) (junk : F) (params : t_param F)
    (obstaclefile : list (option (Z * Z * Z))) : outcome (report F) :=
  st ← initialise alloc_ok junk params obstaclefile;
  '(grid, tmp_grid, av_vels) ← defined
    (main_loop params (st_obstacles st)
       (st_grid st, st_tmp_grid st, st_av_vels st));
  re ← defined (calc_reynolds params (st_obstacles st) grid);
  '(final_state, av) ← defined
    (write_values params (st_obstacles st) av_vels grid);
  Done {| r_reynolds := re; r_final_state := final_state; r_av_vels := av |}.

(** [main] up to the line that prints the Reynolds number (lines 150-217,
    before [write_values] is called): the number printed. *)
Definition main_until_reynolds (alloc_ok : nat -> bool) (junk : F)
    (params : t_param F) (obstaclefile : list (option (Z * Z * Z)))
    : outcome F :=
  st ← initialise alloc_ok junk params obstaclefile;
  '(grid, tmp_grid, av_vels) ← defined
    (main_loop params (st_obstacles st)
       (st_grid st, st_tmp_grid st, st_av_vels st));
  defined (calc_reynolds params (st_obstacles st) grid).

End Program.

(** ** The unfused kernels (lines 271-430)

    [propagate], [rebound] and [collision] work on arrays of [t_speed]
    structures, one per cell. *)

(** [t_speed]: [float speeds[NSPEEDS]], a value for each of the nine
    indices. *)
Record t_speed (F : Type) := { speed_values : speed -> F }.
Arguments speed_values {F}.

(** [for (int kk = 0; kk < NSPEEDS; kk++) body] is [for_speeds speeds body]. *)
Fixpoint for_speeds {S : Type} (l : list speed)
    (body : speed -> S -> option S) (s : S) : option S :=
  match l with
  | [] => Some s
  | kk :: l => s' ← body kk s; for_speeds l body s'
  end.

Section Unfused.
Context {F : Type} {ops : FloatOps F}.
Local Open Scope float_scope.

(** [c.speeds[k] = v] on a structure value. *)
Definition set_speed (c : t_speed F) (k : speed) (v : F) : t_speed F :=
  {| speed_values := fun k' => if decide (k' = k) then v else speed_values c k' |}.

(** [cells[i].speeds[k]] *)
Definition load_speed (cells : ptr (t_speed F)) (i : Z) (k : speed)
  : option F :=
  c ← array_get cells i; Some (speed_values c k).

(** [cells[i].speeds[k] = v] *)
Definition store_speed (cells : ptr (t_speed F)) (i : Z) (k : speed) (v : F)
  : option (ptr (t_speed F)) :=
  c ← array_get cells i;
  a ← array_set cells i (set_speed c k v);
  Some (Some a).

(** [tmp_cells[idx].speeds[k] = cells[src].speeds[k]] *)
Definition copy_speed (cells : ptr (t_speed F)) (k : speed) (src : Z)
    (tmp_cells : ptr (t_speed F)) (idx : Z) : option (ptr (t_speed F)) :=
  v ← load_speed cells src k; store_speed tmp_cells idx k v.

(** *** [propagate] (lines 271-300) *)
Definition propagate_body (params : t_param F) (cells : ptr (t_speed F))
    (jj ii : Z) (tmp_cells : ptr (t_speed F)) : option (ptr (t_speed F)) :=
  let nx := nx params in
  let ny := ny params in
  let y_n := Z.rem (jj + 1) ny in
  let x_e := Z.rem (ii + 1) nx in
  let y_s := if (jj =? 0)%Z then (jj + ny - 1)%Z else (jj - 1)%Z in
  let x_w := if (ii =? 0)%Z then (ii + nx - 1)%Z else (ii - 1)%Z in
  let idx := (ii + jj * nx)%Z in
  tmp_cells ← copy_speed cells S0 (ii + jj * nx)%Z tmp_cells idx;
  tmp_cells ← copy_speed cells S1 (x_w + jj * nx)%Z tmp_cells idx;
  tmp_cells ← copy_speed cells S2 (ii + y_s * nx)%Z tmp_cells idx;
  tmp_cells ← copy_speed cells S3 (x_e + jj * nx)%Z tmp_cells idx;
  tmp_cells ← copy_speed cells S4 (ii + y_n * nx)%Z tmp_cells idx;
  tmp_cells ← copy_speed cells S5 (x_w + y_s * nx)%Z tmp_cells idx;
  tmp_cells ← copy_speed cells S6 (x_e + y_s * nx)%Z tmp_cells idx;
  tmp_cells ← copy_speed cells S7 (x_e + y_n * nx)%Z tmp_cells idx;
  copy_speed cells S8 (x_w + y_n * nx)%Z tmp_cells idx.

(** Returns the scratch array as written. *)
Definition propagate (params : t_param F) (cells tmp_cells : ptr (t_speed F))
  : option (ptr (t_speed F)) :=
  for_loop (ny params) (fun jj =>
    for_loop (nx params) (propagate_body params cells jj)) tmp_cells.

(** *** [rebound] (lines 302-327) *)
Definition rebound_body (params : t_param F) (tmp_cells : ptr (t_speed F))
    (obstacles : ptr Z) (jj ii : Z) (cells : ptr (t_speed F))
  : option (ptr (t_speed F)) :=
  let idx := (ii + jj * nx params)%Z in
  ob ← array_get obstacles (jj * nx params + ii)%Z;
  (* if the cell contains an obstacle *)
  if negb (ob =? 0)%Z then
    cells ← (v ← load_speed tmp_cells idx S3; store_speed cells idx S1 v);
    cells ← (v ← load_speed tmp_cells idx S4; store_speed cells idx S2 v);
    cells ← (v ← load_speed tmp_cells idx S1; store_speed cells idx S3 v);
    cells ← (v ← load_speed tmp_cells idx S2; store_speed cells idx S4 v);
    cells ← (v ← load_speed tmp_cells idx S7; store_speed cells idx S5 v);
    cells ← (v ← load_speed tmp_cells idx S8; store_speed cells idx S6 v);
    cells ← (v ← load_speed tmp_cells idx S5; store_speed cells idx S7 v);
    v ← load_speed tmp_cells idx S6; store_speed cells idx S8 v
  else Some cells.

(** Returns the main array as written. *)
Definition rebound (params : t_param F) (cells tmp_cells : ptr (t_speed F))
    (obstacles : ptr Z) : option (ptr (t_speed F)) :=
  for_loop (ny params) (fun jj =>
    for_loop (nx params) (rebound_body params tmp_cells obstacles jj)) cells.

(** *** [collision] (lines 329-430)

    The structure [tmp_cells[idx]] is only read while the cell is
    handled; [collision_d_equ] and [collision_relax] above are the
    arithmetic of lines 345-424 on its nine values. *)
Definition collision_body (params : t_param F) (tmp_cells : ptr (t_speed F))
    (obstacles : ptr Z) (jj ii : Z) (cells : ptr (t_speed F))
  : option (ptr (t_speed F)) :=
  let idx := (ii + jj * nx params)%Z in
  ob ← array_get obstacles idx;
  (* don't consider occupied cells *)
  if (ob =? 0)%Z then
    t ← array_get tmp_cells idx;
    (* relaxation step *)
    for_speeds speeds (fun kk cells =>
      store_speed cells idx kk (collision_relax params (speed_values t) kk))
      cells
  else Some cells.

(** Returns the main array as written. *)
Definition collision (params : t_param F) (cells tmp_cells : ptr (t_speed F))
    (obstacles : ptr Z) : option (ptr (t_speed F)) :=
  for_loop (ny params) (fun jj =>
    for_loop (nx params) (collision_body params tmp_cells obstacles jj)) cells.

(** *** [total_density] (lines 997-1013) *)
Definition total_density (params : t_param F) (cells : ptr (t_speed F))
  : option F :=
  for_loop (ny params) (fun jj =>
    for_loop (nx params) (fun ii =>
      for_speeds speeds (fun kk total =>
        v ← load_speed cells (ii + jj * nx params)%Z kk;
        Some (total ⊕ v)))) zero.

End Unfused.

(** ** [test.c]: the copy loop [foo] and its driver *)

Definition foo {A : Type} (grid_ptr tmp_grid_ptr : ptr A) : option (ptr A) :=
  for_loop 128 (fun jj =>
    for_loop 128 (fun ii grid_ptr =>
      v ← array_get tmp_grid_ptr (ii + jj * 128)%Z;
      a ← array_set grid_ptr (ii + jj * 128)%Z v;
      Some (Some a))) grid_ptr.

(** [main] of [test.c]: two unchecked allocations of [128 * 128] floats and
    a hundred calls of [foo]; returns the first block as it ends up. *)
Definition test_main {A : Type} (alloc_ok : nat -> bool) (junk1 junk2 : A)
  : option (ptr A) :=
  let grid_ptr := malloc (alloc_ok 0%nat) (128 * 128) junk1 in
  let tmp_grid_ptr := malloc (alloc_ok 1%nat) (128 * 128) junk2 in
  for_loop 100 (fun _ grid_ptr => foo grid_ptr tmp_grid_ptr) grid_ptr.

(** * Specification vocabulary

    The predicates and functions the theorems are stated with, and the
    concrete inputs they are evaluated at. *)

(** ** Blocks and well-formed grids *)

Definition is_block {A : Type} (n : Z) (p : ptr A) : bool :=
  match p with
  | Some a => (Z.of_nat (length a) =? n)%Z
  | None => false
  end.

(** All nine arrays are allocated and hold [n] elements. *)
Definition wf_soa {F : Type} (n : Z) (g : soa F) : bool :=
  forallb (fun k => is_block n (field k g)) speeds.

(** Every cell is an obstacle. *)
Definition all_blocked (obstacles : ptr Z) : bool :=
  match obstacles with
  | Some a => forallb (fun v => negb (v =? 0)%Z) a
  | None => false
  end.

(** Every record of the obstacle file is [x y 1] with [(x, y)] on the grid. *)
Definition valid_obstacle_file {F : Type} (params : t_param F)
    (lines : list (option (Z * Z * Z))) : bool :=
  forallb (fun line =>
    match line with
    | Some (xx, yy, blocked) =>
        (0 <=? xx)%Z && (xx <? nx params)%Z
        && (0 <=? yy)%Z && (yy <? ny params)%Z && (blocked =? 1)%Z
    | None => false
    end) lines.

Definition is_undefined {A : Type} (o : outcome A) : bool :=
  match o with Undefined => true | _ => false end.

(** The allocator refuses the [k]-th request only. *)
Definition fails_at (k : nat) : nat -> bool := fun j => negb (j =? k)%nat.

(** A grid of [n] cells that all hold the values [c]. *)
Definition uniform_soa {F : Type} (n : nat) (c : speed -> F) : soa F :=
  {| s0 := Some (replicate n (c S0)); s1 := Some (replicate n (c S1));
     s2 := Some (replicate n (c S2)); s3 := Some (replicate n (c S3));
     s4 := Some (replicate n (c S4)); s5 := Some (replicate n (c S5));
     s6 := Some (replicate n (c S6)); s7 := Some (replicate n (c S7));
     s8 := Some (replicate n (c S8)) |}.

Section Vocabulary.
Context {F : Type} {ops : FloatOps F} {sq : FloatSqrt F}.
Local Open Scope float_scope.
Implicit Types (g grid tmp cur : soa F) (k : speed) (c : speed -> F).
Implicit Types (params : t_param F) (obstacles : ptr Z).

(** ** Reading and updating a grid *)

(** [g] with [g.sk[i]] replaced by [v]. *)
Definition upd g k (i : Z) (v : F) : soa F :=
  match field k g with
  | Some a => set_field k (Some (<[Z.to_nat i := v]> a)) g
  | None => g
  end.

(** The value of [g.sk[i]] on a well-formed grid. *)
Definition rd g k (i : Z) : F := default zero (load g k i).

(** The flag [obstacles[i]]. *)
Definition flag_at obstacles (i : Z) : Z :=
  default 0%Z (array_get obstacles i).

(** Whether the cell at [idx] is an obstacle. *)
Definition blocked obstacles (idx : Z) : bool :=
  negb (flag_at obstacles idx =? 0)%Z.

(** [tmp'] is [tmp] with the nine values of cell [idx] set to [c]. *)
Definition cell_set (n : Z) tmp tmp' (idx : Z) c : Prop :=
  wf_soa n tmp' = true /\
  (forall k, load tmp' k idx = Some (c k)) /\
  (forall k i, i <> idx -> load tmp' k i = load tmp k i).

(** Every density component of every cell is strictly positive. *)
Definition positive_grid g : bool :=
  forallb (fun k =>
    match field k g with
    | Some a => forallb (fun v => v >! zero) a
    | None => true
    end) speeds.

(** ** Streaming *)

(** Periodic neighbours, as the kernel computes them. *)
Definition east (n i : Z) : Z := Z.rem (i + 1) n.

Definition west (n i : Z) : Z :=
  if (i =? 0)%Z then (i + n - 1)%Z else (i - 1)%Z.

(** The coordinates of the cell direction [k] is pulled from. *)
Definition source_cell params k (jj ii : Z) : Z * Z :=
  let x_e := east (nx params) ii in
  let x_w := west (nx params) ii in
  let y_n := east (ny params) jj in
  let y_s := west (ny params) jj in
  match k with
  | S0 => (jj, ii)
  | S1 => (jj, x_w) | S2 => (y_s, ii) | S3 => (jj, x_e) | S4 => (y_n, ii)
  | S5 => (y_s, x_w) | S6 => (y_s, x_e) | S7 => (y_n, x_e) | S8 => (y_n, x_w)
  end.

(** The index of that cell. *)
Definition source params k (jj ii : Z) : Z :=
  let x_e := east (nx params) ii in
  let x_w := west (nx params) ii in
  let y_n := east (ny params) jj in
  let y_s := west (ny params) jj in
  match k with
  | S0 => ii + jj * nx params
  | S1 => x_w + jj * nx params
  | S2 => ii + y_s * nx params
  | S3 => x_e + jj * nx params
  | S4 => ii + y_n * nx params
  | S5 => x_w + y_s * nx params
  | S6 => x_e + y_s * nx params
  | S7 => x_e + y_n * nx params
  | S8 => x_w + y_n * nx params
  end%Z.

(** The post-stream values [t_k] of the cell [(ii, jj)]. *)
Definition streamed params grid (jj ii : Z) : speed -> F :=
  fun k => rd grid k (source params k jj ii).

(** ** Bounce-back and relaxation *)

(** Bounce-back pairs. *)
Definition opposite k : speed :=
  match k with
  | S0 => S0
  | S1 => S3 | S3 => S1
  | S2 => S4 | S4 => S2
  | S5 => S7 | S7 => S5
  | S6 => S8 | S8 => S6
  end.

Definition mirrored c : speed -> F := fun k => c (opposite k).

(** What the fused kernel's relaxation leaves in direction [k]. *)
Definition relaxed params c : speed -> F :=
  fun k => c k ⊕ omega params ⊗ (d_equ k ⊖ c k).

(** The velocity magnitude the fused kernel accumulates for a fluid cell
    holding the relaxed values [g]. *)
Definition cell_speed (g : speed -> F) : F :=
  let av_local_density :=
    zero ⊕ g S0 ⊕ g S1 ⊕ g S2 ⊕ g S3 ⊕ g S4 ⊕ g S5 ⊕ g S6 ⊕ g S7 ⊕ g S8 in
  let av_u_x :=
    (g S1 ⊕ g S5 ⊕ g S8 ⊖ (g S3 ⊕ g S6 ⊕ g S7)) ⊘ av_local_density in
  let av_u_y :=
    (g S2 ⊕ g S5 ⊕ g S6 ⊖ (g S4 ⊕ g S7 ⊕ g S8)) ⊘ av_local_density in
  fsqrt (av_u_x ⊗ av_u_x ⊕ av_u_y ⊗ av_u_y).

(** The nine values the fused kernel leaves in scratch for [(ii, jj)]. *)
Definition fused params obstacles grid (jj ii : Z) : speed -> F :=
  if blocked obstacles (ii + jj * nx params)
  then mirrored (streamed params grid jj ii)
  else relaxed params (streamed params grid jj ii).

(** The accumulators after the fused kernel visited [(ii, jj)]. *)
Definition accumulated params obstacles grid (jj ii : Z) (acc : F * Z)
  : F * Z :=
  if blocked obstacles (ii + jj * nx params) then acc
  else (acc.1 ⊕ cell_speed (relaxed params (streamed params grid jj ii)),
        (acc.2 + 1)%Z).

(** The invariant of the fused loop after [p] cells: the scratch grid is
    intact, the cells visited so far hold their final values, and [A]
    holds of the accumulators. *)
Definition fusion_inv params obstacles grid (A : Z -> F * Z -> Prop)
    (p : Z) (st : soa F * F * Z) : Prop :=
  wf_soa (ny params * nx params) st.1.1 = true /\
  (forall jj ii k, 0 <= jj < ny params -> 0 <= ii < nx params ->
     ii + jj * nx params < p ->
     load st.1.1 k (ii + jj * nx params)
     = Some (fused params obstacles grid jj ii k)) /\
  A p (st.1.2, st.2).

(** ** The acceleration stage *)

(** The test of lines 251-254 on the cell [idx] of [grid]. *)
Definition accelerates obstacles grid (w1 w2 : F) (idx : Z) : bool :=
  (flag_at obstacles idx =? 0)%Z
  && (rd grid S3 idx ⊖ w1 >! zero)
  && (rd grid S6 idx ⊖ w2 >! zero)
  && (rd grid S7 idx ⊖ w2 >! zero).

(** The six assignments of lines 257-263 applied to the values [c]. *)
Definition pushed (w1 w2 : F) c : speed -> F := fun k =>
  match k with
  | S1 => c S1 ⊕ w1
  | S5 => c S5 ⊕ w2
  | S8 => c S8 ⊕ w2
  | S3 => c S3 ⊖ w1
  | S6 => c S6 ⊖ w2
  | S7 => c S7 ⊖ w2
  | _ => c k
  end.

Definition accelerated obstacles grid (w1 w2 : F) (idx : Z) : speed -> F :=
  if accelerates obstacles grid w1 w2 idx
  then pushed w1 w2 (fun k => rd grid k idx)
  else fun k => rd grid k idx.

(** The invariant of the acceleration loop after [ii] columns of row
    [jj]: the columns visited hold their [accelerated] values and every
    other cell is as in [grid]. *)
Definition accelerate_inv params obstacles grid (w1 w2 : F) (jj ii : Z)
    cur : Prop :=
  wf_soa (ny params * nx params) cur = true /\
  (forall ii' k, 0 <= ii' < ii ->
     load cur k (ii' + jj * nx params)
     = Some (accelerated obstacles grid w1 w2 (ii' + jj * nx params) k)) /\
  (forall k i, ~ (jj * nx params <= i < ii + jj * nx params) ->
     load cur k i = load grid k i).

(** ** The final-state file *)

(** The line printed for the cell [(ii, jj)]. *)
Definition line_of params obstacles grid (jj ii : Z) : state_line F :=
  let c_sq := of_int 1 ⊘ of_int 3 in
  let idx := (ii + jj * nx params)%Z in
  let f := fun k => rd grid k idx in
  let local_density :=
    f S0 ⊕ f S1 ⊕ f S2 ⊕ f S3 ⊕ f S4 ⊕ f S5 ⊕ f S6 ⊕ f S7 ⊕ f S8 in
  let u_x := (f S1 ⊕ f S5 ⊕ f S8 ⊖ (f S3 ⊕ f S6 ⊕ f S7)) ⊘ local_density in
  let u_y := (f S2 ⊕ f S5 ⊕ f S6 ⊖ (f S4 ⊕ f S7 ⊕ f S8)) ⊘ local_density in
  let occupied := blocked obstacles idx in
  {| l_ii := ii; l_jj := jj;
     l_u_x := if occupied then zero else u_x;
     l_u_y := if occupied then zero else u_y;
     l_u := if occupied then zero else fsqrt (u_x ⊗ u_x ⊕ u_y ⊗ u_y);
     l_pressure := if occupied then density params ⊗ c_sq
                   else local_density ⊗ c_sq;
     l_flag := flag_at obstacles (ii * nx params + jj) |}.

End Vocabulary.

(** ** Arrays of structures *)

Section UnfusedVocabulary.
Context {F : Type} {ops : FloatOps F}.
Implicit Types (cells tmp_cells cur : ptr (t_speed F)) (k : speed).

(** [cells] with [cells[i].speeds[k]] replaced by [v]. *)
Definition upd_speed cells (i : Z) k (v : F) : ptr (t_speed F) :=
  alter (fun c => set_speed c k v) (Z.to_nat i) <$> cells.

(** The value of [cells[i].speeds[k]] in an allocated array. *)
Definition rd_speed cells (i : Z) k : F := default zero (load_speed cells i k).

(** [cur'] is [cur] with the nine speeds of cell [idx] set to [c]. *)
Definition cell_set_speed (n : Z) cur cur' (idx : Z) (c : speed -> F) : Prop :=
  is_block n cur' = true /\
  (forall k, load_speed cur' idx k = Some (c k)) /\
  (forall k i, i <> idx -> load_speed cur' i k = load_speed cur i k).

(** The array of structures [cells] and the structure of arrays [g] hold
    the same [n] cells. *)
Definition same_grid (n : Z) cells (g : soa F) : Prop :=
  is_block n cells = true /\ wf_soa n g = true /\
  forall k i, 0 <= i < n -> load_speed cells i k = load g k i.
(** What [rebound] leaves in a cell: at an obstacle the mirrored scratch
    values in directions 1 to 8, otherwise what was there. *)
Definition rebounded (obstacles : ptr Z) cells tmp_cells (idx : Z) : speed -> F :=
  fun k =>
    if blocked obstacles idx
    then match k with
         | S0 => rd_speed cells idx S0
         | _ => rd_speed tmp_cells idx (opposite k)
         end
    else rd_speed cells idx k.

(** What [collision] leaves in a cell: at a fluid cell the relaxed
    scratch values, otherwise what was there. *)
Definition collided (params : t_param F) (obstacles : ptr Z) cells tmp_cells
    (idx : Z) : speed -> F :=
  fun k =>
    if blocked obstacles idx then rd_speed cells idx k
    else collision_relax params (rd_speed tmp_cells idx) k.
End UnfusedVocabulary.

(** ** Reductions and equilibria *)

Section MoreVocabulary.
Context {F : Type} {ops : FloatOps F} {sq : FloatSqrt F}.
Local Open Scope float_scope.

(** The accumulators of the fused kernel after the first [p] cells in
    row-major order, as a function of the current grid alone. *)
Definition reduction (params : t_param F) (obstacles : ptr Z) (grid : soa F)
    (p : Z) : F * Z :=
  foldl (fun acc q =>
           accumulated params obstacles grid
             (q `div` nx params) (q `mod` nx params) acc)
        (zero, 0%Z) (seqZ 0 p).

(** The number of fluid cells of a mask. *)
Definition fluid_cells (mask : list Z) : Z :=
  Z.of_nat (length (filter (fun v => v = 0%Z) mask)).

(** The speed [|u| = sqrt (u_x^2 + u_y^2)] of the cell [idx] of [grid],
    where [u_x = (f1 + f5 + f8 - (f3 + f6 + f7)) / rho],
    [u_y = (f2 + f5 + f6 - (f4 + f7 + f8)) / rho] and [rho] is the sum of
    the nine values of the cell. *)
Definition speed_at (grid : soa F) (idx : Z) : F :=
  let f := fun k => rd grid k idx in
  let rho := f S0 ⊕ f S1 ⊕ f S2 ⊕ f S3 ⊕ f S4 ⊕ f S5 ⊕ f S6 ⊕ f S7 ⊕ f S8 in
  let u_x := (f S1 ⊕ f S5 ⊕ f S8 ⊖ (f S3 ⊕ f S6 ⊕ f S7)) ⊘ rho in
  let u_y := (f S2 ⊕ f S5 ⊕ f S6 ⊖ (f S4 ⊕ f S7 ⊕ f S8)) ⊘ rho in
  fsqrt (u_x ⊗ u_x ⊕ u_y ⊗ u_y).

(** The sum of the speeds of the fluid cells among the first [p] cells of
    [grid], added up from 0 in memory order. *)
Definition velocity_sum (obstacles : ptr Z) (grid : soa F) (p : Z) : F :=
  foldl (fun total idx =>
           if blocked obstacles idx then total
           else total ⊕ speed_at grid idx)
        zero (seqZ 0 p).

(** The average fluid-cell velocity [<u>] of [grid]: that sum over all
    cells, divided by the number of fluid cells. *)
Definition average_velocity (params : t_param F) (mask : list Z)
    (grid : soa F) : F :=
  velocity_sum (Some mask) grid (ny params * nx params)
  ⊘ of_int (fluid_cells mask).

(** The nine values [initialise] gives every cell. *)
Definition equilibrium_cell (density : F) : speed -> F := fun k =>
  match k with
  | S0 => density ⊗ of_int 4 ⊘ of_int 9
  | S1 | S2 | S3 | S4 => density ⊘ of_int 9
  | S5 | S6 | S7 | S8 => density ⊘ of_int 36
  end.

(** Mass and momentum of the nine values of a cell. *)
Definition cell_mass (c : speed -> F) : F :=
  zero ⊕ c S0 ⊕ c S1 ⊕ c S2 ⊕ c S3 ⊕ c S4 ⊕ c S5 ⊕ c S6 ⊕ c S7 ⊕ c S8.

Definition cell_momentum_x (c : speed -> F) : F :=
  c S1 ⊕ c S5 ⊕ c S8 ⊖ (c S3 ⊕ c S6 ⊕ c S7).

Definition cell_momentum_y (c : speed -> F) : F :=
  c S2 ⊕ c S5 ⊕ c S6 ⊖ (c S4 ⊕ c S7 ⊕ c S8).

(** Whether the cell [(xx, yy)] is listed in the obstacle file. *)
Definition listed (lines : list (option (Z * Z * Z))) (xx yy : Z) : bool :=
  existsb (fun line =>
    match line with
    | Some (x, y, _) => (x =? xx)%Z && (y =? yy)%Z
    | None => false
    end) lines.

(** The diagnostic [initialise] dies with on a record of the obstacle
    file, if any: the checks of lines 944-950, in their order. *)
Definition record_diagnostic (params : t_param F)
    (record : option (Z * Z * Z)) : option string :=
  match record with
  | None => Some "expected 3 values per line in obstacle file"
  | Some (xx, yy, blocked) =>
      if decide (xx < 0 \/ xx > nx params - 1)%Z
      then Some "obstacle x-coord out of range"
      else if decide (yy < 0 \/ yy > ny params - 1)%Z
      then Some "obstacle y-coord out of range"
      else if decide (blocked <> 1)%Z
      then Some "obstacle blocked value should be 1"
      else None
  end.

(** What [total_density] adds for one cell, and for a whole array, in the
    order of the loops. *)
Definition add_cell (total : F) (c : t_speed F) : F :=
  foldl (fun total kk => total ⊕ speed_values c kk) total speeds.

Definition sum_cells (cs : list (t_speed F)) : F := foldl add_cell zero cs.
End MoreVocabulary.

(** ** Order laws

    The values a [float] object can hold: in binary32 the numbers of the
    format (a finite number has a canonical mantissa and an exponent in
    range), in exact arithmetic every rational. *)
Class FloatValid (F : Type) := representable : F -> bool.

#[export] Instance binary32_valid : FloatValid Binary32.t :=
  valid_binary Binary32.prec Binary32.emax.

#[export] Instance Q_valid : FloatValid Q := fun _ => true.

(** Every element of every array of the grid is such a value. *)
Definition representable_grid {F : Type} {valid : FloatValid F} (g : soa F)
  : bool :=
  forallb (fun k =>
    match field k g with
    | Some a => forallb representable a
    | None => true
    end) speeds.

(** The facts about [>], [*], [/] and [+] the acceleration stage relies
    on.  They are stated so that they hold of binary32, with its NaN,
    infinities and signed zeros, as well as of an ordered field:
    [0 > w] is false of a NaN as it is of a non-negative number, and the
    sum [a + w] is only claimed positive when [w] passed the test
    [b - w > 0] for some [b], which a NaN does not. *)
Class FloatOrder (F : Type) {ops : FloatOps F} {valid : FloatValid F}
  : Prop := {
  fmul_nonneg : forall a b : F,
    (a >! zero)%fl = true -> (zero >! b)%fl = false ->
    (zero >! a ⊗ b)%fl = false;
  fdiv_nonneg : forall (a : F) (m : Z),
    (0 < m)%Z -> (zero >! a)%fl = false ->
    (zero >! a ⊘ of_int m)%fl = false;
  fadd_pos : forall a b w : F,
    representable a = true ->
    (a >! zero)%fl = true -> (zero >! w)%fl = false ->
    (b ⊖ w >! zero)%fl = true ->
    (a ⊕ w >! zero)%fl = true;
}.

(** ** Shapes of binary32 values *)

(** Strictly positive: a positive finite number or [+inf]. *)
Definition positive_float (x : Binary32.t) : bool :=
  match x with
  | S754_finite false _ _ | S754_infinity false => true
  | _ => false
  end.

(** Not negative: anything but a negative finite number or [-inf]. *)
Definition not_negative (x : Binary32.t) : bool :=
  match x with
  | S754_finite true _ _ | S754_infinity true => false
  | _ => true
  end.

(** What rounding a result of sign [s] can give. *)
Definition rounded (s : bool) (x : Binary32.t) : Prop :=
  x = S754_nan \/ x = S754_zero s \/ x = S754_infinity s \/
  exists m e, x = S754_finite s m e.

(** The number of binary digits of a mantissa. *)
Definition dg (p : positive) : Z := Zpos (digits2_pos p).

(** ** Concrete inputs *)

Module NegativeAccel.
(** One column, two rows, every component 1/2, and an acceleration
    against the flow direction: [w1 = -1], [w2 = -1/4]. *)
Definition params_Q : t_param Q :=
  {| nx := 1; ny := 2; maxIters := 1; reynolds_dim := 1;
     density := 1%Q; accel := (-9)%Q; omega := 1%Q |}.
Definition grid_Q : soa Q := uniform_soa 2 (fun _ => (1 # 2)%Q).

(** The same state in binary32. *)
Definition params_32 : t_param Binary32.t :=
  {| nx := 1; ny := 2; maxIters := 1; reynolds_dim := 1;
     density := of_int 1; accel := of_int (-9); omega := of_int 1 |}.
Definition grid_32 : soa Binary32.t :=
  uniform_soa 2 (fun _ => (of_int 1 ⊘ of_int 2)%fl).

Definition obstacles : ptr Z := Some [0; 0].
End NegativeAccel.

Module OneCell.
(** A single fluid cell whose nine components are all 1/2, [omega = 1]. *)
Definition half : Binary32.t := (of_int 1 ⊘ of_int 2)%fl.
Definition params : t_param Binary32.t :=
  {| nx := 1; ny := 1; maxIters := 1; reynolds_dim := 1;
     density := of_int 1; accel := of_int 0; omega := of_int 1 |}.
Definition grid : soa Binary32.t := uniform_soa 1 (fun _ => half).
Definition tmp_grid : soa Binary32.t := uniform_soa 1 (fun _ => of_int 7).
Definition obstacles : ptr Z := Some [0].
End OneCell.

Module UniformRun.
(** A 2 x 2 grid without obstacles, no acceleration, density 0.1 and
    omega 1.7, run for one step from the state [initialise] builds. *)
Definition params : t_param Binary32.t :=
  {| nx := 2; ny := 2; maxIters := 1; reynolds_dim := 1;
     density := (of_int 1 ⊘ of_int 10)%fl; accel := of_int 0;
     omega := (of_int 17 ⊘ of_int 10)%fl |}.
Definition junk : Binary32.t := of_int 7.
End UniformRun.

Module Sample.
(** A 2 x 2 grid in binary32 whose cell [i] holds [10 k + i + 1] in
    direction [k]; the cell (0, 0) is an obstacle. *)
Definition params : t_param Binary32.t :=
  {| nx := 2; ny := 2; maxIters := 2; reynolds_dim := 1;
     density := (of_int 1 ⊘ of_int 10)%fl;
     accel := (of_int 5 ⊘ of_int 1000)%fl;
     omega := (of_int 17 ⊘ of_int 10)%fl |}.
Definition numbered (k : Z) : ptr Binary32.t :=
  Some (map (fun i => of_int (10 * k + i)) [1; 2; 3; 4]).
Definition grid : soa Binary32.t :=
  {| s0 := numbered 0; s1 := numbered 1; s2 := numbered 2;
     s3 := numbered 3; s4 := numbered 4; s5 := numbered 5;
     s6 := numbered 6; s7 := numbered 7; s8 := numbered 8 |}.
Definition tmp_grid : soa Binary32.t := uniform_soa 4 (fun _ => of_int 7).
Definition obstacles : ptr Z := Some [1; 0; 0; 0].
Definition walls : ptr Z := Some [1; 1; 1; 1].
Definition av_vels : ptr Binary32.t := Some [of_int 7; of_int 7].
Definition obstaclefile : list (option (Z * Z * Z)) := [Some (0, 0, 1)].

(** The state of [NegativeAccel] with the acceleration reversed. *)
Definition params_Q : t_param Q :=
  {| nx := 1; ny := 2; maxIters := 1; reynolds_dim := 1;
     density := 1%Q; accel := 9%Q; omega := 1%Q |}.
End Sample.

Module Cells.
(** The grid of [Sample] as an array of structures, with a scratch array
    whose cell [i] holds [100 + 10 k + i + 1] in direction [k]. *)
Definition params : t_param Binary32.t := Sample.params.
Definition rank (k : speed) : Z :=
  match k with
  | S0 => 0 | S1 => 1 | S2 => 2 | S3 => 3 | S4 => 4
  | S5 => 5 | S6 => 6 | S7 => 7 | S8 => 8
  end.
Definition numbered (base i : Z) : t_speed Binary32.t :=
  {| speed_values := fun k => of_int (base + 10 * rank k + i) |}.
Definition cells : ptr (t_speed Binary32.t) :=
  Some (map (numbered 0) [1; 2; 3; 4]).
Definition tmp_cells : ptr (t_speed Binary32.t) :=
  Some (map (numbered 100) [1; 2; 3; 4]).
Definition obstacles : ptr Z := Sample.obstacles.

(** A 2 x 1 grid of rationals: an obstacle next to a fluid cell that
    moves east, [omega = 1/2]. *)
Definition params_Q : t_param Q :=
  {| nx := 2; ny := 1; maxIters := 1; reynolds_dim := 1;
     density := 1%Q; accel := 0%Q; omega := (1 # 2)%Q |}.
Definition still : t_speed Q := {| speed_values := fun _ => 1%Q |}.
Definition moving : speed -> Q := fun k =>
  match k with S1 => 3%Q | _ => 1%Q end.
Definition cells_Q : ptr (t_speed Q) := Some [still; still].
Definition tmp_cells_Q : ptr (t_speed Q) :=
  Some [still; {| speed_values := moving |}].
Definition obstacles_Q : ptr Z := Some [1; 0].

(** The parameters of [Sample] with no time step to run. *)
Definition no_steps : t_param Binary32.t :=
  {| nx := 2; ny := 2; maxIters := 0; reynolds_dim := 1;
     density := (of_int 1 ⊘ of_int 10)%fl;
     accel := (of_int 5 ⊘ of_int 1000)%fl;
     omega := (of_int 17 ⊘ of_int 10)%fl |}.

(** One row of two cells. *)
Definition wide : t_param Binary32.t :=
  {| nx := 2; ny := 1; maxIters := 1; reynolds_dim := 1;
     density := of_int 1; accel := of_int 0; omega := of_int 1 |}.

(** Three columns, two rows: wider than high. *)
Definition wide3 : t_param Binary32.t :=
  {| nx := 3; ny := 2; maxIters := 2; reynolds_dim := 1;
     density := (of_int 1 ⊘ of_int 10)%fl;
     accel := (of_int 5 ⊘ of_int 1000)%fl;
     omega := (of_int 17 ⊘ of_int 10)%fl |}.

(** Two blocks of the size [test.c] allocates. *)
Definition zeros : list Z := replicate (Z.to_nat (128 * 128)) 0%Z.
Definition ones : list Z := replicate (Z.to_nat (128 * 128)) 1%Z.
End Cells.

(** * Verification *)

Section MemoryFacts.
Context {F : Type}.
Implicit Types (g : soa F) (k : speed) (i n : Z).

Lemma is_block_Some {A : Type} n (p : ptr A) :
  is_block n p = true -> exists a, p = Some a /\ Z.of_nat (length a) = n.
Proof.
  destruct p as [a|]; simpl; [|discriminate].
  intros Hn. exists a. split; [reflexivity|]. by apply Z.eqb_eq.
Qed.

Lemma wf_soa_field n g k :
  wf_soa n g = true -> is_block n (field k g) = true.
Proof.
  unfold wf_soa. rewrite forallb_forall. intros Hall. apply Hall.
  destruct k; simpl; tauto.
Qed.

Lemma wf_soa_intro n g :
  (forall k, is_block n (field k g) = true) -> wf_soa n g = true.
Proof. intros Hall. unfold wf_soa. rewrite forallb_forall. auto. Qed.

Lemma field_set_field_eq k (p : ptr F) g : field k (set_field k p g) = p.
Proof. by destruct k. Qed.

Lemma field_set_field_ne k k' (p : ptr F) g :
  k' <> k -> field k' (set_field k p g) = field k' g.
Proof. by destruct k, k'. Qed.

Lemma array_get_Some {A : Type} n (p : ptr A) i :
  is_block n p = true -> 0 <= i < n -> is_Some (array_get p i).
Proof.
  intros (a & -> & Hlen)%is_block_Some Hi. simpl.
  rewrite decide_True by lia. apply lookup_lt_is_Some. lia.
Qed.

Lemma store_upd n g k i v :
  wf_soa n g = true -> 0 <= i < n -> store g k i v = Some (upd g k i v).
Proof.
  intros Hwf Hi. unfold store, upd.
  destruct (is_block_Some _ _ (wf_soa_field _ _ k Hwf)) as (a & -> & Hlen).
  simpl. by rewrite decide_True by lia.
Qed.

Lemma wf_upd n g k i v : wf_soa n g = true -> wf_soa n (upd g k i v) = true.
Proof.
  intros Hwf. apply wf_soa_intro. intros k'. unfold upd.
  destruct (is_block_Some _ _ (wf_soa_field _ _ k Hwf)) as (a & Hk & Hlen).
  rewrite Hk. destruct (decide (k' = k)) as [->|Hne].
  - rewrite field_set_field_eq. simpl. rewrite length_insert. by apply Z.eqb_eq.
  - rewrite field_set_field_ne by done. by apply wf_soa_field.
Qed.

Lemma load_upd_eq n g k i v :
  wf_soa n g = true -> 0 <= i < n -> load (upd g k i v) k i = Some v.
Proof.
  intros Hwf Hi. unfold load, upd.
  destruct (is_block_Some _ _ (wf_soa_field _ _ k Hwf)) as (a & -> & Hlen).
  rewrite field_set_field_eq. simpl. rewrite decide_True by lia.
  apply list_lookup_insert_eq. lia.
Qed.

Lemma load_upd_field k' g k i v :
  k' <> k -> forall i', load (upd g k i v) k' i' = load g k' i'.
Proof.
  intros Hne i'. unfold load, upd. destruct (field k g); [|done].
  by rewrite field_set_field_ne.
Qed.

Lemma load_upd_index i' g k i v :
  0 <= i -> i' <> i -> forall k', load (upd g k i v) k' i' = load g k' i'.
Proof.
  intros Hi Hne k'. destruct (decide (k' = k)) as [->|Hk];
    [|by apply load_upd_field].
  unfold load, upd. destruct (field k g) as [a|] eqn:Hk; [|by rewrite Hk].
  rewrite field_set_field_eq. simpl. case_decide; [|done].
  apply list_lookup_insert_ne. lia.
Qed.

Lemma load_is_Some n g k i :
  wf_soa n g = true -> 0 <= i < n -> is_Some (load g k i).
Proof.
  intros Hwf Hi. eapply array_get_Some; [by apply wf_soa_field|done].
Qed.

(** Two well-formed grids with the same contents are the same grid. *)
Lemma soa_ext n g g' :
  wf_soa n g = true -> wf_soa n g' = true ->
  (forall k i, 0 <= i < n -> load g k i = load g' k i) -> g = g'.
Proof.
  intros Hwf Hwf' Hload.
  assert (Hfield : forall k, field k g = field k g').
  { intros k. specialize (Hload k). unfold load in Hload.
    destruct (is_block_Some _ _ (wf_soa_field _ _ k Hwf)) as (a & Ha & Hlen).
    destruct (is_block_Some _ _ (wf_soa_field _ _ k Hwf')) as (a' & Ha' & Hlen').
    rewrite Ha, Ha' in *. f_equal. apply list_eq. intros j.
    destruct (decide (Z.of_nat j < n)) as [Hj|Hj].
    - specialize (Hload (Z.of_nat j)). simpl in Hload.
      rewrite !decide_True, !Nat2Z.id in Hload by lia. apply Hload. lia.
    - rewrite !lookup_ge_None_2 by lia. done. }
  destruct g, g'.
  pose proof (Hfield S0) as H0. pose proof (Hfield S1) as H1.
  pose proof (Hfield S2) as H2. pose proof (Hfield S3) as H3.
  pose proof (Hfield S4) as H4. pose proof (Hfield S5) as H5.
  pose proof (Hfield S6) as H6. pose proof (Hfield S7) as H7.
  pose proof (Hfield S8) as H8. simpl in *. congruence.
Qed.
End MemoryFacts.

(** ** Loop rules *)

Section Loops.
Context {S : Type}.
Implicit Types (body : Z -> S -> option S) (s : S).

Lemma for_each_seqZ (I : Z -> S -> Prop) body (len : nat) : forall m s,
  I m s ->
  (forall i s, m <= i < m + Z.of_nat len -> I i s ->
     exists s', body i s = Some s' /\ I (i + 1) s') ->
  exists s', for_each (seqZ m (Z.of_nat len)) body s = Some s'
             /\ I (m + Z.of_nat len) s'.
Proof.
  induction len as [|len IH]; intros m s Hs Hbody.
  - exists s. simpl. by rewrite Z.add_0_r.
  - rewrite seqZ_cons by lia. simpl.
    destruct (Hbody m s) as (s1 & -> & Hs1); [lia|done|]. simpl.
    replace (Z.pred (Z.of_nat (Datatypes.S len))) with (Z.of_nat len) by lia.
    destruct (IH (Z.succ m) s1) as (s' & Hrun & Hs').
    + by replace (Z.succ m) with (m + 1) by lia.
    + intros i s2 Hi. apply Hbody. lia.
    + exists s'. split; [done|].
      by replace (m + Z.of_nat (Datatypes.S len)) with (Z.succ m + Z.of_nat len) by lia.
Qed.

(** Total correctness of a counted loop with invariant [I]. *)
Lemma for_loop_rule (I : Z -> S -> Prop) n body s :
  0 <= n -> I 0 s ->
  (forall i s, 0 <= i < n -> I i s ->
     exists s', body i s = Some s' /\ I (i + 1) s') ->
  exists s', for_loop n body s = Some s' /\ I n s'.
Proof.
  intros Hn Hs Hbody. unfold for_loop.
  destruct (for_each_seqZ I body (Z.to_nat n) 0 s) as (s' & Hrun & Hs').
  - done.
  - intros i s1 Hi. apply Hbody. lia.
  - rewrite Z2Nat.id in Hrun, Hs' by done. by exists s'.
Qed.

(** The row-major double loop: the invariant is indexed by the number
    [ii + jj * nx] of cells already visited. *)
Lemma grid_loop_rule (I : Z -> S -> Prop) nx ny
    (body : Z -> Z -> S -> option S) s :
  0 <= nx -> 0 <= ny -> I 0 s ->
  (forall jj ii s, 0 <= jj < ny -> 0 <= ii < nx -> I (ii + jj * nx) s ->
     exists s', body jj ii s = Some s' /\ I (ii + jj * nx + 1) s') ->
  exists s', for_loop ny (fun jj => for_loop nx (body jj)) s = Some s'
             /\ I (ny * nx) s'.
Proof.
  intros Hnx Hny Hs Hbody.
  destruct (for_loop_rule (fun jj => I (jj * nx)) ny
              (fun jj => for_loop nx (body jj)) s) as (s' & Hrun & Hs');
    [done|done| |by exists s'].
  intros jj s1 Hjj Hs1.
  destruct (for_loop_rule (fun ii => I (ii + jj * nx)) nx (body jj) s1)
    as (s2 & Hrun & Hs2); [done|done| | ].
  - intros ii s2 Hii Hs2.
    destruct (Hbody jj ii s2) as (s3 & Hrun & Hs3); [done..|].
    exists s3. split; [done|].
    by replace (ii + 1 + jj * nx) with (ii + jj * nx + 1) by lia.
  - exists s2. split; [done|].
    by replace ((jj + 1) * nx) with (nx + jj * nx) by lia.
Qed.
End Loops.

(** Row-major positions are distinct. *)
Lemma idx_inj nx ii jj ii' jj' :
  0 <= ii < nx -> 0 <= ii' < nx -> ii + jj * nx = ii' + jj' * nx ->
  ii = ii' /\ jj = jj'.
Proof. intros Hi Hi' Heq. assert (jj = jj') by nia. subst. lia. Qed.

Lemma idx_range nx ny ii jj :
  0 <= ii < nx -> 0 <= jj < ny -> 0 <= ii + jj * nx < ny * nx.
Proof. nia. Qed.

(** ** Reading well-formed memory *)

#[local] Arguments load : simpl never.
#[local] Arguments store : simpl never.
#[local] Arguments upd : simpl never.
#[local] Arguments array_get : simpl never.
#[local] Arguments array_set : simpl never.
#[local] Arguments propagate_cell : simpl never.
#[local] Arguments rebound_cell : simpl never.
#[local] Arguments collide_cell : simpl never.
#[local] Arguments fusion_cell : simpl never.

Section Reads.
Context {F : Type} {ops : FloatOps F}.
Implicit Types (g : soa F) (k : speed).

Lemma load_rd n g k i :
  wf_soa n g = true -> 0 <= i < n -> load g k i = Some (rd g k i).
Proof.
  intros Hwf Hi. unfold rd.
  by destruct (load_is_Some n g k i Hwf Hi) as [v ->].
Qed.

Lemma array_get_flag n (obstacles : ptr Z) i :
  is_block n obstacles = true -> 0 <= i < n ->
  array_get obstacles i = Some (flag_at obstacles i).
Proof.
  intros Hb Hi. unfold flag_at.
  by destruct (array_get_Some n obstacles i Hb Hi) as [v ->].
Qed.
End Reads.

(** Symbolic execution of straight-line loads and stores on grids of [n]
    cells; [Hbase] rewrites the loads from the initial grid. *)
Ltac side n :=
  first [ assumption | lia | repeat apply (wf_upd n); assumption ].

Ltac exec n Hbase :=
  repeat first
    [ rewrite (store_upd n) by side n
    | rewrite (load_upd_eq n) by side n
    | rewrite load_upd_field by discriminate
    | rewrite Hbase
    | rewrite (load_rd n) by side n
    | progress simpl ].

Ltac frame n :=
  repeat first
    [ rewrite load_upd_index by side n
    | rewrite (load_upd_eq n) by side n
    | rewrite load_upd_field by discriminate ].

(** ** The fused kernel, cell by cell *)

Section CellFacts.
Context {F : Type} {ops : FloatOps F} {sq : FloatSqrt F}.
Local Open Scope float_scope.
Implicit Types (g grid tmp : soa F) (k : speed) (c : speed -> F).
Implicit Types (params : t_param F) (obstacles : ptr Z).

Lemma east_range n i : 0 <= i < n -> 0 <= east n i < n.
Proof. intros Hi. unfold east. apply Z.rem_bound_pos; lia. Qed.

Lemma west_range n i : 0 <= i < n -> 0 <= west n i < n.
Proof. intros Hi. unfold west. destruct (Z.eqb_spec i 0); lia. Qed.

Lemma east_west n i : 0 <= i < n -> east n (west n i) = i.
Proof.
  intros Hi. unfold east, west. destruct (Z.eqb_spec i 0) as [->|Hne].
  - replace (0 + n - 1 + 1) with n by lia. apply Z.rem_same. lia.
  - replace (i - 1 + 1) with i by lia. apply Z.rem_small. lia.
Qed.

Lemma west_east n i : 0 <= i < n -> west n (east n i) = i.
Proof.
  intros Hi. unfold east, west.
  destruct (decide (i + 1 = n)) as [Heq|Hne].
  - rewrite Heq, Z.rem_same by lia. simpl. lia.
  - rewrite Z.rem_small by lia. destruct (Z.eqb_spec (i + 1) 0); lia.
Qed.

Lemma source_range params k jj ii :
  0 <= ii < nx params -> 0 <= jj < ny params ->
  0 <= source params k jj ii < ny params * nx params.
Proof.
  intros Hi Hj.
  pose proof (east_range _ _ Hi). pose proof (west_range _ _ Hi).
  pose proof (east_range _ _ Hj). pose proof (west_range _ _ Hj).
  destruct k; simpl; by apply idx_range.
Qed.

Lemma cell_set_trans n tmp tmp1 tmp2 idx c c' :
  cell_set n tmp tmp1 idx c -> cell_set n tmp1 tmp2 idx c' ->
  cell_set n tmp tmp2 idx c'.
Proof.
  intros (_ & _ & Hframe) (Hwf & Hcell & Hframe').
  repeat split; [done..|]. intros k i Hi.
  by rewrite Hframe', Hframe.
Qed.

Lemma propagate_cell_spec params grid tmp jj ii :
  let n := (ny params * nx params)%Z in
  wf_soa n grid = true -> wf_soa n tmp = true ->
  0 <= ii < nx params -> 0 <= jj < ny params ->
  exists tmp1,
    propagate_cell params grid jj ii tmp = Some tmp1 /\
    cell_set n tmp tmp1 (ii + jj * nx params) (streamed params grid jj ii).
Proof.
  intros n Hgrid Htmp Hi Hj.
  pose proof (fun k => source_range params k jj ii Hi Hj) as Hsrc.
  pose proof (Hsrc S0) as Hs0. pose proof (Hsrc S1) as Hs1.
  pose proof (Hsrc S2) as Hs2. pose proof (Hsrc S3) as Hs3.
  pose proof (Hsrc S4) as Hs4. pose proof (Hsrc S5) as Hs5.
  pose proof (Hsrc S6) as Hs6. pose proof (Hsrc S7) as Hs7.
  pose proof (Hsrc S8) as Hs8. clear Hsrc.
  unfold propagate_cell, copy_from, streamed.
  simpl in Hs0, Hs1, Hs2, Hs3, Hs4, Hs5, Hs6, Hs7, Hs8.
  unfold east, west in *.
  fold n in Hs0, Hs1, Hs2, Hs3, Hs4, Hs5, Hs6, Hs7, Hs8.
  set (idx := (ii + jj * nx params)%Z) in *.
  assert (Hload : load tmp S0 idx = load tmp S0 idx) by done.
  exec n Hload.
  eexists. split; [reflexivity|]. clear Hload.
  repeat split.
  - side n.
  - intros []; frame n; reflexivity.
  - intros k i Hne. frame n. reflexivity.
Qed.
Lemma rebound_cell_spec n tmp idx c :
  wf_soa n tmp = true -> 0 <= idx < n ->
  (forall k, load tmp k idx = Some (c k)) ->
  exists tmp',
    rebound_cell tmp idx = Some tmp' /\ cell_set n tmp tmp' idx (mirrored c).
Proof.
  intros Htmp Hidx Hcell. unfold rebound_cell.
  exec n Hcell.
  eexists. split; [reflexivity|].
  repeat split.
  - side n.
  - intros []; frame n; rewrite ?Hcell; reflexivity.
  - intros k i Hne. frame n. reflexivity.
Qed.

Lemma collide_cell_spec params n tmp idx c tot_u tot_cells :
  wf_soa n tmp = true -> 0 <= idx < n ->
  (forall k, load tmp k idx = Some (c k)) ->
  exists tmp',
    collide_cell params idx (tmp, tot_u, tot_cells)
    = Some (tmp', tot_u ⊕ cell_speed (relaxed params c), (tot_cells + 1)%Z) /\
    cell_set n tmp tmp' idx (relaxed params c).
Proof.
  intros Htmp Hidx Hcell. unfold collide_cell, relax.
  exec n Hcell.
  eexists. split; [reflexivity|].
  repeat split.
  - side n.
  - intros []; frame n; reflexivity.
  - intros k i Hne. frame n. reflexivity.
Qed.

Lemma fusion_cell_spec params obstacles grid tmp jj ii tot_u tot_cells :
  let n := (ny params * nx params)%Z in
  wf_soa n grid = true -> wf_soa n tmp = true ->
  is_block n obstacles = true ->
  0 <= ii < nx params -> 0 <= jj < ny params ->
  exists tmp',
    fusion_cell params obstacles grid jj ii (tmp, tot_u, tot_cells)
    = Some (tmp', (accumulated params obstacles grid jj ii (tot_u, tot_cells)).1,
                  (accumulated params obstacles grid jj ii (tot_u, tot_cells)).2) /\
    cell_set n tmp tmp' (ii + jj * nx params) (fused params obstacles grid jj ii).
Proof.
  intros n Hgrid Htmp Hobs Hi Hj.
  pose proof (idx_range _ _ _ _ Hi Hj) as Hidx. fold n in Hidx.
  destruct (propagate_cell_spec params grid tmp jj ii Hgrid Htmp Hi Hj)
    as (tmp1 & Hprop & Hset1).
  unfold fusion_cell, fused, accumulated, blocked. rewrite Hprop. simpl.
  replace (jj * nx params + ii) with (ii + jj * nx params) by lia.
  rewrite (array_get_flag n) by done. simpl.
  destruct Hset1 as (Hwf1 & Hcell1 & Hframe1).
  destruct (negb (flag_at obstacles (ii + jj * nx params) =? 0)).
  - destruct (rebound_cell_spec n tmp1 _ _ Hwf1 Hidx Hcell1)
      as (tmp2 & -> & Hset2). simpl.
    exists tmp2. split; [done|].
    by apply (cell_set_trans n tmp tmp1 tmp2 _ (streamed params grid jj ii)).
  - destruct (collide_cell_spec params n tmp1 _ _ tot_u tot_cells Hwf1 Hidx Hcell1)
      as (tmp2 & -> & Hset2).
    exists tmp2. split; [done|].
    by apply (cell_set_trans n tmp tmp1 tmp2 _ (streamed params grid jj ii)).
Qed.
(** At an obstacle the cell step is the streaming followed by the
    bounce-back, and nothing else. *)
Lemma fusion_cell_blocked params obstacles grid tmp jj ii tot_u tot_cells :
  let n := (ny params * nx params)%Z in
  let idx := (ii + jj * nx params)%Z in
  wf_soa n grid = true -> wf_soa n tmp = true ->
  is_block n obstacles = true ->
  0 <= ii < nx params -> 0 <= jj < ny params ->
  blocked obstacles idx = true ->
  exists tmp1 tmp2,
    propagate_cell params grid jj ii tmp = Some tmp1 /\
    rebound_cell tmp1 idx = Some tmp2 /\
    fusion_cell params obstacles grid jj ii (tmp, tot_u, tot_cells)
    = Some (tmp2, tot_u, tot_cells).
Proof.
  intros n idx Hgrid Htmp Hobs Hi Hj Hblocked.
  pose proof (idx_range _ _ _ _ Hi Hj) as Hidx. fold n idx in Hidx.
  destruct (propagate_cell_spec params grid tmp jj ii Hgrid Htmp Hi Hj)
    as (tmp1 & Hprop & Hwf1 & Hcell1 & _).
  destruct (rebound_cell_spec n tmp1 idx _ Hwf1 Hidx Hcell1)
    as (tmp2 & Hrebound & _).
  exists tmp1, tmp2. split; [done|]. split; [done|].
  unfold fusion_cell. rewrite Hprop. simpl.
  replace (jj * nx params + ii) with idx by (unfold idx; lia).
  rewrite (array_get_flag n) by done. simpl.
  unfold blocked in Hblocked. rewrite Hblocked. fold idx.
  by rewrite Hrebound.
Qed.
End CellFacts.

(** ** The fused kernel over the whole grid *)

Section FusionFacts.
Context {F : Type} {ops : FloatOps F} {sq : FloatSqrt F}.
Local Open Scope float_scope.

Variables (params : t_param F) (obstacles : ptr Z) (grid : soa F).
Let n : Z := (ny params * nx params)%Z.
Hypothesis Hnx : 0 <= nx params.
Hypothesis Hny : 0 <= ny params.
Hypothesis Hgrid : wf_soa n grid = true.
Hypothesis Hobs : is_block n obstacles = true.

Lemma fusion_loop_spec (A : Z -> F * Z -> Prop) tmp :
  wf_soa n tmp = true ->
  A 0 (zero, 0%Z) ->
  (forall jj ii acc, 0 <= jj < ny params -> 0 <= ii < nx params ->
     A (ii + jj * nx params) acc ->
     A (ii + jj * nx params + 1) (accumulated params obstacles grid jj ii acc)) ->
  exists st,
    fusion_loop params obstacles grid tmp = Some st /\
    fusion_inv params obstacles grid A n st.
Proof.
  intros Htmp HA0 HAstep. unfold fusion_loop.
  apply (grid_loop_rule (fusion_inv params obstacles grid A)); [done|done| | ].
  - repeat split; [done| |done]. intros jj ii k Hj Hi Hlt.
    pose proof (idx_range _ _ _ _ Hi Hj). lia.
  - intros jj ii [[tmp1 tot_u] tot_cells] Hj Hi (Hwf & Hdone & Hacc).
    simpl in Hwf, Hdone, Hacc.
    destruct (fusion_cell_spec params obstacles grid tmp1 jj ii tot_u tot_cells)
      as (tmp2 & Hrun & Hwf2 & Hcell & Hframe); [done..|].
    eexists. split; [exact Hrun|].
    repeat split; simpl.
    + done.
    + intros jj' ii' k Hj' Hi' Hlt.
      destruct (decide (ii' + jj' * nx params = ii + jj * nx params)) as [Heq|Hne].
      * destruct (idx_inj _ _ _ _ _ Hi' Hi Heq) as [-> ->]. apply Hcell.
      * rewrite Hframe by done. apply Hdone; [done..|lia].
    + rewrite <- surjective_pairing. by apply HAstep.
Qed.

(** The fused kernel returns, and every cell of the scratch grid then
    holds its [fused] values. *)
Lemma fusion_spec tmp :
  wf_soa n tmp = true ->
  exists tot_u tot_cells tmp',
    fusion_loop params obstacles grid tmp = Some (tmp', tot_u, tot_cells) /\
    fusion params obstacles grid tmp = Some (tot_u ⊘ of_int tot_cells, tmp') /\
    wf_soa n tmp' = true /\
    (forall jj ii k, 0 <= jj < ny params -> 0 <= ii < nx params ->
       load tmp' k (ii + jj * nx params)
       = Some (fused params obstacles grid jj ii k)).
Proof.
  intros Htmp.
  destruct (fusion_loop_spec (fun _ _ => True) tmp)
    as ([[tmp' tot_u] tot_cells] & Hrun & Hwf & Hdone & _); [done..|].
  exists tot_u, tot_cells, tmp'. unfold fusion. rewrite Hrun.
  repeat split; [done|]. intros jj ii k Hj Hi. apply Hdone; [done..|].
  pose proof (idx_range _ _ _ _ Hi Hj). simpl. lia.
Qed.
End FusionFacts.

(** ** Grids made of obstacles only *)

Section AllBlocked.
Context {F : Type} {ops : FloatOps F} {sq : FloatSqrt F}.
Local Open Scope float_scope.
Implicit Types (params : t_param F) (k : speed).

Lemma all_blocked_blocked (obstacles : ptr Z) n i :
  all_blocked obstacles = true -> is_block n obstacles = true ->
  0 <= i < n -> blocked obstacles i = true.
Proof.
  intros Hall (a & -> & Hlen)%is_block_Some Hi.
  unfold blocked, flag_at, array_get. simpl. rewrite decide_True by lia.
  destruct (lookup_lt_is_Some_2 a (Z.to_nat i)) as [v Hv]; [lia|].
  rewrite Hv. simpl. simpl in Hall. rewrite forallb_forall in Hall.
  apply Hall. apply list_elem_of_In. by eapply list_elem_of_lookup_2.
Qed.

Lemma source_source_cell params k jj ii :
  source params k jj ii
  = ((source_cell params k jj ii).2 + (source_cell params k jj ii).1 * nx params)%Z.
Proof. by destruct k. Qed.

Lemma source_cell_range params k jj ii :
  0 <= ii < nx params -> 0 <= jj < ny params ->
  0 <= (source_cell params k jj ii).1 < ny params /\
  0 <= (source_cell params k jj ii).2 < nx params.
Proof.
  intros Hi Hj.
  pose proof (east_range _ _ Hi). pose proof (west_range _ _ Hi).
  pose proof (east_range _ _ Hj). pose proof (west_range _ _ Hj).
  by destruct k.
Qed.

(** Streaming direction [k] out of the cell that direction [opposite k]
    came from leads back. *)
Lemma source_cell_opposite params k jj ii :
  0 <= ii < nx params -> 0 <= jj < ny params ->
  source_cell params k (source_cell params (opposite k) jj ii).1
                       (source_cell params (opposite k) jj ii).2
  = (jj, ii).
Proof.
  intros Hi Hj.
  destruct k; simpl;
    rewrite ?east_west, ?west_east by done; reflexivity.
Qed.

Lemma opposite_involutive k : opposite (opposite k) = k.
Proof. by destruct k. Qed.
End AllBlocked.

(** C3: for an obstacle cell [(ii, jj)], one invocation of the fused
    kernel leaves in scratch exactly the bounce-back mirror of the streamed
    values (direction [k] receives the value streamed along [opposite k]:
    g0=t0, g1=t3, g2=t4, g3=t1, g4=t2, g5=t7, g6=t8, g7=t5, g8=t6, with
    t1 pulled from the west neighbour, t3 from the east one, and so on);
    visiting the cell consists of the streaming and the bounce-back only,
    without the relaxation, and leaves the velocity sum and the fluid-cell
    count as they were. *)
Theorem fusion_obstacle_cell {F : Type} {ops : FloatOps F} {sq : FloatSqrt F}
    (params : t_param F) (obstacles : ptr Z) (grid tmp : soa F) (jj ii : Z) :
  let n := (ny params * nx params)%Z in
  let idx := (ii + jj * nx params)%Z in
  let x_e := Z.rem (ii + 1) (nx params) in
  let x_w := if (ii =? 0)%Z then (ii + nx params - 1)%Z else (ii - 1)%Z in
  let y_n := Z.rem (jj + 1) (ny params) in
  let y_s := if (jj =? 0)%Z then (jj + ny params - 1)%Z else (jj - 1)%Z in
  wf_soa n grid = true -> wf_soa n tmp = true ->
  is_block n obstacles = true ->
  0 <= ii < nx params -> 0 <= jj < ny params ->
  (exists ob, array_get obstacles idx = Some ob /\ ob <> 0) ->
  (exists av tmp' t0 t1 t2 t3 t4 t5 t6 t7 t8,
     fusion params obstacles grid tmp = Some (av, tmp') /\
     load grid S0 idx = Some t0 /\
     load grid S1 (x_w + jj * nx params) = Some t1 /\
     load grid S2 (ii + y_s * nx params) = Some t2 /\
     load grid S3 (x_e + jj * nx params) = Some t3 /\
     load grid S4 (ii + y_n * nx params) = Some t4 /\
     load grid S5 (x_w + y_s * nx params) = Some t5 /\
     load grid S6 (x_e + y_s * nx params) = Some t6 /\
     load grid S7 (x_e + y_n * nx params) = Some t7 /\
     load grid S8 (x_w + y_n * nx params) = Some t8 /\
     load tmp' S0 idx = Some t0 /\
     load tmp' S1 idx = Some t3 /\
     load tmp' S2 idx = Some t4 /\
     load tmp' S3 idx = Some t1 /\
     load tmp' S4 idx = Some t2 /\
     load tmp' S5 idx = Some t7 /\
     load tmp' S6 idx = Some t8 /\
     load tmp' S7 idx = Some t5 /\
     load tmp' S8 idx = Some t6) /\
  (forall tmp0 tot_u tot_cells, wf_soa n tmp0 = true ->
     exists tmp1 tmp2,
       propagate_cell params grid jj ii tmp0 = Some tmp1 /\
       rebound_cell tmp1 idx = Some tmp2 /\
       fusion_cell params obstacles grid jj ii (tmp0, tot_u, tot_cells)
       = Some (tmp2, tot_u, tot_cells)).
Proof.
  intros n idx x_e x_w y_n y_s Hgrid Htmp Hobs Hi Hj (ob & Hob & Hne).
  assert (Hblocked : blocked obstacles idx = true).
  { unfold blocked, flag_at. rewrite Hob. simpl.
    by destruct (Z.eqb_spec ob 0). }
  split.
  - destruct (fusion_spec params obstacles grid ltac:(lia) ltac:(lia)
                Hgrid Hobs tmp Htmp)
      as (tot_u & tot_cells & tmp' & _ & Hrun & Hwf & Hcells).
    pose proof (fun k => Hcells jj ii k Hj Hi) as Hcell.
    unfold fused in Hcell. fold idx in Hcell. rewrite Hblocked in Hcell.
    pose proof (fun k => load_rd n grid k _ Hgrid (source_range params k jj ii Hi Hj))
      as Hsrc.
    exists (tot_u ⊘ of_int tot_cells)%fl, tmp'.
    exists (streamed params grid jj ii S0), (streamed params grid jj ii S1),
      (streamed params grid jj ii S2), (streamed params grid jj ii S3),
      (streamed params grid jj ii S4), (streamed params grid jj ii S5),
      (streamed params grid jj ii S6), (streamed params grid jj ii S7),
      (streamed params grid jj ii S8).
    split; [exact Hrun|].
    repeat split;
      first [ apply (Hsrc S0) | apply (Hsrc S1) | apply (Hsrc S2)
            | apply (Hsrc S3) | apply (Hsrc S4) | apply (Hsrc S5)
            | apply (Hsrc S6) | apply (Hsrc S7) | apply (Hsrc S8)
            | apply (Hcell S0) | apply (Hcell S1) | apply (Hcell S2)
            | apply (Hcell S3) | apply (Hcell S4) | apply (Hcell S5)
            | apply (Hcell S6) | apply (Hcell S7) | apply (Hcell S8) ].
  - intros tmp0 tot_u tot_cells Htmp0.
    by apply fusion_cell_blocked.
Qed.

Section AllBlockedRuns.
Context {F : Type} {ops : FloatOps F} {sq : FloatSqrt F}.
Local Open Scope float_scope.

Variables (params : t_param F) (obstacles : ptr Z).
Let n : Z := (ny params * nx params)%Z.
Hypothesis Hnx : 0 <= nx params.
Hypothesis Hny : 0 <= ny params.
Hypothesis Hobs : is_block n obstacles = true.
Hypothesis Hall : all_blocked obstacles = true.

Lemma fused_all_blocked grid jj ii :
  0 <= ii < nx params -> 0 <= jj < ny params ->
  fused params obstacles grid jj ii = mirrored (streamed params grid jj ii).
Proof.
  intros Hi Hj. unfold fused.
  rewrite (all_blocked_blocked obstacles n); [done..|].
  by apply idx_range.
Qed.

(** On such a grid the fused kernel never touches its accumulators. *)
Lemma fusion_all_blocked grid tmp :
  wf_soa n grid = true -> wf_soa n tmp = true ->
  exists tmp',
    fusion_loop params obstacles grid tmp = Some (tmp', zero, 0%Z) /\
    fusion params obstacles grid tmp = Some (zero ⊘ of_int 0, tmp') /\
    wf_soa n tmp' = true /\
    (forall jj ii k, 0 <= jj < ny params -> 0 <= ii < nx params ->
       load tmp' k (ii + jj * nx params)
       = Some (mirrored (streamed params grid jj ii) k)).
Proof.
  intros Hgrid Htmp.
  destruct (fusion_loop_spec params obstacles grid Hnx Hny Hgrid Hobs
              (fun _ acc => acc = (zero, 0%Z)) tmp)
    as ([[tmp' tot_u] tot_cells] & Hrun & Hwf & Hdone & Hacc); [done|done| |].
  - intros jj ii acc Hj Hi ->. unfold accumulated.
    rewrite (all_blocked_blocked obstacles n); [done..|].
    by apply idx_range.
  - simpl in Hwf, Hdone, Hacc. injection Hacc as -> ->.
    exists tmp'. unfold fusion. rewrite Hrun. repeat split; [done|].
    intros jj ii k Hj Hi. rewrite <- fused_all_blocked by done.
    apply Hdone; [done..|]. pose proof (idx_range _ _ _ _ Hi Hj). lia.
Qed.

Lemma av_velocity_all_blocked grid :
  av_velocity_loop params obstacles grid = Some (zero, 0%Z) /\
  av_velocity params obstacles grid = Some (zero ⊘ of_int 0).
Proof.
  assert (Hloop : av_velocity_loop params obstacles grid = Some (zero, 0%Z)).
  { unfold av_velocity_loop.
    destruct (grid_loop_rule (fun _ st => st = (zero, 0%Z))
                (nx params) (ny params)
                (av_velocity_cell params obstacles grid) (zero, 0%Z))
      as (st & Hrun & ->); [done..| |done].
    intros jj ii st Hj Hi ->. exists (zero, 0%Z). split; [|done].
    unfold av_velocity_cell.
    pose proof (idx_range _ _ _ _ Hi Hj) as Hidx.
    rewrite (array_get_flag n) by done. simpl.
    pose proof (all_blocked_blocked obstacles n _ Hall Hobs Hidx) as Hb.
    unfold blocked in Hb. apply negb_true_iff in Hb. by rewrite Hb. }
  split; [done|]. unfold av_velocity. by rewrite Hloop.
Qed.

(** Two rounds of bounce-back give every value back. *)
Lemma bounce_back_twice grid tmp :
  0 < nx params ->
  wf_soa n grid = true -> wf_soa n tmp = true ->
  exists tmp1 grid2,
    fusion params obstacles grid tmp = Some (zero ⊘ of_int 0, tmp1) /\
    fusion params obstacles tmp1 grid = Some (zero ⊘ of_int 0, grid2) /\
    grid2 = grid.
Proof.
  intros Hpos Hgrid Htmp.
  destruct (fusion_all_blocked grid tmp Hgrid Htmp)
    as (tmp1 & _ & Hrun1 & Hwf1 & Hcells1).
  destruct (fusion_all_blocked tmp1 grid Hwf1 Hgrid)
    as (grid2 & _ & Hrun2 & Hwf2 & Hcells2).
  exists tmp1, grid2. repeat split; [done..|].
  apply (soa_ext n); [done..|]. intros k i Hi.
  set (ii := i mod nx params). set (jj := i / nx params).
  assert (Hii : 0 <= ii < nx params) by (apply Z.mod_pos_bound; lia).
  assert (Hjj : 0 <= jj < ny params).
  { split; [apply Z.div_pos; lia|]. apply Z.div_lt_upper_bound; lia. }
  assert (Hidx : i = ii + jj * nx params).
  { unfold ii, jj. rewrite (Z.div_mod i (nx params)) at 1 by lia. lia. }
  rewrite Hidx, Hcells2 by done.
  rewrite (load_rd n) by (first [done | lia]).
  unfold mirrored, streamed at 1. f_equal.
  rewrite source_source_cell.
  destruct (source_cell_range params (opposite k) jj ii Hii Hjj) as [Hsj Hsi].
  unfold rd at 1. rewrite Hcells1 by done. simpl.
  unfold mirrored, streamed. rewrite opposite_involutive.
  rewrite source_source_cell, source_cell_opposite by done. done.
Qed.
End AllBlockedRuns.

(** C9: on a grid where every cell is an obstacle, two applications of the
    fused kernel with the buffers exchanged in between (the second reads
    what the first wrote and writes over the first one's input) return
    every distribution value at every cell to its starting value exactly. *)
Theorem fusion_twice_all_obstacles
    {F : Type} {ops : FloatOps F} {sq : FloatSqrt F}
    (params : t_param F) (obstacles : ptr Z) (grid tmp : soa F) :
  let n := (ny params * nx params)%Z in
  0 < nx params -> 0 < ny params ->
  wf_soa n grid = true -> wf_soa n tmp = true ->
  is_block n obstacles = true -> all_blocked obstacles = true ->
  exists av1 tmp1 av2 grid2,
    fusion params obstacles grid tmp = Some (av1, tmp1) /\
    fusion params obstacles tmp1 grid = Some (av2, grid2) /\
    grid2 = grid.
Proof.
  intros n Hnx Hny Hgrid Htmp Hobs Hall.
  destruct (bounce_back_twice params obstacles ltac:(lia) ltac:(lia)
              Hobs Hall grid tmp Hnx Hgrid Htmp)
    as (tmp1 & grid2 & Hrun1 & Hrun2 & Heq).
  by exists (zero ⊘ of_int 0)%fl, tmp1, (zero ⊘ of_int 0)%fl, grid2.
Qed.

(** C10: when every cell is an obstacle the fused kernel's fluid-cell
    count stays 0 and the value it returns is the division 0.f / (float)0,
    which in binary32 is a NaN; the standalone average-velocity
    computation performs the same division by its count of 0. *)
Theorem all_obstacles_average_nan
    (params : t_param Binary32.t) (obstacles : ptr Z)
    (grid tmp : soa Binary32.t) :
  let n := (ny params * nx params)%Z in
  0 <= nx params -> 0 <= ny params ->
  wf_soa n grid = true -> wf_soa n tmp = true ->
  is_block n obstacles = true -> all_blocked obstacles = true ->
  (exists tmp',
     fusion_loop params obstacles grid tmp = Some (tmp', zero, 0%Z) /\
     fusion params obstacles grid tmp = Some ((zero ⊘ of_int 0)%fl, tmp')) /\
  av_velocity_loop params obstacles grid = Some (zero, 0%Z) /\
  av_velocity params obstacles grid = Some (zero ⊘ of_int 0)%fl /\
  (zero ⊘ of_int 0)%fl = S754_nan.
Proof.
  intros n Hnx Hny Hgrid Htmp Hobs Hall.
  destruct (fusion_all_blocked params obstacles Hnx Hny Hobs Hall grid tmp
              Hgrid Htmp) as (tmp' & Hloop & Hrun & _).
  destruct (av_velocity_all_blocked params obstacles Hnx Hny Hobs Hall grid)
    as [Hav_loop Hav].
  split; [by exists tmp'|]. split; [done|]. split; [done|]. reflexivity.
Qed.

(** ** The acceleration stage *)

Section AccelerateFacts.
Context {F : Type} {ops : FloatOps F}.
Local Open Scope float_scope.

Variables (params : t_param F) (obstacles : ptr Z) (grid : soa F).
Variables (w1 w2 : F).
Let n : Z := (ny params * nx params)%Z.
Hypothesis Hgrid : wf_soa n grid = true.
Hypothesis Hobs : is_block n obstacles = true.

Lemma accelerate_cell_spec cur jj ii :
  let idx := (ii + jj * nx params)%Z in
  wf_soa n cur = true -> 0 <= idx < n ->
  (forall k, load cur k idx = load grid k idx) ->
  exists cur',
    accelerate_cell params obstacles w1 w2 jj ii cur = Some cur' /\
    cell_set n cur cur' idx (accelerated obstacles grid w1 w2 idx).
Proof.
  intros idx Hcur Hidx Hsame.
  assert (Hcell : forall k, load cur k idx = Some (rd grid k idx)).
  { intros k. rewrite Hsame. by apply (load_rd n). }
  unfold accelerate_cell, accelerate_guard, and_then, accelerated, accelerates.
  fold idx. rewrite (array_get_flag n), !Hcell by done. simpl.
  destruct (flag_at obstacles idx =? 0)%Z; simpl;
    [destruct (rd grid S3 idx ⊖ w1 >! zero); simpl;
      [destruct (rd grid S6 idx ⊖ w2 >! zero); simpl;
        [destruct (rd grid S7 idx ⊖ w2 >! zero); simpl|]|]|].
  1: { unfold add_assign, sub_assign. exec n Hcell.
       eexists. split; [reflexivity|].
       split; [side n|]. split.
       - intros []; frame n; rewrite ?Hcell; reflexivity.
       - intros k i Hne. frame n. reflexivity. }
  all: exists cur; split; [reflexivity|]; split; [done|]; split; [done|done].
Qed.

Lemma accelerate_row_spec jj :
  0 <= nx params -> 0 <= jj < ny params ->
  exists grid',
    for_loop (nx params) (accelerate_cell params obstacles w1 w2 jj) grid
    = Some grid' /\
    accelerate_inv params obstacles grid w1 w2 jj (nx params) grid'.
Proof.
  intros Hnx Hjj.
  apply (for_loop_rule (accelerate_inv params obstacles grid w1 w2 jj)); [done| |].
  - split; [done|]. split; [intros; lia|done].
  - intros ii cur Hii (Hwf & Hdone & Hrest).
    pose proof (idx_range _ _ _ _ Hii Hjj) as Hidx.
    destruct (accelerate_cell_spec cur jj ii Hwf Hidx)
      as (cur' & Hrun & Hwf' & Hcell & Hframe).
    { intros k. apply Hrest. lia. }
    exists cur'. split; [done|]. split; [done|]. split.
    + intros ii' k Hii'. destruct (decide (ii' = ii)) as [->|Hne].
      * apply Hcell.
      * rewrite Hframe by lia. apply Hdone. lia.
    + intros k i Hi. rewrite Hframe by lia. apply Hrest. lia.
Qed.
End AccelerateFacts.

(** C4: the acceleration stage only touches the row [jj = ny - 2] of the
    current buffer.  For each column [ii] of that row it adds [w1] to f1,
    [w2] to f5 and f8, and subtracts [w1] from f3 and [w2] from f6 and f7
    (f0, f2 and f4 are kept), with [w1 = density * accel / 9] and
    [w2 = density * accel / 36], exactly when the cell is fluid and
    [f3 - w1 > 0], [f6 - w2 > 0] and [f7 - w2 > 0]; otherwise the cell is
    left as it is, as are all cells off that row.  Every time step runs
    this stage on its current buffer and hands the result to the fused
    kernel. *)
Theorem accelerate_flow_row {F : Type} {ops : FloatOps F} {sq : FloatSqrt F}
    (params : t_param F) (obstacles : ptr Z) (grid : soa F) :
  let n := (ny params * nx params)%Z in
  let w1 := (density params ⊗ accel params ⊘ of_int 9)%fl in
  let w2 := (density params ⊗ accel params ⊘ of_int 36)%fl in
  let jj := (ny params - 2)%Z in
  0 < nx params -> 2 <= ny params ->
  wf_soa n grid = true -> is_block n obstacles = true ->
  exists grid',
    accelerate_flow params obstacles grid = Some grid' /\
    wf_soa n grid' = true /\
    (forall tmp_grid, wf_soa n tmp_grid = true ->
       exists av tmp_grid',
         fusion params obstacles grid' tmp_grid = Some (av, tmp_grid') /\
         timestep params obstacles grid tmp_grid = Some (av, grid', tmp_grid')) /\
    (forall k i, ~ (jj * nx params <= i < nx params + jj * nx params) ->
       load grid' k i = load grid k i) /\
    (forall ii, 0 <= ii < nx params ->
       let idx := (ii + jj * nx params)%Z in
       exists ob f0 f1 f2 f3 f4 f5 f6 f7 f8,
         array_get obstacles idx = Some ob /\
         load grid S0 idx = Some f0 /\ load grid S1 idx = Some f1 /\
         load grid S2 idx = Some f2 /\ load grid S3 idx = Some f3 /\
         load grid S4 idx = Some f4 /\ load grid S5 idx = Some f5 /\
         load grid S6 idx = Some f6 /\ load grid S7 idx = Some f7 /\
         load grid S8 idx = Some f8 /\
         if ((ob =? 0)%Z && (f3 ⊖ w1 >! zero) && (f6 ⊖ w2 >! zero)
             && (f7 ⊖ w2 >! zero))%fl
         then
           load grid' S0 idx = Some f0 /\
           load grid' S1 idx = Some (f1 ⊕ w1)%fl /\
           load grid' S2 idx = Some f2 /\
           load grid' S3 idx = Some (f3 ⊖ w1)%fl /\
           load grid' S4 idx = Some f4 /\
           load grid' S5 idx = Some (f5 ⊕ w2)%fl /\
           load grid' S6 idx = Some (f6 ⊖ w2)%fl /\
           load grid' S7 idx = Some (f7 ⊖ w2)%fl /\
           load grid' S8 idx = Some (f8 ⊕ w2)%fl
         else forall k, load grid' k idx = load grid k idx).
Proof.
  intros n w1 w2 jj Hnx Hny Hgrid Hobs.
  destruct (accelerate_row_spec params obstacles grid w1 w2 Hgrid Hobs jj)
    as (grid' & Hrun & Hwf & Hdone & Hrest); [lia|lia|].
  exists grid'. split; [exact Hrun|]. split; [done|]. split.
  { intros tmp_grid Htmp.
    destruct (fusion_spec params obstacles grid' ltac:(lia) ltac:(lia)
                Hwf Hobs tmp_grid Htmp)
      as (tot_u & tot_cells & tmp_grid' & _ & Hfusion & _).
    eexists _, tmp_grid'. split; [exact Hfusion|].
    unfold timestep. change (accelerate_flow params obstacles grid)
      with (for_loop (nx params)
              (accelerate_cell params obstacles w1 w2 jj) grid).
    rewrite Hrun. simpl. by rewrite Hfusion. }
  split.
  { intros k i Hi. apply Hrest. lia. }
  intros ii Hii idx.
  assert (Hidx : 0 <= idx < n) by (apply idx_range; lia).
  pose proof (fun k => load_rd n grid k idx Hgrid Hidx) as Hold.
  pose proof (fun k => Hdone ii k Hii) as Hnew. fold idx in Hnew.
  exists (flag_at obstacles idx), (rd grid S0 idx), (rd grid S1 idx),
    (rd grid S2 idx), (rd grid S3 idx), (rd grid S4 idx), (rd grid S5 idx),
    (rd grid S6 idx), (rd grid S7 idx), (rd grid S8 idx).
  split; [by apply (array_get_flag n)|].
  do 9 (split; [apply Hold|]).
  unfold accelerated, accelerates in Hnew.
  destruct ((flag_at obstacles idx =? 0)%Z && (rd grid S3 idx ⊖ w1 >! zero)
            && (rd grid S6 idx ⊖ w2 >! zero)
            && (rd grid S7 idx ⊖ w2 >! zero))%fl.
  - pose proof (Hnew S0). pose proof (Hnew S1). pose proof (Hnew S2).
    pose proof (Hnew S3). pose proof (Hnew S4). pose proof (Hnew S5).
    pose proof (Hnew S6). pose proof (Hnew S7). pose proof (Hnew S8).
    tauto.
  - intros k. by rewrite Hnew, Hold.
Qed.

(** ** Positivity of the densities *)

Lemma Qgt_bool_true (a b : Q) : Qgt_bool a b = true <-> (b < a)%Q.
Proof.
  unfold Qgt_bool. rewrite negb_true_iff, <- not_true_iff_false, Qle_bool_iff.
  split; [apply Qnot_le_lt|apply Qlt_not_le].
Qed.

Lemma Qgt_bool_false (a b : Q) : Qgt_bool a b = false <-> (a <= b)%Q.
Proof. unfold Qgt_bool. by rewrite negb_false_iff, Qle_bool_iff. Qed.

#[export] Instance Q_order : FloatOrder Q.
Proof.
  split; unfold zero; simpl.
  - intros a b Ha%Qgt_bool_true Hb%Qgt_bool_false. apply Qgt_bool_false.
    apply Qmult_le_0_compat; [by apply Qlt_le_weak|done].
  - intros a m Hm Ha%Qgt_bool_false. apply Qgt_bool_false.
    apply Qle_shift_div_l.
    + change 0%Q with (inject_Z 0). rewrite <- Zlt_Qlt. done.
    + by rewrite Qmult_0_l.
  - intros a b w _ Ha%Qgt_bool_true Hw%Qgt_bool_false _. apply Qgt_bool_true.
    apply Qlt_le_trans with (y := a); [done|].
    rewrite <- (Qplus_0_r a) at 1. by apply Qplus_le_r.
Qed.

(** *** The order laws in binary32

    Signs are read off the shape of a result; that a sum of a positive
    number of the format and a non-negative number does not round to
    zero needs the number of digits the rounding shifts out. *)

#[local] Arguments dg : simpl never.

Lemma binary_round_aux_rounded s m e l :
  rounded s (binary_round_aux Binary32.prec Binary32.emax s m e l).
Proof.
  unfold binary_round_aux.
  destruct (shr_fexp Binary32.prec Binary32.emax m e l) as [mrs' e'].
  destruct (shr_fexp Binary32.prec Binary32.emax _ e' loc_Exact) as [mrs'' e''].
  destruct (shr_m mrs'') as [|p|p]; unfold rounded; [tauto| |tauto].
  destruct (e'' <=? Binary32.emax - Binary32.prec); [right; right; right; eauto|tauto].
Qed.

Lemma binary_round_rounded s m e : rounded s (binary_round Binary32.prec Binary32.emax s m e).
Proof.
  unfold binary_round. destruct (shl_align m e _) as [mz ez].
  apply binary_round_aux_rounded.
Qed.

Lemma rounded_not_negative x : rounded false x -> not_negative x = true.
Proof. intros [->|[->|[->|(m & e & ->)]]]; reflexivity. Qed.

Lemma SFltb_zero_l x : SFltb (S754_zero false) x = positive_float x.
Proof. destruct x as [[]|[]| |[] m e]; reflexivity. Qed.

Lemma SFltb_zero_r x : SFltb x (S754_zero false) = negb (not_negative x).
Proof. destruct x as [[]|[]| |[] m e]; reflexivity. Qed.

Lemma SFmul_not_negative a b :
  positive_float a = true -> not_negative b = true ->
  not_negative (SFmul Binary32.prec Binary32.emax a b) = true.
Proof.
  destruct a as [[]|[]| |[] ma ea]; try discriminate;
    destruct b as [[]|[]| |[] mb eb]; try discriminate; intros _ _;
    try reflexivity.
  apply rounded_not_negative. apply binary_round_aux_rounded.
Qed.

Lemma of_Z_rounded (m : Z) :
  0 < m -> rounded false (binary_normalize Binary32.prec Binary32.emax m 0 false).
Proof.
  destruct m as [|p|p]; try lia. intros _. apply binary_round_rounded.
Qed.

Lemma SFdiv_not_negative a y :
  not_negative a = true -> rounded false y ->
  not_negative (SFdiv Binary32.prec Binary32.emax a y) = true.
Proof.
  intros Ha [->|[->|[->|(m & e & ->)]]];
    destruct a as [[]|[]| |[] ma ea]; try discriminate; try reflexivity.
  simpl. destruct (SFdiv_core_binary Binary32.prec Binary32.emax _ _ _ _) as [[mz ez] lz].
  apply rounded_not_negative. apply binary_round_aux_rounded.
Qed.


Lemma dg_1 : dg 1 = 1. Proof. reflexivity. Qed.
Lemma dg_xO p : dg p~0 = dg p + 1. Proof. unfold dg. simpl. lia. Qed.
Lemma dg_xI p : dg p~1 = dg p + 1. Proof. unfold dg. simpl. lia. Qed.
Lemma dg_pos p : 1 <= dg p. Proof. unfold dg. lia. Qed.

Lemma dg_bounds p : 2 ^ (dg p - 1) <= Zpos p < 2 ^ dg p.
Proof.
  induction p as [p IH|p IH|].
  - rewrite dg_xI. pose proof (dg_pos p).
    replace (dg p + 1 - 1) with (Z.succ (dg p - 1)) by lia.
    replace (dg p + 1) with (Z.succ (dg p)) by lia.
    rewrite !Z.pow_succ_r by lia. lia.
  - rewrite dg_xO. pose proof (dg_pos p).
    replace (dg p + 1 - 1) with (Z.succ (dg p - 1)) by lia.
    replace (dg p + 1) with (Z.succ (dg p)) by lia.
    rewrite !Z.pow_succ_r by lia. lia.
  - rewrite dg_1. simpl. lia.
Qed.

Lemma dg_mono p q : (p <= q)%positive -> dg p <= dg q.
Proof.
  intros Hpq. pose proof (dg_bounds p) as [Hp _].
  pose proof (dg_bounds q) as [_ Hq]. pose proof (dg_pos q) as Hq1.
  assert (Hlt : 2 ^ (dg p - 1) < 2 ^ dg q) by lia.
  apply Z.pow_lt_mono_r_iff in Hlt; lia.
Qed.

Lemma dg_shift m d : dg (Pos.iter xO m d) = dg m + Zpos d.
Proof.
  induction d as [|d IH] using Pos.peano_ind.
  - simpl. apply dg_xO.
  - rewrite Pos.iter_succ, dg_xO, IH. lia.
Qed.

Lemma shr_1_positive mrs p :
  shr_m mrs = Zpos p -> 1 < dg p ->
  exists q, shr_m (shr_1 mrs) = Zpos q /\ dg q = dg p - 1.
Proof.
  destruct mrs as [m r s]. cbn [shr_m]. intros -> Hp.
  destruct p as [q|q|].
  - exists q. split; [reflexivity|]. rewrite dg_xI. lia.
  - exists q. split; [reflexivity|]. rewrite dg_xO. lia.
  - rewrite dg_1 in Hp. lia.
Qed.

Lemma iter_shr_1_positive k : forall mrs p,
  shr_m mrs = Zpos p -> Zpos k < dg p ->
  exists q, shr_m (SpecFloat.iter_pos shr_1 k mrs) = Zpos q /\ dg q = dg p - Zpos k.
Proof.
  induction k as [k IH|k IH|]; intros mrs p Hm Hk; cbn [SpecFloat.iter_pos].
  - destruct (shr_1_positive mrs p Hm) as (q0 & H0 & Hd0); [lia|].
    destruct (IH _ q0 H0) as (q1 & H1 & Hd1); [lia|].
    destruct (IH _ q1 H1) as (q2 & H2 & Hd2); [lia|].
    exists q2. split; [exact H2|]. lia.
  - destruct (IH _ p Hm) as (q1 & H1 & Hd1); [lia|].
    destruct (IH _ q1 H1) as (q2 & H2 & Hd2); [lia|].
    exists q2. split; [exact H2|]. lia.
  - destruct (shr_1_positive mrs p Hm) as (q0 & H0 & Hd0); [lia|].
    exists q0. split; [exact H0|]. lia.
Qed.

Lemma shr_record_of_loc_m m l : shr_m (shr_record_of_loc m l) = m.
Proof. destruct l as [|[]]; reflexivity. Qed.

Lemma shr_fexp_positive p e l :
  emin Binary32.prec Binary32.emax < dg p + e ->
  exists mrs e' q,
    shr_fexp Binary32.prec Binary32.emax (Zpos p) e l = (mrs, e') /\
    shr_m mrs = Zpos q /\ emin Binary32.prec Binary32.emax <= e'.
Proof.
  intros Hp. unfold shr_fexp, shr. simpl Zdigits2. fold (dg p).
  pose proof (dg_pos p).
  assert (Hn : fexp Binary32.prec Binary32.emax (dg p + e) - e < dg p /\
               emin Binary32.prec Binary32.emax <= fexp Binary32.prec Binary32.emax (dg p + e)).
  { unfold fexp, emin, Binary32.prec, Binary32.emax in *. lia. }
  destruct (fexp Binary32.prec Binary32.emax (dg p + e) - e) as [|k|k] eqn:Hk.
  - eexists _, _, p. split; [reflexivity|].
    split; [apply shr_record_of_loc_m|]. lia.
  - destruct (iter_shr_1_positive k (shr_record_of_loc (Zpos p) l) p)
      as (q & Hq & _); [apply shr_record_of_loc_m|lia|].
    eexists _, _, q. split; [reflexivity|]. split; [exact Hq|]. lia.
  - eexists _, _, p. split; [reflexivity|].
    split; [apply shr_record_of_loc_m|]. lia.
Qed.

Lemma round_nearest_even_positive q l :
  exists q', round_nearest_even (Zpos q) l = Zpos q'.
Proof.
  destruct l as [|[]]; cbn [round_nearest_even].
  - exists q. reflexivity.
  - destruct (Z.even (Zpos q)); [exists q|exists (q + 1)%positive]; reflexivity.
  - exists q. reflexivity.
  - exists (q + 1)%positive. reflexivity.
Qed.

Lemma binary_round_aux_positive p e l :
  emin Binary32.prec Binary32.emax < dg p + e ->
  positive_float (binary_round_aux Binary32.prec Binary32.emax false (Zpos p) e l) = true.
Proof.
  intros Hp. unfold binary_round_aux.
  destruct (shr_fexp_positive p e l Hp) as (mrs' & e' & q & -> & Hq & He').
  rewrite Hq.
  destruct (round_nearest_even_positive q (loc_of_shr_record mrs'))
    as [q' ->].
  destruct (shr_fexp_positive q' e' loc_Exact) as (mrs'' & e'' & q'' & -> & -> & _).
  { pose proof (dg_pos q'). lia. }
  destruct (e'' <=? Binary32.emax - Binary32.prec); reflexivity.
Qed.

Lemma binary_round_positive m e :
  emin Binary32.prec Binary32.emax < dg m + e ->
  positive_float (binary_round Binary32.prec Binary32.emax false m e) = true.
Proof.
  intros Hm. unfold binary_round, shl_align. fold (dg m).
  destruct (fexp Binary32.prec Binary32.emax (dg m + e) - e) as [|k|k] eqn:Hk.
  - apply binary_round_aux_positive. exact Hm.
  - apply binary_round_aux_positive. exact Hm.
  - apply binary_round_aux_positive. rewrite dg_shift. lia.
Qed.

Lemma shl_align_digits m e ez :
  ez <= e -> dg (fst (shl_align m e ez)) + ez = dg m + e.
Proof.
  intros Hez. unfold shl_align.
  destruct (ez - e) as [|k|k] eqn:Hk; cbn [fst]; [lia|lia|].
  rewrite dg_shift. lia.
Qed.

Lemma canonical_emin m e :
  canonical_mantissa Binary32.prec Binary32.emax m e = true -> emin Binary32.prec Binary32.emax < dg m + e.
Proof.
  unfold canonical_mantissa. fold (dg m). intros He%Z.eqb_eq.
  pose proof (dg_pos m). unfold fexp, emin, Binary32.prec, Binary32.emax in *. lia.
Qed.

Lemma SFadd_positive a w :
  valid_binary Binary32.prec Binary32.emax a = true ->
  positive_float a = true -> not_negative w = true -> w <> S754_nan ->
  positive_float (SFadd Binary32.prec Binary32.emax a w) = true.
Proof.
  intros Hvalid Ha Hw Hnan.
  destruct a as [[]|[]| |[] ma ea]; try discriminate;
    destruct w as [[]|[]| |[] mw ew]; try discriminate; try reflexivity;
    try congruence.
  simpl in Hvalid. unfold bounded in Hvalid.
  apply andb_prop in Hvalid as [Hcanon _].
  apply canonical_emin in Hcanon.
  unfold SFadd. cbn [cond_Zopp]. cbn [Z.add binary_normalize].
  apply binary_round_positive.
  pose proof (shl_align_digits ma ea (Z.min ea ew) ltac:(lia)) as Hd.
  pose proof (dg_mono (fst (shl_align ma ea (Z.min ea ew)))
                (fst (shl_align ma ea (Z.min ea ew))
                 + fst (shl_align mw ew (Z.min ea ew))) ltac:(lia)).
  lia.
Qed.

Lemma SFsub_nan x : SFsub Binary32.prec Binary32.emax x S754_nan = S754_nan.
Proof. destruct x as [[]|[]| |[] m e]; reflexivity. Qed.

#[export] Instance binary32_order : FloatOrder Binary32.t.
Proof.
  split.
  - intros a b Ha Hb.
    change (SFltb zero a = true) in Ha. change (SFltb b zero = false) in Hb.
    change (SFltb (SFmul Binary32.prec Binary32.emax a b) zero = false).
    change (@zero Binary32.t _) with (S754_zero false) in *.
    rewrite SFltb_zero_l in Ha. rewrite SFltb_zero_r in Hb |- *.
    apply negb_false_iff in Hb. apply negb_false_iff.
    by apply SFmul_not_negative.
  - intros a m Hm Ha.
    change (SFltb a zero = false) in Ha.
    change (SFltb (SFdiv Binary32.prec Binary32.emax a
                     (binary_normalize Binary32.prec Binary32.emax m 0 false))
              zero = false).
    change (@zero Binary32.t _) with (S754_zero false) in *.
    rewrite SFltb_zero_r in Ha |- *.
    apply negb_false_iff in Ha. apply negb_false_iff.
    apply SFdiv_not_negative; [done|]. by apply of_Z_rounded.
  - intros a b w Hvalid Ha Hw Hb.
    change (SFltb zero a = true) in Ha. change (SFltb w zero = false) in Hw.
    change (SFltb zero (SFsub Binary32.prec Binary32.emax b w) = true) in Hb.
    change (SFltb zero (SFadd Binary32.prec Binary32.emax a w) = true).
    change (@zero Binary32.t _) with (S754_zero false) in *.
    rewrite SFltb_zero_l in Ha, Hb |- *. rewrite SFltb_zero_r in Hw.
    apply negb_false_iff in Hw.
    apply SFadd_positive; [done..|].
    intros ->. by rewrite SFsub_nan in Hb.
Qed.

Section Positivity.
Context {F : Type} {ops : FloatOps F}.
Local Open Scope float_scope.

Lemma positive_grid_load (g : soa F) :
  positive_grid g = true <->
  (forall k i v, load g k i = Some v -> v >! zero = true).
Proof.
  unfold positive_grid. rewrite forallb_forall. split.
  - intros Hpos k i v Hload.
    assert (Hin : In k speeds) by (destruct k; simpl; tauto).
    specialize (Hpos k Hin). unfold load, array_get in Hload.
    destruct (field k g) as [a|]; [|done]. simpl in Hload.
    case_decide; [|done]. rewrite forallb_forall in Hpos. apply Hpos.
    apply list_elem_of_In. by eapply list_elem_of_lookup_2.
  - intros Hpos k _. destruct (field k g) as [a|] eqn:Hk; [|done].
    apply forallb_forall. intros v Hv%list_elem_of_In.
    apply list_elem_of_lookup_1 in Hv as [j Hj].
    apply (Hpos k (Z.of_nat j)). unfold load, array_get. rewrite Hk. simpl.
    rewrite decide_True by lia. by rewrite Nat2Z.id.
Qed.

Context {valid : FloatValid F}.

Lemma representable_grid_load (g : soa F) k i v :
  representable_grid g = true -> load g k i = Some v ->
  representable v = true.
Proof.
  unfold representable_grid. rewrite forallb_forall. intros Hvalid Hload.
  assert (Hin : In k speeds) by (destruct k; simpl; tauto).
  specialize (Hvalid k Hin). unfold load, array_get in Hload.
  destruct (field k g) as [a|]; [|done]. simpl in Hload.
  case_decide; [|done]. rewrite forallb_forall in Hvalid. apply Hvalid.
  apply list_elem_of_In. by eapply list_elem_of_lookup_2.
Qed.

Context {laws : FloatOrder F}.

Lemma pushed_positive (params : t_param F) (obstacles : ptr Z) (grid : soa F)
    (w1 w2 : F) idx k :
  zero >! w1 = false -> zero >! w2 = false ->
  (forall k, representable (rd grid k idx) = true) ->
  (forall k, rd grid k idx >! zero = true) ->
  accelerated obstacles grid w1 w2 idx k >! zero = true.
Proof.
  intros Hw1 Hw2 Hvalid Hpos. unfold accelerated, accelerates.
  destruct (flag_at obstacles idx =? 0)%Z; simpl; [|done].
  destruct (rd grid S3 idx ⊖ w1 >! zero) eqn:H3; simpl; [|done].
  destruct (rd grid S6 idx ⊖ w2 >! zero) eqn:H6; simpl; [|done].
  destruct (rd grid S7 idx ⊖ w2 >! zero) eqn:H7; simpl; [|done].
  destruct k; simpl; try done.
  - by apply (fadd_pos _ (rd grid S3 idx)).
  - by apply (fadd_pos _ (rd grid S6 idx)).
  - by apply (fadd_pos _ (rd grid S6 idx)).
Qed.
End Positivity.

(** C5, as stated, fails: with a negative [accel] the guard (which tests
    the west-side components only) lets the stage through and the
    east-side component f1 = 1/2 is driven to -1/2, both in exact and in
    binary32 arithmetic. *)
Lemma accelerate_flow_negative_accel :
  (positive_grid NegativeAccel.grid_Q = true /\
   exists grid',
     accelerate_flow NegativeAccel.params_Q NegativeAccel.obstacles
       NegativeAccel.grid_Q = Some grid' /\
     load grid' S1 0 = Some (-9 # 18)%Q /\
     positive_grid grid' = false) /\
  (positive_grid NegativeAccel.grid_32 = true /\
   exists grid',
     accelerate_flow NegativeAccel.params_32 NegativeAccel.obstacles
       NegativeAccel.grid_32 = Some grid' /\
     load grid' S1 0 = Some (S754_finite true 8388608 (-24)) /\
     positive_grid grid' = false).
Proof.
  split; (split; [reflexivity|]); eexists;
    (split; [vm_compute; reflexivity|]); split; reflexivity.
Qed.

(** C5, amended: when [density > 0] and [accel] is not negative, a state
    whose density components are all strictly positive still has all of
    them strictly positive after the acceleration stage.  This holds in
    binary32, the arithmetic of the program, for grids whose values are
    numbers of the format (as the values of [float] objects are), and in
    exact arithmetic. *)
Theorem accelerate_flow_positive
    {F : Type} {ops : FloatOps F} {valid : FloatValid F}
    {laws : FloatOrder F}
    (params : t_param F) (obstacles : ptr Z) (grid : soa F) :
  let n := (ny params * nx params)%Z in
  0 < nx params -> 2 <= ny params ->
  wf_soa n grid = true -> is_block n obstacles = true ->
  representable_grid grid = true ->
  (density params >! zero)%fl = true ->
  (zero >! accel params)%fl = false ->
  positive_grid grid = true ->
  exists grid',
    accelerate_flow params obstacles grid = Some grid' /\
    positive_grid grid' = true.
Proof.
  intros n Hnx Hny Hgrid Hobs Hvalid Hdensity Haccel Hpos.
  set (w1 := (density params ⊗ accel params ⊘ of_int 9)%fl).
  set (w2 := (density params ⊗ accel params ⊘ of_int 36)%fl).
  set (jj := ny params - 2).
  destruct (accelerate_row_spec params obstacles grid w1 w2 Hgrid Hobs jj)
    as (grid' & Hrun & Hwf & Hdone & Hrest); [lia|lia|].
  exists grid'. split; [exact Hrun|].
  assert (Hw1 : (zero >! w1)%fl = false).
  { apply fdiv_nonneg; [lia|]. by apply fmul_nonneg. }
  assert (Hw2 : (zero >! w2)%fl = false).
  { apply fdiv_nonneg; [lia|]. by apply fmul_nonneg. }
  rewrite positive_grid_load in Hpos. apply positive_grid_load.
  intros k i v Hload.
  destruct (decide (jj * nx params <= i < nx params + jj * nx params))
    as [Hrow|Hoff].
  - replace i with ((i - jj * nx params) + jj * nx params) in Hload by lia.
    rewrite Hdone in Hload by lia. injection Hload as <-.
    assert (Hcell : forall k', load grid k' (i - jj * nx params + jj * nx params)
                               = Some (rd grid k' (i - jj * nx params + jj * nx params))).
    { intros k'. apply (load_rd n); [done|]. nia. }
    apply (pushed_positive params obstacles grid w1 w2); [done|done| |].
    + intros k'. by eapply representable_grid_load.
    + intros k'. by eapply Hpos.
  - rewrite Hrest in Hload by lia. by eapply Hpos.
Qed.

(** ** The final-state file *)

#[local] Arguments write_values_cell : simpl never.

Section WriteValuesFacts.
Context {F : Type} {ops : FloatOps F} {sq : FloatSqrt F}.
Local Open Scope float_scope.

Variables (params : t_param F) (obstacles : ptr Z) (grid : soa F).
Let n : Z := (ny params * nx params)%Z.
Hypothesis Hgrid : wf_soa n grid = true.
Hypothesis Hobs : is_block n obstacles = true.

Lemma write_values_cell_spec jj ii out :
  0 <= ii < nx params -> 0 <= jj < ny params ->
  0 <= ii * nx params + jj < n ->
  write_values_cell params obstacles grid jj ii out
  = Some (out ++ [line_of params obstacles grid jj ii]).
Proof.
  intros Hi Hj Htransposed.
  pose proof (idx_range _ _ _ _ Hi Hj) as Hidx. fold n in Hidx.
  unfold write_values_cell, line_of, blocked.
  rewrite (array_get_flag n obstacles (ii + jj * nx params)) by done.
  simpl. destruct (negb (flag_at obstacles (ii + jj * nx params) =? 0)).
  - simpl. rewrite (array_get_flag n) by done. reflexivity.
  - rewrite !(load_rd n) by done. simpl.
    rewrite (array_get_flag n) by done. reflexivity.
Qed.

Lemma final_state_spec :
  0 <= nx params -> 0 <= ny params ->
  (forall jj ii, 0 <= jj < ny params -> 0 <= ii < nx params ->
     0 <= ii * nx params + jj < n) ->
  exists final_state,
    for_loop (ny params) (fun jj =>
      for_loop (nx params) (write_values_cell params obstacles grid jj)) []
    = Some final_state /\
    length final_state = Z.to_nat n /\
    (forall jj ii, 0 <= jj < ny params -> 0 <= ii < nx params ->
       final_state !! Z.to_nat (ii + jj * nx params) = Some (line_of params obstacles grid jj ii)).
Proof.
  intros Hnx Hny Htransposed.
  destruct (grid_loop_rule
    (fun p out =>
       length out = Z.to_nat p /\
       forall jj ii, 0 <= jj < ny params -> 0 <= ii < nx params ->
         ii + jj * nx params < p ->
         out !! Z.to_nat (ii + jj * nx params) = Some (line_of params obstacles grid jj ii))
    (nx params) (ny params)
    (write_values_cell params obstacles grid) [])
    as (out & Hrun & Hlen & Hlines); [done|done| | |].
  - split; [done|]. intros jj ii Hj Hi Hlt.
    pose proof (idx_range _ _ _ _ Hi Hj). lia.
  - intros jj ii out Hj Hi [Hlen Hlines].
    pose proof (idx_range _ _ _ _ Hi Hj) as Hidx.
    exists (out ++ [line_of params obstacles grid jj ii]).
    split; [by apply write_values_cell_spec; auto|]. split.
    + rewrite length_app. simpl. lia.
    + intros jj' ii' Hj' Hi' Hlt.
      pose proof (idx_range _ _ _ _ Hi' Hj') as Hidx'.
      destruct (decide (ii' + jj' * nx params = ii + jj * nx params))
        as [Heq|Hne].
      * destruct (idx_inj _ _ _ _ _ Hi' Hi Heq) as [-> ->].
        apply list_lookup_middle. lia.
      * rewrite lookup_app_l by lia. apply Hlines; [done..|lia].
  - exists out. split; [done|]. split; [done|].
    intros jj ii Hj Hi. apply Hlines; [done..|].
    pose proof (idx_range _ _ _ _ Hi Hj). lia.
Qed.

Lemma av_vels_file_spec (av_vels : ptr F) :
  0 <= maxIters params -> is_block (maxIters params) av_vels = true ->
  exists av,
    for_loop (maxIters params) (fun ii out =>
      v ← array_get av_vels ii; Some (out ++ [(ii, v)])) [] = Some av.
Proof.
  intros Hiters Hav.
  destruct (for_loop_rule (fun _ (_ : list (Z * F)) => True)
              (maxIters params)
              (fun ii out => v ← array_get av_vels ii; Some (out ++ [(ii, v)]))
              []) as (av & Hrun & _); [done|done| |by exists av].
  intros ii out Hii _.
  destruct (array_get_Some _ av_vels ii Hav Hii) as [v ->].
  by eexists.
Qed.
(** [write_values] returns, and the final-state file is [line_of] cell
    by cell. *)
Lemma write_values_spec (av_vels : ptr F) :
  0 < nx params -> nx params <= ny params -> 0 <= maxIters params ->
  is_block (maxIters params) av_vels = true ->
  exists final_state av,
    write_values params obstacles av_vels grid = Some (final_state, av) /\
    length final_state = Z.to_nat n /\
    (forall jj ii, 0 <= jj < ny params -> 0 <= ii < nx params ->
       final_state !! Z.to_nat (ii + jj * nx params) = Some (line_of params obstacles grid jj ii)).
Proof.
  intros Hnx Hle Hiters Hav.
  destruct final_state_spec as (final_state & Hrun & Hlen & Hlines);
    [lia|lia| |].
  { intros jj ii Hj Hi. unfold n. nia. }
  destruct (av_vels_file_spec av_vels Hiters Hav) as (av & Hrun_av).
  exists final_state, av. unfold write_values.
  rewrite Hrun. simpl. rewrite Hrun_av. done.
Qed.
End WriteValuesFacts.

(** C7: in the final-state file the line of an obstacle cell has
    [u_x = u_y = |u| = 0] and [pressure = density * c_sq] with
    [c_sq = 1/3], and the flag field of every line is the element
    [obstacles[ii * nx + jj]], the transposed index, not
    [obstacles[ii + jj * nx]].  (The transposed read stays inside the
    array when [nx <= ny].) *)
Theorem write_values_lines {F : Type} {ops : FloatOps F} {sq : FloatSqrt F}
    (params : t_param F) (obstacles : ptr Z) (av_vels : ptr F) (grid : soa F) :
  let n := (ny params * nx params)%Z in
  0 < nx params -> nx params <= ny params -> 0 <= maxIters params ->
  wf_soa n grid = true -> is_block n obstacles = true ->
  is_block (maxIters params) av_vels = true ->
  exists final_state av,
    write_values params obstacles av_vels grid = Some (final_state, av) /\
    length final_state = Z.to_nat n /\
    forall jj ii, 0 <= jj < ny params -> 0 <= ii < nx params ->
      exists line,
        final_state !! Z.to_nat (ii + jj * nx params) = Some line /\
        l_ii line = ii /\ l_jj line = jj /\
        array_get obstacles (ii * nx params + jj) = Some (l_flag line) /\
        (forall ob, array_get obstacles (ii + jj * nx params) = Some ob ->
           ob <> 0 ->
           l_u_x line = zero /\ l_u_y line = zero /\ l_u line = zero /\
           l_pressure line = (density params ⊗ (of_int 1 ⊘ of_int 3))%fl).
Proof.
  intros n Hnx Hle Hiters Hgrid Hobs Hav.
  destruct (write_values_spec params obstacles grid Hgrid Hobs av_vels
              Hnx Hle Hiters Hav)
    as (final_state & av & Hrun & Hlen & Hlines).
  exists final_state, av.
  split; [done|]. split; [done|].
  intros jj ii Hj Hi. exists (line_of params obstacles grid jj ii).
  split; [by apply Hlines|]. split; [done|]. split; [done|].
  split; [apply (array_get_flag n); [done|unfold n; nia]|].
  intros ob Hob Hne. unfold line_of, blocked, flag_at. rewrite Hob. simpl.
  destruct (Z.eqb_spec ob 0); done.
Qed.

(** ** Runs on well-formed input complete *)

#[local] Arguments av_velocity_cell : simpl never.
#[local] Arguments init_cell : simpl never.

Lemma array_set_block {A : Type} n (p : ptr A) i (v : A) :
  is_block n p = true -> 0 <= i < n ->
  exists a, array_set p i v = Some a /\ is_block n (Some a) = true.
Proof.
  intros (a & -> & Hlen)%is_block_Some Hi. unfold array_set. simpl.
  rewrite decide_True by lia. eexists. split; [reflexivity|].
  simpl. rewrite length_insert. by apply Z.eqb_eq.
Qed.

Lemma malloc_block {A : Type} n (junk : A) :
  0 <= n -> is_block n (malloc true n junk) = true.
Proof. intros Hn. simpl. rewrite length_replicate. apply Z.eqb_eq. lia. Qed.

Section Completion.
Context {F : Type} {ops : FloatOps F} {sq : FloatSqrt F}.
Local Open Scope float_scope.

Variable params : t_param F.
Let n : Z := (ny params * nx params)%Z.
Hypothesis Hnx : 0 < nx params.
Hypothesis Hny : 0 < ny params.

Lemma av_velocity_total (obstacles : ptr Z) (grid : soa F) :
  wf_soa n grid = true -> is_block n obstacles = true ->
  exists av, av_velocity params obstacles grid = Some av.
Proof.
  intros Hgrid Hobs. unfold av_velocity, av_velocity_loop.
  destruct (grid_loop_rule (fun _ (_ : F * Z) => True)
              (nx params) (ny params)
              (av_velocity_cell params obstacles grid) (zero, 0%Z))
    as ([tot_u tot_cells] & -> & _); [lia|lia|done| |by eexists].
  intros jj ii [tot_u tot_cells] Hj Hi _.
  pose proof (idx_range _ _ _ _ Hi Hj) as Hidx.
  unfold av_velocity_cell. rewrite (array_get_flag n) by done. simpl.
  destruct (flag_at obstacles (ii + jj * nx params) =? 0)%Z; [|by eexists].
  rewrite !(load_rd n) by done. simpl. by eexists.
Qed.

Lemma timestep_total (obstacles : ptr Z) (grid tmp : soa F) :
  2 <= ny params ->
  wf_soa n grid = true -> wf_soa n tmp = true ->
  is_block n obstacles = true ->
  exists av grid' tmp',
    timestep params obstacles grid tmp = Some (av, grid', tmp') /\
    wf_soa n grid' = true /\ wf_soa n tmp' = true.
Proof.
  intros Hrows Hgrid Htmp Hobs. unfold timestep, accelerate_flow.
  destruct (accelerate_row_spec params obstacles grid
              (density params ⊗ accel params ⊘ of_int 9)
              (density params ⊗ accel params ⊘ of_int 36)
              Hgrid Hobs (ny params - 2))
    as (grid' & -> & Hwf & _); [lia|lia|]. simpl.
  destruct (fusion_spec params obstacles grid' ltac:(lia) ltac:(lia)
              Hwf Hobs tmp Htmp)
    as (tot_u & tot_cells & tmp' & _ & -> & Hwf' & _). simpl.
  by eexists _, _, _.
Qed.

Lemma main_loop_total (obstacles : ptr Z) (grid tmp : soa F) (av_vels : ptr F) :
  2 <= ny params -> 0 <= maxIters params ->
  wf_soa n grid = true -> wf_soa n tmp = true ->
  is_block n obstacles = true ->
  is_block (maxIters params) av_vels = true ->
  exists grid' tmp' av_vels',
    main_loop params obstacles (grid, tmp, av_vels)
    = Some (grid', tmp', av_vels') /\
    wf_soa n grid' = true /\ wf_soa n tmp' = true /\
    is_block (maxIters params) av_vels' = true.
Proof.
  intros Hrows Hiters Hgrid Htmp Hobs Hav. unfold main_loop.
  destruct (for_loop_rule
    (fun _ (st : soa F * soa F * ptr F) =>
       wf_soa n st.1.1 = true /\ wf_soa n st.1.2 = true /\
       is_block (maxIters params) st.2 = true)
    (maxIters params) (main_iteration params obstacles) (grid, tmp, av_vels))
    as ([[grid' tmp'] av_vels'] & Hrun & Hinv); [done|done| |by eexists _, _, _].
  intros tt [[g t] a] Htt (Hg & Ht & Ha). simpl in Hg, Ht, Ha.
  destruct (timestep_total obstacles g t Hrows Hg Ht Hobs)
    as (av & g' & t' & Hstep & Hg' & Ht').
  destruct (array_set_block _ a tt av Ha Htt) as (a' & Hset & Ha').
  unfold main_iteration. rewrite Hstep. simpl. rewrite Hset. simpl.
  by eexists.
Qed.

Lemma init_grid_total (w0 w1 w2 : F) (grid : soa F) :
  wf_soa n grid = true ->
  exists grid',
    for_loop (ny params) (fun jj =>
      for_loop (nx params) (init_cell params w0 w1 w2 jj)) grid = Some grid' /\
    wf_soa n grid' = true.
Proof.
  intros Hgrid.
  apply (grid_loop_rule (fun _ g => wf_soa n g = true)); [lia|lia|done|].
  intros jj ii g Hj Hi Hg.
  pose proof (idx_range _ _ _ _ Hi Hj) as Hidx. fold n in Hidx.
  unfold init_cell. set (idx := ii + jj * nx params) in *.
  assert (Hbase : load g S0 idx = load g S0 idx) by done.
  exec n Hbase. eexists. split; [reflexivity|]. side n.
Qed.

Lemma zero_obstacles_total (obstacles : ptr Z) :
  is_block n obstacles = true ->
  exists obstacles',
    for_loop (ny params) (fun jj =>
      for_loop (nx params) (fun ii obstacles =>
        a ← array_set obstacles (ii + jj * nx params)%Z 0%Z;
        Some (Some a))) obstacles = Some obstacles' /\
    is_block n obstacles' = true.
Proof.
  intros Hobs.
  apply (grid_loop_rule (fun _ (o : ptr Z) => is_block n o = true));
    [lia|lia|done|].
  intros jj ii o Hj Hi Ho.
  pose proof (idx_range _ _ _ _ Hi Hj) as Hidx.
  destruct (array_set_block _ o _ 0 Ho Hidx) as (a & -> & Ha).
  by eexists.
Qed.

Lemma read_obstacles_total lines : forall obstacles : ptr Z,
  valid_obstacle_file params lines = true ->
  is_block n obstacles = true ->
  exists obstacles',
    read_obstacles params lines obstacles = Done obstacles' /\
    is_block n obstacles' = true.
Proof.
  induction lines as [|[[[xx yy] b]|] lines IH]; intros obstacles Hvalid Hobs;
    simpl in Hvalid.
  - by exists obstacles.
  - apply andb_prop in Hvalid as [Hline Hvalid].
    repeat (apply andb_prop in Hline as [Hline ?]).
    simpl. rewrite !decide_False by lia.
    destruct (array_set_block n obstacles (xx + yy * nx params) b Hobs)
      as (a & -> & Ha); [apply idx_range; lia|].
    simpl. by apply IH.
  - done.
Qed.

Lemma initialise_total alloc_ok junk lines :
  0 <= maxIters params ->
  (forall k, alloc_ok k = true) ->
  valid_obstacle_file params lines = true ->
  exists st,
    initialise alloc_ok junk params lines = Done st /\
    wf_soa n (st_grid st) = true /\ wf_soa n (st_tmp_grid st) = true /\
    is_block n (st_obstacles st) = true /\
    is_block (maxIters params) (st_av_vels st) = true.
Proof.
  intros Hiters Halloc Hvalid. unfold initialise. rewrite !Halloc.
  assert (Hn : 0 <= n) by (unfold n; nia).
  pose proof (malloc_block n junk Hn) as Hblock.
  set (fresh := {| s0 := malloc true n junk; s1 := malloc true n junk;
                   s2 := malloc true n junk; s3 := malloc true n junk;
                   s4 := malloc true n junk; s5 := malloc true n junk;
                   s6 := malloc true n junk; s7 := malloc true n junk;
                   s8 := malloc true n junk |}).
  assert (Hfresh : wf_soa n fresh = true).
  { apply wf_soa_intro. by intros []. }
  fold n. fold fresh.
  destruct (init_grid_total (density params ⊗ of_int 4 ⊘ of_int 9)
              (density params ⊘ of_int 9) (density params ⊘ of_int 36)
              fresh Hfresh) as (grid & -> & Hgrid).
  simpl.
  destruct (zero_obstacles_total (Some (replicate (Z.to_nat n) 0%Z)))
    as (obstacles & -> & Hobs); [by apply (malloc_block n 0%Z)|].
  simpl.
  destruct (read_obstacles_total lines obstacles Hvalid Hobs)
    as (obstacles' & -> & Hobs'). simpl.
  eexists. split; [reflexivity|]. simpl.
  repeat split; [done..|]. by apply malloc_block.
Qed.
End Completion.

(** ** The average velocity *)

Lemma fluid_cells_take_S (mask : list Z) (p : nat) (v : Z) :
  mask !! p = Some v ->
  fluid_cells (take (S p) mask)
  = fluid_cells (take p mask) + (if (v =? 0)%Z then 1 else 0).
Proof.
  intros Hv. unfold fluid_cells.
  rewrite (take_S_r _ _ _ Hv), filter_app, length_app.
  rewrite (filter_cons _ v), filter_nil.
  destruct (Z.eqb_spec v 0) as [->|Hne].
  - rewrite decide_True by done. simpl. lia.
  - rewrite decide_False by done. simpl. lia.
Qed.

(** [av_velocity] computes the average fluid-cell velocity. *)
Lemma av_velocity_spec {F : Type} {ops : FloatOps F} {sq : FloatSqrt F}
    (params : t_param F) (mask : list Z) (grid : soa F) :
  let n := (ny params * nx params)%Z in
  0 < nx params -> 0 < ny params ->
  wf_soa n grid = true -> is_block n (Some mask) = true ->
  av_velocity params (Some mask) grid
  = Some (average_velocity params mask grid).
Proof.
  intros n Hnx Hny Hgrid Hobs.
  assert (Hlen : Z.of_nat (length mask) = n) by (by apply Z.eqb_eq).
  destruct (grid_loop_rule
    (fun p (st : F * Z) =>
       st = (velocity_sum (Some mask) grid p,
             fluid_cells (take (Z.to_nat p) mask)))
    (nx params) (ny params)
    (av_velocity_cell params (Some mask) grid) (zero, 0%Z))
    as ([tot_u tot_cells] & Hrun & Hend); [lia|lia|done| |].
  - intros jj ii st Hj Hi ->.
    pose proof (idx_range _ _ _ _ Hi Hj) as Hidx.
    set (idx := ii + jj * nx params) in *.
    assert (Hflag : mask !! Z.to_nat idx = Some (flag_at (Some mask) idx)).
    { pose proof (array_get_flag n (Some mask) idx Hobs Hidx) as Hget.
      unfold array_get in Hget. simpl in Hget.
      by rewrite decide_True in Hget by lia. }
    assert (Hsum : velocity_sum (Some mask) grid (idx + 1)
                   = if blocked (Some mask) idx
                     then velocity_sum (Some mask) grid idx
                     else (velocity_sum (Some mask) grid idx
                           ⊕ speed_at grid idx)%fl).
    { unfold velocity_sum. rewrite seqZ_app by lia.
      by rewrite foldl_app, Z.add_0_l. }
    assert (Hcount : fluid_cells (take (Z.to_nat (idx + 1)) mask)
                     = fluid_cells (take (Z.to_nat idx) mask)
                       + (if (flag_at (Some mask) idx =? 0)%Z then 1 else 0)).
    { replace (Z.to_nat (idx + 1)) with (S (Z.to_nat idx)) by lia.
      by apply fluid_cells_take_S. }
    rewrite Hsum, Hcount. unfold blocked.
    unfold av_velocity_cell. fold idx.
    rewrite (array_get_flag n) by done. simpl.
    destruct (flag_at (Some mask) idx =? 0)%Z; simpl.
    + rewrite !(load_rd n) by done. simpl. eexists. split; [reflexivity|].
      by rewrite Z.add_comm.
    + eexists. split; [reflexivity|]. by rewrite Z.add_0_r.
  - injection Hend as -> ->.
    unfold av_velocity, av_velocity_loop. rewrite Hrun. simpl.
    unfold average_velocity. fold n.
    by rewrite firstn_all2 by lia.
Qed.

(** C6: after the driver loop the program prints
    [Re = <u> * reynolds_dim / nu] with [nu = (1/6) * (2/omega - 1)], where
    [<u>] is the average fluid-cell velocity of the distribution buffer
    that is current once the loop has ended: the sum of the speeds
    [sqrt (u_x^2 + u_y^2)] of its fluid cells divided by their number.
    The recorded series [av_vels] does not enter the computation.  The
    number is printed before [write_values] is called; on a grid with
    [nx <= ny] the whole of [main] completes and reports it. *)
Theorem main_reynolds {F : Type} {ops : FloatOps F} {sq : FloatSqrt F}
    (alloc_ok : nat -> bool) (junk : F) (params : t_param F)
    (obstaclefile : list (option (Z * Z * Z))) :
  0 < nx params -> 2 <= ny params -> 0 <= maxIters params ->
  (forall k, alloc_ok k = true) ->
  valid_obstacle_file params obstaclefile = true ->
  exists st mask grid tmp_grid av_vels,
    initialise alloc_ok junk params obstaclefile = Done st /\
    st_obstacles st = Some mask /\
    main_loop params (st_obstacles st)
      (st_grid st, st_tmp_grid st, st_av_vels st)
    = Some (grid, tmp_grid, av_vels) /\
    let av := average_velocity params mask grid in
    let re :=
      (av ⊗ of_int (reynolds_dim params)
       ⊘ (of_int 1 ⊘ of_int 6 ⊗ (of_int 2 ⊘ omega params ⊖ of_int 1)))%fl in
    av_velocity params (st_obstacles st) grid = Some av /\
    main_until_reynolds alloc_ok junk params obstaclefile = Done re /\
    (nx params <= ny params ->
     exists r,
       main alloc_ok junk params obstaclefile = Done r /\ r_reynolds r = re).
Proof.
  intros Hnx Hny Hiters Halloc Hvalid.
  destruct (initialise_total params Hnx ltac:(lia) alloc_ok junk obstaclefile
              Hiters Halloc Hvalid)
    as (st & Hinit & Hgrid & Htmp & Hobs & Hav).
  destruct (main_loop_total params Hnx ltac:(lia) (st_obstacles st)
              (st_grid st) (st_tmp_grid st) (st_av_vels st)
              Hny Hiters Hgrid Htmp Hobs Hav)
    as (grid & tmp_grid & av_vels & Hloop & Hgrid' & Htmp' & Hav').
  destruct (is_block_Some _ _ Hobs) as (mask & Hmask & Hlen).
  assert (Hvel : av_velocity params (st_obstacles st) grid
                 = Some (average_velocity params mask grid)).
  { rewrite Hmask. apply av_velocity_spec; [lia|lia|done|].
    by rewrite <- Hmask. }
  exists st, mask, grid, tmp_grid, av_vels.
  split; [done|]. split; [done|]. split; [done|].
  split; [done|]. split.
  { unfold main_until_reynolds. rewrite Hinit. simpl. rewrite Hloop. simpl.
    unfold calc_reynolds. rewrite Hvel. reflexivity. }
  intros Hle.
  destruct (write_values_spec params (st_obstacles st) grid Hgrid' Hobs
              av_vels Hnx Hle Hiters Hav')
    as (final_state & avs & Hwrite & _).
  eexists. split.
  - unfold main. rewrite Hinit. simpl. rewrite Hloop. simpl.
    unfold calc_reynolds. rewrite Hvel. simpl. rewrite Hwrite. reflexivity.
  - reflexivity.
Qed.

(** ** What the fused kernel does to a fluid cell *)

(** On a fluid cell the scratch values are [t_k + omega * (1 - t_k)]:
    the relaxation is towards the constant [d_equ], whatever the density
    and velocity of the cell. *)
Lemma fusion_fluid_cell {F : Type} {ops : FloatOps F} {sq : FloatSqrt F}
    (params : t_param F) (obstacles : ptr Z) (grid tmp : soa F) (jj ii : Z) :
  let n := (ny params * nx params)%Z in
  let idx := (ii + jj * nx params)%Z in
  wf_soa n grid = true -> wf_soa n tmp = true ->
  is_block n obstacles = true ->
  0 <= ii < nx params -> 0 <= jj < ny params ->
  array_get obstacles idx = Some 0 ->
  exists av tmp',
    fusion params obstacles grid tmp = Some (av, tmp') /\
    forall k,
      load tmp' k idx
      = Some (let t := streamed params grid jj ii k in
              t ⊕ omega params ⊗ (of_int 1 ⊖ t))%fl.
Proof.
  intros n idx Hgrid Htmp Hobs Hi Hj Hfluid.
  destruct (fusion_spec params obstacles grid ltac:(lia) ltac:(lia)
              Hgrid Hobs tmp Htmp)
    as (tot_u & tot_cells & tmp' & _ & Hrun & Hwf & Hcells).
  exists (tot_u ⊘ of_int tot_cells)%fl, tmp'. split; [exact Hrun|].
  intros k. subst idx. rewrite Hcells by done.
  unfold fused, blocked, flag_at. by rewrite Hfluid.
Qed.

(** C1 fails on the code: on the one-cell grid [OneCell] the post-stream
    values are t_k = 1/2, so rho = 9/2 and u = 0, and the BGK relaxation
    with omega = 1 gives g = f^eq = (2, 1/2 x 4, 1/8 x 4), which is also
    what [collision] computes; the fused kernel writes g_k = 1 for all
    nine directions. *)
Theorem fusion_relaxes_towards_one :
  exists av tmp',
    fusion OneCell.params OneCell.obstacles OneCell.grid OneCell.tmp_grid
    = Some (av, tmp') /\
    (forall k, streamed OneCell.params OneCell.grid 0 0 k = OneCell.half) /\
    (forall k, load tmp' k 0 = Some (of_int 1)) /\
    map (collision_relax OneCell.params
           (streamed OneCell.params OneCell.grid 0 0)) speeds
    = [of_int 2;
       (of_int 1 ⊘ of_int 2)%fl; (of_int 1 ⊘ of_int 2)%fl;
       (of_int 1 ⊘ of_int 2)%fl; (of_int 1 ⊘ of_int 2)%fl;
       (of_int 1 ⊘ of_int 8)%fl; (of_int 1 ⊘ of_int 8)%fl;
       (of_int 1 ⊘ of_int 8)%fl; (of_int 1 ⊘ of_int 8)%fl].
Proof.
  eexists _, _. split; [vm_compute; reflexivity|].
  split; [by intros []|]. split; [by intros []|]. reflexivity.
Qed.

(** C2 fails on the code: started from the uniform equilibrium that
    [initialise] builds, without obstacles and without acceleration, one
    step returns the average velocity 0 but moves the rest component of
    cell 0 from 4/9 * 0.1 = 0.0444... to 1.6688..., a change of more than
    1. *)
Theorem uniform_equilibrium_not_fixed :
  exists st grid tmp_grid av_vels before after,
    initialise (fun _ => true) UniformRun.junk UniformRun.params [] = Done st /\
    positive_grid (st_grid st) = true /\
    main_loop UniformRun.params (st_obstacles st)
      (st_grid st, st_tmp_grid st, st_av_vels st)
    = Some (grid, tmp_grid, av_vels) /\
    av_vels = Some [S754_zero false] /\
    load (st_grid st) S0 0 = Some before /\
    before = (of_int 1 ⊘ of_int 10 ⊗ of_int 4 ⊘ of_int 9)%fl /\
    load grid S0 0 = Some after /\
    after = S754_finite false 13999655 (-23) /\
    (after ⊖ before >! of_int 1)%fl = true.
Proof.
  eexists _, _, _, _, _, _.
  split; [vm_compute; reflexivity|]. split; [reflexivity|].
  split; [vm_compute; reflexivity|].
  repeat (split; [reflexivity|]). reflexivity.
Qed.

(** C8 fails on the code.  Of the twenty allocations only the obstacle
    mask (request 18) is checked: its failure ends in [die].  When one of
    the nine arrays of the first buffer (requests 0-8) comes back [NULL],
    [initialise] stores through it; when one of the nine arrays of the
    second buffer (requests 9-17) or the average-velocity sequence
    (request 19) comes back [NULL], [initialise] returns normally and the
    first time step stores through it. *)
Theorem initialise_unchecked_allocations :
  forallb (fun k =>
    is_undefined
      (initialise (fails_at k) UniformRun.junk UniformRun.params []))
    (seq 0 9) = true /\
  forallb (fun k =>
    match initialise (fails_at k) UniformRun.junk UniformRun.params [] with
    | Done st => is_undefined (main (fails_at k) UniformRun.junk
                                 UniformRun.params [])
    | _ => false
    end) (seq 9 9 ++ [19%nat]) = true /\
  initialise (fails_at 18) UniformRun.junk UniformRun.params []
  = Died "cannot allocate column memory for obstacles".
Proof. split; [|split]; vm_compute; reflexivity. Qed.

(** ** The theorems at a concrete grid *)

Lemma fusion_obstacle_cell_witness :
  (exists ob, array_get Sample.obstacles 0 = Some ob /\ ob <> 0) /\
  exists av tmp',
    fusion Sample.params Sample.obstacles Sample.grid Sample.tmp_grid
    = Some (av, tmp') /\
    load tmp' S1 0 = load Sample.grid S3 1 /\
    load tmp' S5 0 = load Sample.grid S7 3.
Proof.
  assert (Hob : exists ob, array_get Sample.obstacles 0 = Some ob /\ ob <> 0).
  { exists 1. split; [reflexivity|discriminate]. }
  split; [exact Hob|].
  destruct (fusion_obstacle_cell Sample.params Sample.obstacles Sample.grid
              Sample.tmp_grid 0 0)
    as [(av & tmp' & t0 & t1 & t2 & t3 & t4 & t5 & t6 & t7 & t8 & Hrun
         & _ & _ & _ & H3 & _ & _ & _ & H7 & _ & _ & Hg1 & _ & _ & _ & Hg5 & _) _];
    [reflexivity|reflexivity|reflexivity|simpl; lia|simpl; lia|exact Hob|].
  exists av, tmp'. split; [exact Hrun|].
  split; [transitivity (Some t3); [exact Hg1|symmetry; exact H3]
         |transitivity (Some t7); [exact Hg5|symmetry; exact H7]].
Defined.

Lemma accelerate_flow_row_witness :
  exists grid',
    accelerate_flow Sample.params Sample.obstacles Sample.grid = Some grid' /\
    wf_soa 4 grid' = true /\
    forall k, load grid' k 2 = load Sample.grid k 2.
Proof.
  destruct (accelerate_flow_row Sample.params Sample.obstacles Sample.grid)
    as (grid' & Hrun & Hwf & _ & Hrest & _);
    [simpl; lia|simpl; lia|reflexivity|reflexivity|].
  exists grid'. split; [exact Hrun|]. split; [exact Hwf|].
  intros k. apply Hrest. simpl. lia.
Defined.

Lemma accelerate_flow_positive_witness :
  accelerates Sample.obstacles Sample.grid
    (density Sample.params ⊗ accel Sample.params ⊘ of_int 9)%fl
    (density Sample.params ⊗ accel Sample.params ⊘ of_int 36)%fl 1 = true /\
  exists grid',
    accelerate_flow Sample.params Sample.obstacles Sample.grid = Some grid' /\
    positive_grid grid' = true.
Proof.
  split; [vm_compute; reflexivity|].
  apply (accelerate_flow_positive Sample.params Sample.obstacles Sample.grid);
    try (vm_compute; reflexivity); simpl; lia.
Defined.

Lemma main_reynolds_witness :
  (exists st mask grid tmp_grid av_vels r,
     initialise (fun _ => true) UniformRun.junk Sample.params
       Sample.obstaclefile = Done st /\
     st_obstacles st = Some mask /\
     main_loop Sample.params (st_obstacles st)
       (st_grid st, st_tmp_grid st, st_av_vels st)
     = Some (grid, tmp_grid, av_vels) /\
     av_velocity Sample.params (st_obstacles st) grid
     = Some (average_velocity Sample.params mask grid) /\
     main (fun _ => true) UniformRun.junk Sample.params Sample.obstaclefile
     = Done r /\
     r_reynolds r
     = (average_velocity Sample.params mask grid
        ⊗ of_int (reynolds_dim Sample.params)
        ⊘ (of_int 1 ⊘ of_int 6
           ⊗ (of_int 2 ⊘ omega Sample.params ⊖ of_int 1)))%fl) /\
  (exists re,
     main_until_reynolds (fun _ => true) UniformRun.junk Cells.wide3
       Sample.obstaclefile = Done re /\
     is_undefined
       (main (fun _ => true) UniformRun.junk Cells.wide3 Sample.obstaclefile)
     = true).
Proof.
  split.
  - destruct (main_reynolds (fun _ => true) UniformRun.junk Sample.params
                Sample.obstaclefile)
      as (st & mask & grid & tmp_grid & av_vels & Hinit & Hmask & Hloop
          & Hvel & _ & Hmain);
      [reflexivity|simpl; lia|simpl; lia|reflexivity|reflexivity|].
    destruct Hmain as (r & Hrun & Hre); [simpl; lia|].
    exists st, mask, grid, tmp_grid, av_vels, r.
    split; [exact Hinit|]. split; [exact Hmask|]. split; [exact Hloop|].
    split; [exact Hvel|]. split; [exact Hrun|exact Hre].
  - destruct (main_reynolds (fun _ => true) UniformRun.junk Cells.wide3
                Sample.obstaclefile)
      as (st & mask & grid & tmp_grid & av_vels & _ & _ & _ & _ & Hprinted & _);
      [reflexivity|simpl; lia|simpl; lia|reflexivity|reflexivity|].
    eexists. split; [exact Hprinted|]. vm_compute. reflexivity.
Defined.

Lemma write_values_lines_witness :
  exists final_state av line,
    write_values Sample.params Sample.obstacles Sample.av_vels Sample.grid
    = Some (final_state, av) /\
    final_state !! 1%nat = Some line /\
    array_get Sample.obstacles 2 = Some (l_flag line).
Proof.
  destruct (write_values_lines Sample.params Sample.obstacles Sample.av_vels
              Sample.grid)
    as (final_state & av & Hrun & _ & Hlines);
    [simpl; lia|simpl; lia|simpl; lia|reflexivity|reflexivity|reflexivity|].
  destruct (Hlines 0 1) as (line & Hline & _ & _ & Hflag & _);
    [simpl; lia|simpl; lia|].
  exists final_state, av, line. split; [exact Hrun|].
  split; [exact Hline|exact Hflag].
Defined.

Lemma fusion_twice_all_obstacles_witness :
  all_blocked Sample.walls = true /\
  exists av1 tmp1 av2 grid2,
    fusion Sample.params Sample.walls Sample.grid Sample.tmp_grid
    = Some (av1, tmp1) /\
    fusion Sample.params Sample.walls tmp1 Sample.grid = Some (av2, grid2) /\
    grid2 = Sample.grid.
Proof.
  split; [reflexivity|].
  apply (fusion_twice_all_obstacles Sample.params Sample.walls Sample.grid
           Sample.tmp_grid); try reflexivity; simpl; lia.
Defined.

Lemma all_obstacles_average_nan_witness :
  all_blocked Sample.walls = true /\
  av_velocity Sample.params Sample.walls Sample.grid = Some S754_nan.
Proof.
  split; [reflexivity|].
  destruct (all_obstacles_average_nan Sample.params Sample.walls Sample.grid
              Sample.tmp_grid) as (_ & _ & Hav & Hnan);
    [simpl; lia|simpl; lia|reflexivity|reflexivity|reflexivity|reflexivity|].
  rewrite Hav. exact (f_equal Some Hnan).
Defined.

(** ** Where defined behaviour ends *)

(** With a single row the acceleration stage addresses row [-1]. *)
Example accelerate_flow_single_row :
  accelerate_flow OneCell.params OneCell.obstacles OneCell.grid = None.
Proof. reflexivity. Qed.

(** On a grid wider than high the flag read of [write_values] leaves the
    obstacle array: two columns, one row, cell (1, 0) reads
    [obstacles[2]]. *)
Example write_values_wide_grid :
  let params := {| nx := 2; ny := 1; maxIters := 0; reynolds_dim := 1;
                   density := of_int 1; accel := of_int 0;
                   omega := of_int 1 |} in
  write_values params (Some [0; 0]) (Some [])
    (uniform_soa 2 (fun _ => OneCell.half)) = None.
Proof. reflexivity. Qed.

(** The flag column shows the transposed mask: with the only obstacle at
    (1, 0), the line of that cell carries the obstacle values and the
    flag 0, and the line of the fluid cell (0, 1) carries the flag 1. *)
Example write_values_flag_transposed :
  exists final_state av blocked_line fluid_line,
    write_values Sample.params (Some [0; 1; 0; 0]) Sample.av_vels Sample.grid
    = Some (final_state, av) /\
    final_state !! 1%nat = Some blocked_line /\
    (l_ii blocked_line, l_jj blocked_line) = (1, 0) /\
    l_u blocked_line = zero /\ l_flag blocked_line = 0 /\
    final_state !! 2%nat = Some fluid_line /\
    (l_ii fluid_line, l_jj fluid_line) = (0, 1) /\
    l_flag fluid_line = 1.
Proof.
  eexists _, _, _, _. split; [vm_compute; reflexivity|].
  repeat (split; [reflexivity|]). reflexivity.
Qed.

(** * The rest of the program *)

(** ** Arrays of structures *)

#[local] Arguments load_speed : simpl never.
#[local] Arguments store_speed : simpl never.
#[local] Arguments upd_speed : simpl never.
#[local] Arguments propagate_body : simpl never.
#[local] Arguments rebound_body : simpl never.
#[local] Arguments collision_body : simpl never.

Section UnfusedMemory.
Context {F : Type} {ops : FloatOps F}.
Implicit Types (cells tmp_cells cur : ptr (t_speed F)) (k : speed).

Lemma is_block_upd_speed n cells i k v :
  is_block n cells = true -> is_block n (upd_speed cells i k v) = true.
Proof.
  intros (a & -> & Hlen)%is_block_Some. simpl.
  rewrite length_alter. by apply Z.eqb_eq.
Qed.

Lemma store_speed_upd n cells i k v :
  is_block n cells = true -> 0 <= i < n ->
  store_speed cells i k v = Some (upd_speed cells i k v).
Proof.
  intros (a & -> & Hlen)%is_block_Some Hi.
  unfold store_speed, upd_speed, array_get, array_set. simpl.
  rewrite decide_True by lia.
  destruct (lookup_lt_is_Some_2 a (Z.to_nat i)) as [c Hc]; [lia|].
  rewrite Hc. simpl. rewrite decide_True by lia. simpl.
  do 2 f_equal. apply list_eq. intros j.
  destruct (decide (j = Z.to_nat i)) as [->|Hne].
  - rewrite list_lookup_insert_eq, list_lookup_alter_eq, Hc by lia. done.
  - by rewrite list_lookup_insert_ne, list_lookup_alter_ne.
Qed.

Lemma load_speed_upd_eq n cells i k v k' :
  is_block n cells = true -> 0 <= i < n ->
  load_speed (upd_speed cells i k v) i k'
  = if decide (k' = k) then Some v else load_speed cells i k'.
Proof.
  intros (a & -> & Hlen)%is_block_Some Hi.
  unfold load_speed, upd_speed, array_get. simpl.
  rewrite !decide_True by lia.
  destruct (lookup_lt_is_Some_2 a (Z.to_nat i)) as [c Hc]; [lia|].
  rewrite list_lookup_alter_eq, Hc. simpl. unfold set_speed. simpl.
  case_decide; [done|]. repeat case_decide; try lia; by rewrite ?Hc.
Qed.

Lemma load_speed_upd_ne cells i k v j k' :
  0 <= i -> j <> i ->
  load_speed (upd_speed cells i k v) j k' = load_speed cells j k'.
Proof.
  intros Hi Hne. destruct cells as [a|]; [|done].
  unfold load_speed, upd_speed, array_get. simpl.
  case_decide; [|done]. rewrite list_lookup_alter_ne by lia. done.
Qed.

Lemma load_speed_rd n cells i k :
  is_block n cells = true -> 0 <= i < n ->
  load_speed cells i k = Some (rd_speed cells i k).
Proof.
  intros Hb Hi. unfold rd_speed, load_speed.
  by destruct (array_get_Some n cells i Hb Hi) as [c ->].
Qed.

Lemma cell_set_speed_trans n cur cur1 cur2 idx c c' :
  cell_set_speed n cur cur1 idx c -> cell_set_speed n cur1 cur2 idx c' ->
  cell_set_speed n cur cur2 idx c'.
Proof.
  intros (_ & _ & Hframe) (Hb & Hcell & Hframe').
  split; [done|]. split; [done|]. intros k i Hi.
  by rewrite Hframe', Hframe.
Qed.

(** A loop that settles the grid cell by cell, each cell from the
    original contents of that cell only. *)
Lemma cellwise_loop (nx ny : Z) (final : Z -> Z -> speed -> F)
    (body : Z -> Z -> ptr (t_speed F) -> option (ptr (t_speed F))) cells :
  0 <= nx -> 0 <= ny -> is_block (ny * nx) cells = true ->
  (forall jj ii cur, 0 <= jj < ny -> 0 <= ii < nx ->
     is_block (ny * nx) cur = true ->
     (forall k, load_speed cur (ii + jj * nx) k
                = load_speed cells (ii + jj * nx) k) ->
     exists cur',
       body jj ii cur = Some cur' /\
       cell_set_speed (ny * nx) cur cur' (ii + jj * nx) (final jj ii)) ->
  exists cells',
    for_loop ny (fun jj => for_loop nx (body jj)) cells = Some cells' /\
    is_block (ny * nx) cells' = true /\
    forall jj ii k, 0 <= jj < ny -> 0 <= ii < nx ->
      load_speed cells' (ii + jj * nx) k = Some (final jj ii k).
Proof.
  intros Hnx Hny Hcells Hbody.
  destruct (grid_loop_rule
    (fun p cur =>
       is_block (ny * nx) cur = true /\
       (forall jj ii k, 0 <= jj < ny -> 0 <= ii < nx -> ii + jj * nx < p ->
          load_speed cur (ii + jj * nx) k = Some (final jj ii k)) /\
       (forall i k, p <= i -> load_speed cur i k = load_speed cells i k))
    nx ny body cells) as (cells' & Hrun & Hb & Hdone & _); [done|done| | |].
  - split; [done|]. split; [|done]. intros jj ii k Hj Hi Hlt.
    pose proof (idx_range _ _ _ _ Hi Hj). lia.
  - intros jj ii cur Hj Hi (Hb & Hdone & Hrest).
    destruct (Hbody jj ii cur Hj Hi Hb) as (cur' & Hcur & Hb' & Hcell & Hframe).
    { intros k. apply Hrest. lia. }
    exists cur'. split; [done|]. split; [done|]. split.
    + intros jj' ii' k Hj' Hi' Hlt.
      destruct (decide (ii' + jj' * nx = ii + jj * nx)) as [Heq|Hne].
      * destruct (idx_inj _ _ _ _ _ Hi' Hi Heq) as [-> ->]. apply Hcell.
      * rewrite Hframe by done. apply Hdone; [done..|lia].
    + intros i k Hle. rewrite Hframe by lia. apply Hrest. lia.
  - exists cells'. split; [done|]. split; [done|].
    intros jj ii k Hj Hi. apply Hdone; [done..|].
    pose proof (idx_range _ _ _ _ Hi Hj). lia.
Qed.
End UnfusedMemory.

Ltac side_speed n :=
  first [ assumption | lia | repeat apply (is_block_upd_speed n); assumption ].

Ltac exec_speed n Hbase :=
  repeat first
    [ rewrite (store_speed_upd n) by side_speed n
    | rewrite Hbase
    | rewrite (load_speed_rd n) by side_speed n
    | progress simpl ].

Ltac frame_speed n :=
  repeat first
    [ rewrite load_speed_upd_ne by side_speed n
    | rewrite (load_speed_upd_eq n) by side_speed n
    | progress simpl ].

(** ** The unfused kernels *)

Section UnfusedFacts.
Context {F : Type} {ops : FloatOps F}.
Local Open Scope float_scope.
Implicit Types (cells tmp_cells cur : ptr (t_speed F)) (k : speed).
Implicit Types (params : t_param F) (obstacles : ptr Z).

Lemma collision_relax_ext params (f g : speed -> F) k :
  (forall k, f k = g k) -> collision_relax params f k = collision_relax params g k.
Proof.
  intros Hfg. unfold collision_relax, collision_d_equ.
  rewrite !Hfg. by destruct k.
Qed.

Lemma propagate_body_spec params cells cur jj ii :
  let n := (ny params * nx params)%Z in
  is_block n cells = true -> is_block n cur = true ->
  0 <= ii < nx params -> 0 <= jj < ny params ->
  exists cur',
    propagate_body params cells jj ii cur = Some cur' /\
    cell_set_speed n cur cur' (ii + jj * nx params)
      (fun k => rd_speed cells (source params k jj ii) k).
Proof.
  intros n Hcells Hcur Hi Hj.
  pose proof (fun k => source_range params k jj ii Hi Hj) as Hsrc.
  pose proof (Hsrc S0) as Hs0. pose proof (Hsrc S1) as Hs1.
  pose proof (Hsrc S2) as Hs2. pose proof (Hsrc S3) as Hs3.
  pose proof (Hsrc S4) as Hs4. pose proof (Hsrc S5) as Hs5.
  pose proof (Hsrc S6) as Hs6. pose proof (Hsrc S7) as Hs7.
  pose proof (Hsrc S8) as Hs8. clear Hsrc.
  unfold propagate_body, copy_speed.
  simpl in Hs0, Hs1, Hs2, Hs3, Hs4, Hs5, Hs6, Hs7, Hs8.
  unfold east, west in *.
  fold n in Hs0, Hs1, Hs2, Hs3, Hs4, Hs5, Hs6, Hs7, Hs8.
  set (idx := (ii + jj * nx params)%Z) in *.
  assert (Hbase : load_speed cur idx S0 = load_speed cur idx S0) by done.
  exec_speed n Hbase.
  eexists. split; [reflexivity|]. clear Hbase.
  split; [side_speed n|]. split.
  - intros []; frame_speed n; reflexivity.
  - intros k i Hne. frame_speed n. reflexivity.
Qed.

Lemma rebound_body_spec params cells tmp_cells obstacles cur jj ii :
  let n := (ny params * nx params)%Z in
  let idx := (ii + jj * nx params)%Z in
  is_block n cells = true -> is_block n tmp_cells = true ->
  is_block n obstacles = true -> is_block n cur = true ->
  0 <= ii < nx params -> 0 <= jj < ny params ->
  (forall k, load_speed cur idx k = load_speed cells idx k) ->
  exists cur',
    rebound_body params tmp_cells obstacles jj ii cur = Some cur' /\
    cell_set_speed n cur cur' idx (rebounded obstacles cells tmp_cells idx).
Proof.
  intros n idx Hcells Htmp Hobs Hcur Hi Hj Hsame.
  pose proof (idx_range _ _ _ _ Hi Hj) as Hidx. fold n idx in Hidx.
  assert (Hcell : forall k, load_speed cur idx k = Some (rd_speed cells idx k)).
  { intros k. rewrite Hsame. by apply (load_speed_rd n). }
  unfold rebound_body, rebounded, blocked. fold idx.
  replace (jj * nx params + ii) with idx by (unfold idx; lia).
  rewrite (array_get_flag n) by done. simpl.
  destruct (negb (flag_at obstacles idx =? 0)).
  - assert (Hbase : load_speed tmp_cells idx S0 = load_speed tmp_cells idx S0)
      by done.
    exec_speed n Hbase.
    eexists. split; [reflexivity|]. clear Hbase.
    split; [side_speed n|]. split.
    + intros []; frame_speed n; rewrite ?Hcell; reflexivity.
    + intros k i Hne. frame_speed n. reflexivity.
  - exists cur. split; [done|]. split; [done|]. split; [done|done].
Qed.

Lemma collision_body_spec params cells tmp_cells obstacles cur jj ii :
  let n := (ny params * nx params)%Z in
  let idx := (ii + jj * nx params)%Z in
  is_block n cells = true -> is_block n tmp_cells = true ->
  is_block n obstacles = true -> is_block n cur = true ->
  0 <= ii < nx params -> 0 <= jj < ny params ->
  (forall k, load_speed cur idx k = load_speed cells idx k) ->
  exists cur',
    collision_body params tmp_cells obstacles jj ii cur = Some cur' /\
    cell_set_speed n cur cur' idx (collided params obstacles cells tmp_cells idx).
Proof.
  intros n idx Hcells Htmp Hobs Hcur Hi Hj Hsame.
  pose proof (idx_range _ _ _ _ Hi Hj) as Hidx. fold n idx in Hidx.
  assert (Hcell : forall k, load_speed cur idx k = Some (rd_speed cells idx k)).
  { intros k. rewrite Hsame. by apply (load_speed_rd n). }
  unfold collision_body, collided, blocked. fold idx.
  rewrite (array_get_flag n) by done. simpl.
  destruct (flag_at obstacles idx =? 0); simpl.
  - destruct (array_get_Some n tmp_cells idx Htmp Hidx) as [t Ht].
    rewrite Ht. simpl.
    assert (Ht' : forall k, speed_values t k = rd_speed tmp_cells idx k).
    { intros k. unfold rd_speed, load_speed. by rewrite Ht. }
    unfold speeds.
    assert (Hbase : load_speed tmp_cells idx S0 = load_speed tmp_cells idx S0)
      by done.
    exec_speed n Hbase.
    eexists. split; [reflexivity|]. clear Hbase.
    split; [side_speed n|]. split.
    + intros k. rewrite <- (collision_relax_ext params _ _ k Ht').
      destruct k; frame_speed n; reflexivity.
    + intros k i Hne. frame_speed n. reflexivity.
  - exists cur. split; [done|]. split; [done|]. split; [done|done].
Qed.
End UnfusedFacts.

Section UnfusedRuns.
Context {F : Type} {ops : FloatOps F}.
Local Open Scope float_scope.
Implicit Types (cells tmp_cells : ptr (t_speed F)) (obstacles : ptr Z).

Variable params : t_param F.
Let n : Z := (ny params * nx params)%Z.
Hypothesis Hnx : 0 < nx params.
Hypothesis Hny : 0 < ny params.

Lemma propagate_spec cells tmp_cells :
  is_block n cells = true -> is_block n tmp_cells = true ->
  exists tmp_cells',
    propagate params cells tmp_cells = Some tmp_cells' /\
    is_block n tmp_cells' = true /\
    forall jj ii k, 0 <= jj < ny params -> 0 <= ii < nx params ->
      load_speed tmp_cells' (ii + jj * nx params) k
      = Some (rd_speed cells (source params k jj ii) k).
Proof.
  intros Hcells Htmp. unfold propagate.
  apply (cellwise_loop (nx params) (ny params)
           (fun jj ii k => rd_speed cells (source params k jj ii) k));
    [lia|lia|done|].
  intros jj ii cur Hj Hi Hcur _.
  by apply propagate_body_spec.
Qed.

Lemma rebound_spec cells tmp_cells obstacles :
  is_block n cells = true -> is_block n tmp_cells = true ->
  is_block n obstacles = true ->
  exists cells',
    rebound params cells tmp_cells obstacles = Some cells' /\
    is_block n cells' = true /\
    forall jj ii k, 0 <= jj < ny params -> 0 <= ii < nx params ->
      load_speed cells' (ii + jj * nx params) k
      = Some (rebounded obstacles cells tmp_cells (ii + jj * nx params) k).
Proof.
  intros Hcells Htmp Hobs. unfold rebound.
  apply (cellwise_loop (nx params) (ny params)
           (fun jj ii => rebounded obstacles cells tmp_cells
                           (ii + jj * nx params)));
    [lia|lia|done|].
  intros jj ii cur Hj Hi Hcur Hsame.
  by apply (rebound_body_spec params cells).
Qed.

Lemma collision_spec cells tmp_cells obstacles :
  is_block n cells = true -> is_block n tmp_cells = true ->
  is_block n obstacles = true ->
  exists cells',
    collision params cells tmp_cells obstacles = Some cells' /\
    is_block n cells' = true /\
    forall jj ii k, 0 <= jj < ny params -> 0 <= ii < nx params ->
      load_speed cells' (ii + jj * nx params) k
      = Some (collided params obstacles cells tmp_cells
                (ii + jj * nx params) k).
Proof.
  intros Hcells Htmp Hobs. unfold collision.
  apply (cellwise_loop (nx params) (ny params)
           (fun jj ii => collided params obstacles cells tmp_cells
                           (ii + jj * nx params)));
    [lia|lia|done|].
  intros jj ii cur Hj Hi Hcur Hsame.
  by apply (collision_body_spec params cells).
Qed.
End UnfusedRuns.

(** X1: [propagate] is a periodic gather.  On allocated arrays of
    [nx * ny] cells it stays inside them and fills every scratch cell, in
    every direction [k], with the value the main array holds in direction
    [k] at the upstream neighbour (west for 1, south for 2, east for 3,
    north for 4, and the diagonal ones for 5 to 8), columns and rows
    wrapping around. *)
Theorem propagate_gathers {F : Type} {ops : FloatOps F}
    (params : t_param F) (cells tmp_cells : ptr (t_speed F)) :
  let n := (ny params * nx params)%Z in
  0 < nx params -> 0 < ny params ->
  is_block n cells = true -> is_block n tmp_cells = true ->
  exists tmp_cells',
    propagate params cells tmp_cells = Some tmp_cells' /\
    is_block n tmp_cells' = true /\
    forall jj ii, 0 <= jj < ny params -> 0 <= ii < nx params ->
      let idx := (ii + jj * nx params)%Z in
      let x_e := ((ii + 1) mod nx params)%Z in
      let x_w := ((ii - 1 + nx params) mod nx params)%Z in
      let y_n := ((jj + 1) mod ny params)%Z in
      let y_s := ((jj - 1 + ny params) mod ny params)%Z in
      load_speed tmp_cells' idx S0 = load_speed cells idx S0 /\
      load_speed tmp_cells' idx S1 = load_speed cells (x_w + jj * nx params) S1 /\
      load_speed tmp_cells' idx S2 = load_speed cells (ii + y_s * nx params) S2 /\
      load_speed tmp_cells' idx S3 = load_speed cells (x_e + jj * nx params) S3 /\
      load_speed tmp_cells' idx S4 = load_speed cells (ii + y_n * nx params) S4 /\
      load_speed tmp_cells' idx S5 = load_speed cells (x_w + y_s * nx params) S5 /\
      load_speed tmp_cells' idx S6 = load_speed cells (x_e + y_s * nx params) S6 /\
      load_speed tmp_cells' idx S7 = load_speed cells (x_e + y_n * nx params) S7 /\
      load_speed tmp_cells' idx S8 = load_speed cells (x_w + y_n * nx params) S8.
Proof.
  intros n Hnx Hny Hcells Htmp.
  destruct (propagate_spec params Hnx Hny cells tmp_cells Hcells Htmp)
    as (tmp' & Hrun & Hb & Hall).
  exists tmp'. split; [done|]. split; [done|].
  intros jj ii Hj Hi idx x_e x_w y_n y_s.
  assert (He : x_e = east (nx params) ii).
  { unfold x_e, east. rewrite Z.rem_mod_nonneg; lia. }
  assert (Hn : y_n = east (ny params) jj).
  { unfold y_n, east. rewrite Z.rem_mod_nonneg; lia. }
  assert (Hw : x_w = west (nx params) ii).
  { unfold x_w, west. destruct (Z.eqb_spec ii 0) as [->|Hne].
    - replace (0 - 1 + nx params) with (0 + nx params - 1) by lia.
      apply Z.mod_small. lia.
    - replace (ii - 1 + nx params) with (ii - 1 + 1 * nx params) by lia.
      rewrite Z.mod_add by lia. apply Z.mod_small. lia. }
  assert (Hs : y_s = west (ny params) jj).
  { unfold y_s, west. destruct (Z.eqb_spec jj 0) as [->|Hne].
    - replace (0 - 1 + ny params) with (0 + ny params - 1) by lia.
      apply Z.mod_small. lia.
    - replace (jj - 1 + ny params) with (jj - 1 + 1 * ny params) by lia.
      rewrite Z.mod_add by lia. apply Z.mod_small. lia. }
  rewrite He, Hn, Hw, Hs.
  pose proof (fun k => load_speed_rd n cells _ k Hcells
                         (source_range params k jj ii Hi Hj)) as Hsrc.
  pose proof (fun k => Hall jj ii k Hj Hi) as Hcell.
  subst idx.
  split; [rewrite (Hcell S0); symmetry; apply (Hsrc S0)|].
  split; [rewrite (Hcell S1); symmetry; apply (Hsrc S1)|].
  split; [rewrite (Hcell S2); symmetry; apply (Hsrc S2)|].
  split; [rewrite (Hcell S3); symmetry; apply (Hsrc S3)|].
  split; [rewrite (Hcell S4); symmetry; apply (Hsrc S4)|].
  split; [rewrite (Hcell S5); symmetry; apply (Hsrc S5)|].
  split; [rewrite (Hcell S6); symmetry; apply (Hsrc S6)|].
  split; [rewrite (Hcell S7); symmetry; apply (Hsrc S7)|].
  rewrite (Hcell S8); symmetry; apply (Hsrc S8).
Qed.

(** X2: [rebound] writes obstacle cells only.  At an obstacle cell the
    main array receives, in directions 1 to 8, the scratch values of the
    opposite directions (1 from 3, 2 from 4, 3 from 1, 4 from 2, 5 from 7,
    6 from 8, 7 from 5, 8 from 6) and keeps its own direction 0; a fluid
    cell of the main array is left as it was. *)
Theorem rebound_mirrors {F : Type} {ops : FloatOps F}
    (params : t_param F) (cells tmp_cells : ptr (t_speed F))
    (obstacles : ptr Z) :
  let n := (ny params * nx params)%Z in
  0 < nx params -> 0 < ny params ->
  is_block n cells = true -> is_block n tmp_cells = true ->
  is_block n obstacles = true ->
  exists cells',
    rebound params cells tmp_cells obstacles = Some cells' /\
    is_block n cells' = true /\
    forall jj ii ob, 0 <= jj < ny params -> 0 <= ii < nx params ->
      let idx := (ii + jj * nx params)%Z in
      array_get obstacles idx = Some ob ->
      (ob <> 0 ->
         load_speed cells' idx S0 = load_speed cells idx S0 /\
         load_speed cells' idx S1 = load_speed tmp_cells idx S3 /\
         load_speed cells' idx S2 = load_speed tmp_cells idx S4 /\
         load_speed cells' idx S3 = load_speed tmp_cells idx S1 /\
         load_speed cells' idx S4 = load_speed tmp_cells idx S2 /\
         load_speed cells' idx S5 = load_speed tmp_cells idx S7 /\
         load_speed cells' idx S6 = load_speed tmp_cells idx S8 /\
         load_speed cells' idx S7 = load_speed tmp_cells idx S5 /\
         load_speed cells' idx S8 = load_speed tmp_cells idx S6) /\
      (ob = 0 -> forall k, load_speed cells' idx k = load_speed cells idx k).
Proof.
  intros n Hnx Hny Hcells Htmp Hobs.
  destruct (rebound_spec params Hnx Hny cells tmp_cells obstacles
              Hcells Htmp Hobs) as (cells' & Hrun & Hb & Hall).
  exists cells'. split; [done|]. split; [done|].
  intros jj ii ob Hj Hi idx Hob.
  pose proof (idx_range _ _ _ _ Hi Hj) as Hidx. fold n idx in Hidx.
  pose proof (fun k => Hall jj ii k Hj Hi) as Hcell. fold idx in Hcell.
  unfold rebounded, blocked, flag_at in Hcell. rewrite Hob in Hcell.
  simpl in Hcell.
  pose proof (fun k => load_speed_rd n cells idx k Hcells Hidx) as Hold.
  pose proof (fun k => load_speed_rd n tmp_cells idx k Htmp Hidx) as Hscratch.
  split.
  - intros Hne. destruct (Z.eqb_spec ob 0) as [?|_]; [done|]. simpl in Hcell.
    split; [by rewrite (Hcell S0), Hold|].
    split; [by rewrite (Hcell S1), Hscratch|].
    split; [by rewrite (Hcell S2), Hscratch|].
    split; [by rewrite (Hcell S3), Hscratch|].
    split; [by rewrite (Hcell S4), Hscratch|].
    split; [by rewrite (Hcell S5), Hscratch|].
    split; [by rewrite (Hcell S6), Hscratch|].
    split; [by rewrite (Hcell S7), Hscratch|].
    by rewrite (Hcell S8), Hscratch.
  - intros -> k. simpl in Hcell. by rewrite Hcell, Hold.
Qed.

(** X3: [collision] implements the BGK relaxation on fluid cells and
    touches nothing else.  At a fluid cell whose scratch structure is
    [t], the main array receives in every direction [k]
    [t_k + omega * (d_equ_k - t_k)], with [d_equ] the equilibrium
    densities computed from [t]; an obstacle cell of the main array is
    left as it was. *)
Theorem collision_relaxes_fluid_cells {F : Type} {ops : FloatOps F}
    (params : t_param F) (cells tmp_cells : ptr (t_speed F))
    (obstacles : ptr Z) :
  let n := (ny params * nx params)%Z in
  0 < nx params -> 0 < ny params ->
  is_block n cells = true -> is_block n tmp_cells = true ->
  is_block n obstacles = true ->
  exists cells',
    collision params cells tmp_cells obstacles = Some cells' /\
    is_block n cells' = true /\
    forall jj ii ob, 0 <= jj < ny params -> 0 <= ii < nx params ->
      let idx := (ii + jj * nx params)%Z in
      array_get obstacles idx = Some ob ->
      (ob = 0 ->
         exists t,
           array_get tmp_cells idx = Some t /\
           forall k,
             load_speed cells' idx k
             = Some (speed_values t k
                     ⊕ omega params
                       ⊗ (collision_d_equ (speed_values t) k
                          ⊖ speed_values t k))%fl) /\
      (ob <> 0 -> forall k, load_speed cells' idx k = load_speed cells idx k).
Proof.
  intros n Hnx Hny Hcells Htmp Hobs.
  destruct (collision_spec params Hnx Hny cells tmp_cells obstacles
              Hcells Htmp Hobs) as (cells' & Hrun & Hb & Hall).
  exists cells'. split; [done|]. split; [done|].
  intros jj ii ob Hj Hi idx Hob.
  pose proof (idx_range _ _ _ _ Hi Hj) as Hidx. fold n idx in Hidx.
  pose proof (fun k => Hall jj ii k Hj Hi) as Hcell. fold idx in Hcell.
  unfold collided, blocked, flag_at in Hcell. rewrite Hob in Hcell.
  simpl in Hcell.
  split.
  - intros ->. simpl in Hcell.
    destruct (array_get_Some n tmp_cells idx Htmp Hidx) as [t Ht].
    exists t. split; [done|]. intros k. rewrite Hcell. f_equal.
    apply collision_relax_ext. intros k'.
    unfold rd_speed, load_speed. by rewrite Ht.
  - intros Hne k. destruct (Z.eqb_spec ob 0) as [?|_]; [done|].
    simpl in Hcell. rewrite Hcell. symmetry. by apply (load_speed_rd n).
Qed.

(** X4: on obstacle cells the fused kernel does what the kernels it
    replaces do.  When the array of structures and the structure of
    arrays hold the same grid, [propagate] followed by [rebound] leaves in
    the main array, at every obstacle cell and in every direction,
    exactly the value [fusion] leaves in its scratch grid. *)
Theorem unfused_agrees_with_fusion_at_obstacles
    {F : Type} {ops : FloatOps F} {sq : FloatSqrt F}
    (params : t_param F) (obstacles : ptr Z)
    (cells tmp_cells : ptr (t_speed F)) (grid tmp_grid : soa F) :
  let n := (ny params * nx params)%Z in
  0 < nx params -> 0 < ny params ->
  same_grid n cells grid ->
  is_block n tmp_cells = true -> wf_soa n tmp_grid = true ->
  is_block n obstacles = true ->
  exists tmp_cells' cells' av tmp_grid',
    propagate params cells tmp_cells = Some tmp_cells' /\
    rebound params cells tmp_cells' obstacles = Some cells' /\
    fusion params obstacles grid tmp_grid = Some (av, tmp_grid') /\
    forall jj ii ob k, 0 <= jj < ny params -> 0 <= ii < nx params ->
      let idx := (ii + jj * nx params)%Z in
      array_get obstacles idx = Some ob -> ob <> 0 ->
      load_speed cells' idx k = load tmp_grid' k idx.
Proof.
  intros n Hnx Hny (Hcells & Hgrid & Hsame) Htmp Htmp_grid Hobs.
  destruct (propagate_spec params Hnx Hny cells tmp_cells Hcells Htmp)
    as (tmp_cells' & Hprop & Hb' & Hstreamed).
  destruct (rebound_spec params Hnx Hny cells tmp_cells' obstacles
              Hcells Hb' Hobs) as (cells' & Hreb & _ & Hrebounded).
  destruct (fusion_spec params obstacles grid ltac:(lia) ltac:(lia)
              Hgrid Hobs tmp_grid Htmp_grid)
    as (tot_u & tot_cells & tmp_grid' & _ & Hrun & _ & Hfused).
  exists tmp_cells', cells', (tot_u ⊘ of_int tot_cells)%fl, tmp_grid'.
  split; [done|]. split; [done|]. split; [done|].
  intros jj ii ob k Hj Hi idx Hob Hne. subst idx.
  pose proof (idx_range _ _ _ _ Hi Hj) as Hidx.
  assert (Hrd : forall k i, 0 <= i < n -> rd_speed cells i k = rd grid k i).
  { intros k' i Hi'. unfold rd_speed, rd. by rewrite Hsame. }
  assert (Hblocked : blocked obstacles (ii + jj * nx params) = true).
  { unfold blocked, flag_at. rewrite Hob. simpl.
    by destruct (Z.eqb_spec ob 0). }
  rewrite Hrebounded, Hfused by done.
  unfold rebounded, fused. rewrite Hblocked. f_equal.
  unfold mirrored, streamed.
  destruct k; simpl opposite; [exact (Hrd S0 _ Hidx)|..];
    unfold rd_speed at 1; rewrite Hstreamed by done;
    apply (Hrd _ (source params _ jj ii)); by apply source_range.
Qed.

(** ** What the fused kernel returns *)

Section FusionReduction.
Context {F : Type} {ops : FloatOps F} {sq : FloatSqrt F}.
Local Open Scope float_scope.

Variables (params : t_param F) (obstacles : ptr Z) (grid : soa F).
Let n : Z := (ny params * nx params)%Z.
Hypothesis Hnx : 0 < nx params.
Hypothesis Hny : 0 < ny params.
Hypothesis Hgrid : wf_soa n grid = true.
Hypothesis Hobs : is_block n obstacles = true.

Lemma reduction_step jj ii :
  0 <= jj < ny params -> 0 <= ii < nx params ->
  reduction params obstacles grid (ii + jj * nx params + 1)
  = accumulated params obstacles grid jj ii
      (reduction params obstacles grid (ii + jj * nx params)).
Proof.
  intros Hj Hi. unfold reduction.
  rewrite seqZ_app by nia. rewrite foldl_app. simpl.
  replace (0 + (ii + jj * nx params)) with (ii + jj * nx params) by lia.
  f_equal.
  - symmetry. apply (Z.div_unique_pos _ _ _ ii); lia.
  - symmetry. apply (Z.mod_unique_pos _ _ jj); lia.
Qed.

Lemma fusion_reduces tmp :
  wf_soa n tmp = true ->
  exists tmp',
    fusion_loop params obstacles grid tmp
    = Some (tmp', (reduction params obstacles grid n).1,
                  (reduction params obstacles grid n).2) /\
    wf_soa n tmp' = true /\
    (forall jj ii k, 0 <= jj < ny params -> 0 <= ii < nx params ->
       load tmp' k (ii + jj * nx params)
       = Some (fused params obstacles grid jj ii k)).
Proof.
  intros Htmp.
  destruct (fusion_loop_spec params obstacles grid ltac:(lia) ltac:(lia)
              Hgrid Hobs
              (fun p acc => acc = reduction params obstacles grid p) tmp)
    as ([[tmp' tot_u] tot_cells] & Hrun & Hwf & Hdone & Hacc); [done|done| |].
  - intros jj ii acc Hj Hi ->. by rewrite reduction_step.
  - simpl in Hwf, Hdone, Hacc. exists tmp'. fold n in Hacc.
    rewrite <- Hacc. simpl. split; [done|]. split; [done|].
    intros jj ii k Hj Hi. apply Hdone; [done..|].
    pose proof (idx_range _ _ _ _ Hi Hj). lia.
Qed.

Lemma fusion_scratch tmp1 tmp2 :
  wf_soa n tmp1 = true -> wf_soa n tmp2 = true ->
  fusion params obstacles grid tmp1 = fusion params obstacles grid tmp2.
Proof.
  intros Htmp1 Htmp2.
  destruct (fusion_reduces tmp1 Htmp1) as (tmp1' & Hrun1 & Hwf1 & Hcells1).
  destruct (fusion_reduces tmp2 Htmp2) as (tmp2' & Hrun2 & Hwf2 & Hcells2).
  unfold fusion. rewrite Hrun1, Hrun2. simpl. do 3 f_equal.
  apply (soa_ext n); [done..|]. intros k i Hi.
  set (ii := i mod nx params). set (jj := i / nx params).
  assert (Hii : 0 <= ii < nx params) by (apply Z.mod_pos_bound; lia).
  assert (Hjj : 0 <= jj < ny params).
  { split; [apply Z.div_pos; lia|]. apply Z.div_lt_upper_bound; lia. }
  assert (Hidx : i = ii + jj * nx params).
  { unfold ii, jj. rewrite (Z.div_mod i (nx params)) at 1 by lia. lia. }
  by rewrite Hidx, Hcells1, Hcells2.
Qed.
End FusionReduction.

(** X5: the contents of the scratch grid do not matter.  For two allocated
    scratch grids, whatever they hold, the fused kernel returns the same
    average velocity and leaves the same scratch grid; in particular the
    second buffer, which [initialise] allocates and never fills, needs no
    initialisation. *)
Theorem fusion_ignores_scratch {F : Type} {ops : FloatOps F} {sq : FloatSqrt F}
    (params : t_param F) (obstacles : ptr Z) (grid tmp1 tmp2 : soa F) :
  let n := (ny params * nx params)%Z in
  0 < nx params -> 0 < ny params ->
  wf_soa n grid = true -> is_block n obstacles = true ->
  wf_soa n tmp1 = true -> wf_soa n tmp2 = true ->
  exists av tmp',
    fusion params obstacles grid tmp1 = Some (av, tmp') /\
    fusion params obstacles grid tmp2 = Some (av, tmp').
Proof.
  intros n Hnx Hny Hgrid Hobs Htmp1 Htmp2.
  destruct (fusion_spec params obstacles grid ltac:(lia) ltac:(lia)
              Hgrid Hobs tmp1 Htmp1)
    as (tot_u & tot_cells & tmp' & _ & Hrun & _).
  exists (tot_u ⊘ of_int tot_cells)%fl, tmp'. split; [done|].
  by rewrite <- (fusion_scratch params obstacles grid Hnx Hny Hgrid Hobs
                   tmp1 tmp2 Htmp1 Htmp2).
Qed.

(** X6: both reductions divide by the number of fluid cells.  The count
    the fused kernel ends with, and the count [av_velocity] ends with, is
    the number of cells whose obstacle flag is 0, and the value each
    returns is its velocity sum divided by that number. *)
Theorem kernels_count_fluid_cells
    {F : Type} {ops : FloatOps F} {sq : FloatSqrt F}
    (params : t_param F) (mask : list Z) (grid tmp : soa F) :
  let n := (ny params * nx params)%Z in
  0 < nx params -> 0 < ny params ->
  wf_soa n grid = true -> wf_soa n tmp = true ->
  is_block n (Some mask) = true ->
  exists tmp' tot_u tot_u',
    fusion_loop params (Some mask) grid tmp
    = Some (tmp', tot_u, fluid_cells mask) /\
    fusion params (Some mask) grid tmp
    = Some ((tot_u ⊘ of_int (fluid_cells mask))%fl, tmp') /\
    av_velocity_loop params (Some mask) grid
    = Some (tot_u', fluid_cells mask) /\
    av_velocity params (Some mask) grid
    = Some (tot_u' ⊘ of_int (fluid_cells mask))%fl.
Proof.
  intros n Hnx Hny Hgrid Htmp Hobs.
  assert (Hlen : Z.of_nat (length mask) = n) by (by apply Z.eqb_eq).
  assert (Hflag : forall i, 0 <= i < n ->
            mask !! Z.to_nat i = Some (flag_at (Some mask) i)).
  { intros i Hi. pose proof (array_get_flag n (Some mask) i Hobs Hi) as Hget.
    unfold array_get in Hget. simpl in Hget. by rewrite decide_True in Hget by lia. }
  assert (Hstep : forall jj ii, 0 <= jj < ny params -> 0 <= ii < nx params ->
            fluid_cells (take (Z.to_nat (ii + jj * nx params + 1)) mask)
            = fluid_cells (take (Z.to_nat (ii + jj * nx params)) mask)
              + (if (flag_at (Some mask) (ii + jj * nx params) =? 0)%Z
                 then 1 else 0)).
  { intros jj ii Hj Hi. pose proof (idx_range _ _ _ _ Hi Hj) as Hidx.
    replace (Z.to_nat (ii + jj * nx params + 1))
      with (S (Z.to_nat (ii + jj * nx params))) by lia.
    apply fluid_cells_take_S, Hflag. exact Hidx. }
  assert (Hend : take (Z.to_nat (ny params * nx params)) mask = mask).
  { apply take_ge. fold n. lia. }
  destruct (fusion_loop_spec params (Some mask) grid ltac:(lia) ltac:(lia)
              Hgrid Hobs
              (fun p acc => acc.2 = fluid_cells (take (Z.to_nat p) mask)) tmp)
    as ([[tmp' tot_u] tot_cells] & Hrun & _ & _ & Hcount); [done|done| |].
  { intros jj ii acc Hj Hi Hacc. rewrite (Hstep jj ii Hj Hi).
    unfold accumulated, blocked.
    destruct (flag_at (Some mask) (ii + jj * nx params) =? 0)%Z; simpl; lia. }
  simpl in Hcount. rewrite Hend in Hcount. subst tot_cells.
  destruct (grid_loop_rule
    (fun p (st : F * Z) => st.2 = fluid_cells (take (Z.to_nat p) mask))
    (nx params) (ny params)
    (av_velocity_cell params (Some mask) grid) (zero, 0%Z))
    as ([tot_u' tot_cells'] & Hrun' & Hcount'); [lia|lia|done| |].
  { intros jj ii [u c] Hj Hi Hacc. simpl in Hacc.
    pose proof (idx_range _ _ _ _ Hi Hj) as Hidx.
    rewrite (Hstep jj ii Hj Hi).
    unfold av_velocity_cell. rewrite (array_get_flag n) by done. simpl.
    destruct (flag_at (Some mask) (ii + jj * nx params) =? 0)%Z.
    - rewrite !(load_rd n) by done. simpl. eexists. split; [reflexivity|].
      simpl. lia.
    - eexists. split; [reflexivity|]. simpl. lia. }
  simpl in Hcount'. rewrite Hend in Hcount'. subst tot_cells'.
  exists tmp', tot_u, tot_u'.
  unfold fusion, av_velocity, av_velocity_loop. rewrite Hrun, Hrun'.
  by repeat split.
Qed.

(** X7: what the fused kernel does at a fluid cell.  With [t] the
    streamed values of the cell, visiting it stores
    [g_k = t_k + omega * (1 - t_k)] in every direction, adds
    [sqrt (u_x^2 + u_y^2)] to the velocity sum, where
    [u_x = (g1 + g5 + g8 - (g3 + g6 + g7)) / rho],
    [u_y = (g2 + g5 + g6 - (g4 + g7 + g8)) / rho] and
    [rho = 0 + g0 + ... + g8] are taken from the stored values, and adds
    one to the cell count; the other cells of the scratch grid are not
    touched. *)
Theorem fusion_fluid_cell_step
    {F : Type} {ops : FloatOps F} {sq : FloatSqrt F}
    (params : t_param F) (obstacles : ptr Z) (grid tmp : soa F)
    (jj ii : Z) (tot_u : F) (tot_cells : Z) :
  let n := (ny params * nx params)%Z in
  let idx := (ii + jj * nx params)%Z in
  wf_soa n grid = true -> wf_soa n tmp = true ->
  is_block n obstacles = true ->
  0 <= ii < nx params -> 0 <= jj < ny params ->
  array_get obstacles idx = Some 0 ->
  exists tmp' (g : speed -> F),
    (forall k, g k = (let t := streamed params grid jj ii k in
                      t ⊕ omega params ⊗ (of_int 1 ⊖ t))%fl) /\
    fusion_cell params obstacles grid jj ii (tmp, tot_u, tot_cells)
    = Some (tmp',
            (let rho := of_int 0 ⊕ g S0 ⊕ g S1 ⊕ g S2 ⊕ g S3 ⊕ g S4
                        ⊕ g S5 ⊕ g S6 ⊕ g S7 ⊕ g S8 in
             let u_x := (g S1 ⊕ g S5 ⊕ g S8 ⊖ (g S3 ⊕ g S6 ⊕ g S7)) ⊘ rho in
             let u_y := (g S2 ⊕ g S5 ⊕ g S6 ⊖ (g S4 ⊕ g S7 ⊕ g S8)) ⊘ rho in
             tot_u ⊕ fsqrt (u_x ⊗ u_x ⊕ u_y ⊗ u_y))%fl,
            tot_cells + 1) /\
    wf_soa n tmp' = true /\
    (forall k, load tmp' k idx = Some (g k)) /\
    (forall k i, i <> idx -> load tmp' k i = load tmp k i).
Proof.
  intros n idx Hgrid Htmp Hobs Hi Hj Hfluid.
  destruct (fusion_cell_spec params obstacles grid tmp jj ii tot_u tot_cells
              Hgrid Htmp Hobs Hi Hj) as (tmp' & Hrun & Hwf & Hcell & Hframe).
  unfold accumulated, fused, blocked, flag_at in Hrun, Hcell.
  fold idx in Hrun, Hcell. rewrite Hfluid in Hrun, Hcell.
  simpl in Hrun, Hcell.
  exists tmp', (relaxed params (streamed params grid jj ii)).
  split; [done|]. split; [exact Hrun|]. split; [done|]. split; [done|].
  exact Hframe.
Qed.

(** ** Time steps between walls *)

Section WallSteps.
Context {F : Type} {ops : FloatOps F} {sq : FloatSqrt F}.
Local Open Scope float_scope.

Variables (params : t_param F) (obstacles : ptr Z).
Let n : Z := (ny params * nx params)%Z.
Hypothesis Hnx : 0 < nx params.
Hypothesis Hny : 2 <= ny params.
Hypothesis Hobs : is_block n obstacles = true.
Hypothesis Hall : all_blocked obstacles = true.

Lemma accelerate_flow_all_blocked grid :
  wf_soa n grid = true -> accelerate_flow params obstacles grid = Some grid.
Proof.
  intros Hgrid. unfold accelerate_flow.
  set (w1 := density params ⊗ accel params ⊘ of_int 9).
  set (w2 := density params ⊗ accel params ⊘ of_int 36).
  set (jj := ny params - 2).
  destruct (accelerate_row_spec params obstacles grid w1 w2 Hgrid Hobs jj)
    as (grid' & Hrun & Hwf & Hdone & Hrest); [lia|lia|].
  rewrite Hrun. f_equal. apply (soa_ext n); [done..|]. intros k i Hi.
  destruct (decide (jj * nx params <= i < nx params + jj * nx params))
    as [Hrow|Hoff]; [|apply Hrest; lia].
  replace i with ((i - jj * nx params) + jj * nx params) by lia.
  rewrite Hdone by lia. unfold accelerated, accelerates.
  pose proof (all_blocked_blocked obstacles n
                (i - jj * nx params + jj * nx params) Hall Hobs) as Hb.
  unfold blocked in Hb. apply negb_true_iff in Hb; [|lia].
  rewrite Hb. simpl. symmetry. apply (load_rd n); [done|lia].
Qed.

Lemma timestep_all_blocked grid tmp :
  wf_soa n grid = true -> wf_soa n tmp = true ->
  exists tmp',
    fusion params obstacles grid tmp = Some (zero ⊘ of_int 0, tmp') /\
    timestep params obstacles grid tmp = Some (zero ⊘ of_int 0, grid, tmp') /\
    wf_soa n tmp' = true.
Proof.
  intros Hgrid Htmp.
  destruct (fusion_all_blocked params obstacles ltac:(lia) ltac:(lia)
              Hobs Hall grid tmp Hgrid Htmp) as (tmp' & _ & Hrun & Hwf & _).
  exists tmp'. split; [done|]. split; [|done].
  unfold timestep. rewrite accelerate_flow_all_blocked by done. simpl.
  by rewrite Hrun.
Qed.
End WallSteps.

(** X8: the time loop on a grid of obstacles only.  Whatever the
    acceleration, every step is a pure bounce-back: the acceleration stage
    changes nothing, and after the loop the current buffer is the initial
    grid when [maxIters] is even and its mirror image, the result of the
    first step, when [maxIters] is odd. *)
Theorem main_loop_between_walls
    {F : Type} {ops : FloatOps F} {sq : FloatSqrt F}
    (params : t_param F) (obstacles : ptr Z) (grid tmp : soa F)
    (av_vels : ptr F) :
  let n := (ny params * nx params)%Z in
  0 < nx params -> 2 <= ny params -> 0 <= maxIters params ->
  wf_soa n grid = true -> wf_soa n tmp = true ->
  is_block n obstacles = true -> all_blocked obstacles = true ->
  is_block (maxIters params) av_vels = true ->
  exists mirror tmp' av_vels',
    accelerate_flow params obstacles grid = Some grid /\
    timestep params obstacles grid tmp = Some ((zero ⊘ of_int 0)%fl, grid, mirror) /\
    timestep params obstacles mirror grid = Some ((zero ⊘ of_int 0)%fl, mirror, grid) /\
    main_loop params obstacles (grid, tmp, av_vels)
    = Some (if Z.even (maxIters params) then grid else mirror,
            tmp', av_vels').
Proof.
  intros n Hnx Hny Hiters Hgrid Htmp Hobs Hall Hav.
  destruct (bounce_back_twice params obstacles ltac:(lia) ltac:(lia)
              Hobs Hall grid tmp Hnx Hgrid Htmp)
    as (mirror & grid2 & Hrun1 & Hrun2 & ->).
  destruct (timestep_all_blocked params obstacles Hnx Hny Hobs Hall grid tmp
              Hgrid Htmp) as (mirror' & Hrun1' & Hstep1 & Hmirror).
  rewrite Hrun1 in Hrun1'. injection Hrun1' as <-.
  assert (Hstep2 : timestep params obstacles mirror grid
                   = Some ((zero ⊘ of_int 0)%fl, mirror, grid)).
  { destruct (timestep_all_blocked params obstacles Hnx Hny Hobs Hall
                mirror grid Hmirror Hgrid) as (grid' & Hrun2' & Hstep2 & _).
    rewrite Hrun2 in Hrun2'. by injection Hrun2' as <-. }
  assert (Hstep1' : forall scratch, wf_soa n scratch = true ->
            timestep params obstacles grid scratch
            = Some ((zero ⊘ of_int 0)%fl, grid, mirror)).
  { intros scratch Hscratch.
    destruct (timestep_all_blocked params obstacles Hnx Hny Hobs Hall
                grid scratch Hgrid Hscratch) as (m & Hrun & Hstep & _).
    rewrite (fusion_scratch params obstacles grid Hnx ltac:(lia) Hgrid Hobs
               scratch tmp Hscratch Htmp), Hrun1 in Hrun.
    by injection Hrun as <-. }
  exists mirror.
  destruct (for_loop_rule
    (fun tt (st : soa F * soa F * ptr F) =>
       st.1.1 = (if Z.even tt then grid else mirror) /\
       (Z.even tt = false -> st.1.2 = grid) /\
       wf_soa n st.1.2 = true /\
       is_block (maxIters params) st.2 = true)
    (maxIters params) (main_iteration params obstacles) (grid, tmp, av_vels))
    as ([[current tmp'] av_vels'] & Hrun & Hcurrent & _); [done| | |].
  - simpl. by repeat split.
  - intros tt [[current scratch] a] Htt (Hcurrent & Hscratch & Hwf & Ha).
    simpl in Hcurrent, Hscratch, Hwf, Ha. subst current.
    replace (tt + 1) with (Z.succ tt) by lia.
    rewrite Z.even_succ, <- Z.negb_even.
    unfold main_iteration.
    destruct (Z.even tt) eqn:Heven; simpl.
    + rewrite (Hstep1' scratch Hwf). simpl.
      destruct (array_set_block _ a tt (zero ⊘ of_int 0)%fl Ha Htt)
        as (a' & -> & Ha'). simpl.
      eexists. split; [reflexivity|]. simpl. by repeat split.
    + rewrite (Hscratch eq_refl), Hstep2. simpl.
      destruct (array_set_block _ a tt (zero ⊘ of_int 0)%fl Ha Htt)
        as (a' & -> & Ha'). simpl.
      eexists. split; [reflexivity|]. simpl. by repeat split.
  - simpl in Hcurrent. subst current. exists tmp', av_vels'.
    split; [by apply (accelerate_flow_all_blocked params obstacles)|].
    by repeat split.
Qed.

(** ** What [initialise] builds *)

Lemma array_get_set {A : Type} (p : ptr A) (j : Z) (v : A) (a : list A) (i : Z) :
  array_set p j v = Some a ->
  array_get (Some a) i = if decide (i = j) then Some v else array_get p i.
Proof.
  destruct p as [b|]; [|done]. unfold array_set, array_get. simpl.
  case_decide as Hj; [|done]. intros [= <-].
  destruct (decide (i = j)) as [->|Hne].
  - rewrite decide_True by lia. apply list_lookup_insert_eq. lia.
  - case_decide; [|done]. apply list_lookup_insert_ne. lia.
Qed.

Section InitialiseFacts.
Context {F : Type} {ops : FloatOps F} {sq : FloatSqrt F}.
Local Open Scope float_scope.

Variable params : t_param F.
Let n : Z := (ny params * nx params)%Z.
Hypothesis Hnx : 0 < nx params.
Hypothesis Hny : 0 < ny params.

Lemma init_grid_spec (grid : soa F) :
  wf_soa n grid = true ->
  exists grid',
    for_loop (ny params) (fun jj =>
      for_loop (nx params)
        (init_cell params (density params ⊗ of_int 4 ⊘ of_int 9)
           (density params ⊘ of_int 9) (density params ⊘ of_int 36) jj)) grid
    = Some grid' /\
    wf_soa n grid' = true /\
    forall jj ii k, 0 <= jj < ny params -> 0 <= ii < nx params ->
      load grid' k (ii + jj * nx params)
      = Some (equilibrium_cell (density params) k).
Proof.
  intros Hgrid.
  destruct (grid_loop_rule
    (fun p g =>
       wf_soa n g = true /\
       forall jj ii k, 0 <= jj < ny params -> 0 <= ii < nx params ->
         ii + jj * nx params < p ->
         load g k (ii + jj * nx params)
         = Some (equilibrium_cell (density params) k))
    (nx params) (ny params)
    (init_cell params (density params ⊗ of_int 4 ⊘ of_int 9)
       (density params ⊘ of_int 9) (density params ⊘ of_int 36)) grid)
    as (grid' & Hrun & Hwf & Hdone); [lia|lia| | |].
  - split; [done|]. intros jj ii k Hj Hi Hlt.
    pose proof (idx_range _ _ _ _ Hi Hj). lia.
  - intros jj ii g Hj Hi [Hg Hdone].
    pose proof (idx_range _ _ _ _ Hi Hj) as Hidx. fold n in Hidx.
    unfold init_cell. set (idx := ii + jj * nx params) in *.
    assert (Hbase : load g S0 idx = load g S0 idx) by done.
    exec n Hbase. eexists. split; [reflexivity|]. clear Hbase.
    split; [side n|].
    intros jj' ii' k Hj' Hi' Hlt.
    destruct (decide (ii' + jj' * nx params = idx)) as [Heq|Hne].
    + rewrite Heq. destruct k; frame n; reflexivity.
    + frame n. apply Hdone; [done..|]. unfold idx in *. lia.
  - exists grid'. split; [done|]. split; [done|].
    intros jj ii k Hj Hi. apply Hdone; [done..|].
    pose proof (idx_range _ _ _ _ Hi Hj). lia.
Qed.

Lemma zero_obstacles_spec (obstacles : ptr Z) :
  is_block n obstacles = true ->
  exists obstacles',
    for_loop (ny params) (fun jj =>
      for_loop (nx params) (fun ii obstacles =>
        a ← array_set obstacles (ii + jj * nx params)%Z 0%Z;
        Some (Some a))) obstacles = Some obstacles' /\
    is_block n obstacles' = true /\
    forall jj ii, 0 <= jj < ny params -> 0 <= ii < nx params ->
      array_get obstacles' (ii + jj * nx params) = Some 0.
Proof.
  intros Hobs.
  destruct (grid_loop_rule
    (fun p (o : ptr Z) =>
       is_block n o = true /\
       forall jj ii, 0 <= jj < ny params -> 0 <= ii < nx params ->
         ii + jj * nx params < p ->
         array_get o (ii + jj * nx params) = Some 0)
    (nx params) (ny params)
    (fun jj ii (obstacles : ptr Z) =>
       a ← array_set obstacles (ii + jj * nx params)%Z 0%Z; Some (Some a))
    obstacles) as (o' & Hrun & Hb & Hdone); [lia|lia| | |].
  - split; [done|]. intros jj ii Hj Hi Hlt.
    pose proof (idx_range _ _ _ _ Hi Hj). lia.
  - intros jj ii o Hj Hi [Ho Hdone].
    pose proof (idx_range _ _ _ _ Hi Hj) as Hidx.
    destruct (array_set_block _ o _ 0 Ho Hidx) as (a & Hset & Ha).
    rewrite Hset. simpl. eexists. split; [reflexivity|]. split; [done|].
    intros jj' ii' Hj' Hi' Hlt.
    rewrite (array_get_set _ _ _ _ _ Hset). case_decide; [done|].
    apply Hdone; [done..|lia].
  - exists o'. split; [done|]. split; [done|].
    intros jj ii Hj Hi. apply Hdone; [done..|].
    pose proof (idx_range _ _ _ _ Hi Hj). lia.
Qed.

Lemma read_obstacles_spec lines : forall obstacles : ptr Z,
  valid_obstacle_file params lines = true ->
  is_block n obstacles = true ->
  exists obstacles',
    read_obstacles params lines obstacles = Done obstacles' /\
    is_block n obstacles' = true /\
    forall jj ii, 0 <= jj < ny params -> 0 <= ii < nx params ->
      array_get obstacles' (ii + jj * nx params)
      = if listed lines ii jj then Some 1
        else array_get obstacles (ii + jj * nx params).
Proof.
  induction lines as [|[[[xx yy] b]|] lines IH]; intros obstacles Hvalid Hobs;
    simpl in Hvalid.
  - exists obstacles. by repeat split.
  - apply andb_prop in Hvalid as [Hline Hvalid].
    repeat (apply andb_prop in Hline as [Hline ?]).
    assert (b = 1) as -> by lia.
    simpl. rewrite !decide_False by lia.
    destruct (array_set_block n obstacles (xx + yy * nx params) 1 Hobs)
      as (a & Hset & Ha); [apply idx_range; lia|].
    rewrite Hset. simpl.
    destruct (IH (Some a) Hvalid Ha) as (o' & Hrun & Hb' & Hflags).
    exists o'. split; [done|]. split; [done|].
    intros jj ii Hj Hi. rewrite Hflags by done.
    destruct (listed lines ii jj); [by rewrite orb_true_r|].
    rewrite orb_false_r, (array_get_set _ _ _ _ _ Hset).
    destruct (Z.eqb_spec xx ii) as [->|Hx];
      destruct (Z.eqb_spec yy jj) as [->|Hy]; simpl.
    + by rewrite decide_True.
    + rewrite decide_False; [done|].
      intros Heq. apply idx_inj in Heq as [_ ?]; [done|lia..].
    + rewrite decide_False; [done|].
      intros Heq. apply idx_inj in Heq as [? _]; [done|lia..].
    + rewrite decide_False; [done|].
      intros Heq. apply idx_inj in Heq as [? _]; [done|lia..].
  - done.
Qed.

Lemma read_obstacles_rejects pre bad rest msg : forall obstacles : ptr Z,
  valid_obstacle_file params pre = true ->
  record_diagnostic params bad = Some msg ->
  is_block n obstacles = true ->
  read_obstacles params (pre ++ bad :: rest) obstacles = Died msg.
Proof.
  induction pre as [|[[[xx yy] b]|] pre IH]; intros obstacles Hvalid Hbad Hobs;
    simpl in Hvalid.
  - simpl. destruct bad as [[[xx yy] b]|]; simpl in *.
    + repeat case_decide; by simplify_eq.
    + by simplify_eq.
  - apply andb_prop in Hvalid as [Hline Hvalid].
    repeat (apply andb_prop in Hline as [Hline ?]).
    simpl. rewrite !decide_False by lia.
    destruct (array_set_block n obstacles (xx + yy * nx params) b Hobs)
      as (a & -> & Ha); [apply idx_range; lia|].
    simpl. by apply IH.
  - done.
Qed.

Lemma initialise_spec alloc_ok junk lines :
  0 <= maxIters params ->
  (forall k, alloc_ok k = true) ->
  valid_obstacle_file params lines = true ->
  exists st,
    initialise alloc_ok junk params lines = Done st /\
    wf_soa n (st_grid st) = true /\
    is_block n (st_obstacles st) = true /\
    (forall jj ii k, 0 <= jj < ny params -> 0 <= ii < nx params ->
       load (st_grid st) k (ii + jj * nx params)
       = Some (equilibrium_cell (density params) k)) /\
    st_tmp_grid st = uniform_soa (Z.to_nat n) (fun _ => junk) /\
    st_av_vels st = Some (replicate (Z.to_nat (maxIters params)) junk) /\
    (forall jj ii, 0 <= jj < ny params -> 0 <= ii < nx params ->
       array_get (st_obstacles st) (ii + jj * nx params)
       = Some (if listed lines ii jj then 1 else 0)).
Proof.
  intros Hiters Halloc Hvalid. unfold initialise. rewrite !Halloc.
  assert (Hn : 0 <= n) by (unfold n; nia).
  pose proof (malloc_block n junk Hn) as Hblock.
  set (fresh := {| s0 := malloc true n junk; s1 := malloc true n junk;
                   s2 := malloc true n junk; s3 := malloc true n junk;
                   s4 := malloc true n junk; s5 := malloc true n junk;
                   s6 := malloc true n junk; s7 := malloc true n junk;
                   s8 := malloc true n junk |}).
  assert (Hfresh : wf_soa n fresh = true).
  { apply wf_soa_intro. by intros []. }
  fold n. fold fresh.
  destruct (init_grid_spec fresh Hfresh) as (grid & -> & Hgrid & Hcells).
  simpl.
  destruct (zero_obstacles_spec (Some (replicate (Z.to_nat n) 0%Z)))
    as (obstacles & -> & Hobs & Hzero); [by apply (malloc_block n 0%Z)|].
  simpl.
  destruct (read_obstacles_spec lines obstacles Hvalid Hobs)
    as (obstacles' & -> & Hobs' & Hflags). simpl.
  eexists. split; [reflexivity|]. simpl.
  split; [done|]. split; [done|]. split; [done|].
  split; [done|]. split; [done|].
  intros jj ii Hj Hi. rewrite Hflags, Hzero by done.
  by destruct (listed lines ii jj).
Qed.
End InitialiseFacts.

(** X9: the buffers [initialise] hands over.  When every allocation
    succeeds and the obstacle file is valid, every cell of the first
    buffer holds [density * 4 / 9] in direction 0, [density / 9] in
    directions 1 to 4 and [density / 36] in directions 5 to 8; the second
    buffer and the average-velocity array are allocated ([nx * ny] and
    [maxIters] elements) and left as the allocator returned them. *)
Theorem initialise_buffers {F : Type} {ops : FloatOps F} {sq : FloatSqrt F}
    (alloc_ok : nat -> bool) (junk : F) (params : t_param F)
    (obstaclefile : list (option (Z * Z * Z))) :
  let n := (ny params * nx params)%Z in
  0 < nx params -> 0 < ny params -> 0 <= maxIters params ->
  (forall k, alloc_ok k = true) ->
  valid_obstacle_file params obstaclefile = true ->
  exists st,
    initialise alloc_ok junk params obstaclefile = Done st /\
    (forall jj ii, 0 <= jj < ny params -> 0 <= ii < nx params ->
       let idx := (ii + jj * nx params)%Z in
       load (st_grid st) S0 idx
       = Some (density params ⊗ of_int 4 ⊘ of_int 9)%fl /\
       (forall k, In k [S1; S2; S3; S4] ->
          load (st_grid st) k idx = Some (density params ⊘ of_int 9)%fl) /\
       (forall k, In k [S5; S6; S7; S8] ->
          load (st_grid st) k idx = Some (density params ⊘ of_int 36)%fl)) /\
    (forall k, field k (st_tmp_grid st) = Some (replicate (Z.to_nat n) junk)) /\
    st_av_vels st = Some (replicate (Z.to_nat (maxIters params)) junk).
Proof.
  intros n Hnx Hny Hiters Halloc Hvalid.
  destruct (initialise_spec params Hnx Hny alloc_ok junk obstaclefile
              Hiters Halloc Hvalid)
    as (st & Hrun & _ & _ & Hcells & Htmp & Hav & _).
  exists st. split; [done|]. split; [|split; [|done]].
  - intros jj ii Hj Hi idx. subst idx.
    split; [apply (Hcells jj ii S0 Hj Hi)|].
    split; intros k Hk; rewrite (Hcells jj ii k Hj Hi);
      simpl in Hk; by destruct Hk as [<-|[<-|[<-|[<-|[]]]]].
  - intros k. rewrite Htmp. by destruct k.
Qed.

(** X10: the obstacle mask [initialise] builds.  For a valid obstacle
    file the flag of a cell is 1 when some record of the file names the
    cell and 0 otherwise; listing a cell more than once changes nothing. *)
Theorem initialise_mask {F : Type} {ops : FloatOps F} {sq : FloatSqrt F}
    (alloc_ok : nat -> bool) (junk : F) (params : t_param F)
    (obstaclefile : list (option (Z * Z * Z))) :
  0 < nx params -> 0 < ny params -> 0 <= maxIters params ->
  (forall k, alloc_ok k = true) ->
  valid_obstacle_file params obstaclefile = true ->
  exists st,
    initialise alloc_ok junk params obstaclefile = Done st /\
    is_block (ny params * nx params) (st_obstacles st) = true /\
    forall xx yy, 0 <= xx < nx params -> 0 <= yy < ny params ->
      (In (Some (xx, yy, 1)) obstaclefile ->
         array_get (st_obstacles st) (xx + yy * nx params) = Some 1) /\
      (~ In (Some (xx, yy, 1)) obstaclefile ->
         array_get (st_obstacles st) (xx + yy * nx params) = Some 0).
Proof.
  intros Hnx Hny Hiters Halloc Hvalid.
  destruct (initialise_spec params Hnx Hny alloc_ok junk obstaclefile
              Hiters Halloc Hvalid)
    as (st & Hrun & _ & Hobs & _ & _ & _ & Hflags).
  exists st. split; [done|]. split; [done|].
  intros xx yy Hx Hy. rewrite (Hflags yy xx Hy Hx).
  assert (Hlisted : listed obstaclefile xx yy = true
                    <-> In (Some (xx, yy, 1)) obstaclefile).
  { unfold listed. rewrite existsb_exists. split.
    - intros ([[[x y] b]|] & Hin & Hxy); [|done].
      apply andb_prop in Hxy as [->%Z.eqb_eq ->%Z.eqb_eq].
      unfold valid_obstacle_file in Hvalid. rewrite forallb_forall in Hvalid.
      specialize (Hvalid _ Hin). simpl in Hvalid.
      apply andb_prop in Hvalid as [_ ->%Z.eqb_eq]. done.
    - intros Hin. exists (Some (xx, yy, 1)). split; [done|].
      by rewrite !Z.eqb_refl. }
  split.
  - intros Hin. apply Hlisted in Hin. by rewrite Hin.
  - intros Hnot. destruct (listed obstaclefile xx yy) eqn:Hl; [|done].
    exfalso. by apply Hnot, Hlisted.
Qed.

(** X11: the first offending record of the obstacle file decides.  The
    records are the results of the successive calls of [fscanf], which
    takes the integers of the file three at a time across line breaks.
    When the records before it are valid, [initialise] dies with the
    diagnostic of the first record that fails a check (fewer than three
    integers converted; else x out of range; else y out of range; else a
    blocked value other than 1), whatever follows it. *)
Theorem initialise_rejects_obstacle_record
    {F : Type} {ops : FloatOps F} {sq : FloatSqrt F}
    (alloc_ok : nat -> bool) (junk : F) (params : t_param F)
    (pre rest : list (option (Z * Z * Z))) (bad : option (Z * Z * Z))
    (message : string) :
  0 < nx params -> 0 < ny params ->
  (forall k, alloc_ok k = true) ->
  valid_obstacle_file params pre = true ->
  record_diagnostic params bad = Some message ->
  initialise alloc_ok junk params (pre ++ bad :: rest) = Died message.
Proof.
  intros Hnx Hny Halloc Hvalid Hbad. unfold initialise. rewrite !Halloc.
  set (n := ny params * nx params).
  assert (Hn : 0 <= n) by (unfold n; nia).
  pose proof (malloc_block n junk Hn) as Hblock.
  set (fresh := {| s0 := malloc true n junk; s1 := malloc true n junk;
                   s2 := malloc true n junk; s3 := malloc true n junk;
                   s4 := malloc true n junk; s5 := malloc true n junk;
                   s6 := malloc true n junk; s7 := malloc true n junk;
                   s8 := malloc true n junk |}).
  assert (Hfresh : wf_soa n fresh = true).
  { apply wf_soa_intro. by intros []. }
  destruct (init_grid_spec params Hnx Hny fresh Hfresh) as (grid & -> & _).
  simpl.
  destruct (zero_obstacles_spec params Hnx Hny
              (Some (replicate (Z.to_nat n) 0%Z)))
    as (obstacles & -> & Hobs & _); [by apply (malloc_block n 0%Z)|].
  simpl.
  by rewrite (read_obstacles_rejects params pre bad rest message obstacles).
Qed.

(** X12: a failed allocation of the obstacle mask is reported.  When the
    nine arrays of the first buffer are allocated and the allocation of
    the mask fails, [initialise] dies with "cannot allocate column memory
    for obstacles", before it looks at the obstacle file. *)
Theorem initialise_reports_mask_allocation
    {F : Type} {ops : FloatOps F} {sq : FloatSqrt F}
    (alloc_ok : nat -> bool) (junk : F) (params : t_param F)
    (obstaclefile : list (option (Z * Z * Z))) :
  0 < nx params -> 0 < ny params ->
  (forall k, (k < 9)%nat -> alloc_ok k = true) ->
  alloc_ok 18%nat = false ->
  initialise alloc_ok junk params obstaclefile
  = Died "cannot allocate column memory for obstacles".
Proof.
  intros Hnx Hny Halloc Hmask. unfold initialise.
  rewrite (Halloc 0%nat), (Halloc 1%nat), (Halloc 2%nat), (Halloc 3%nat),
    (Halloc 4%nat), (Halloc 5%nat), (Halloc 6%nat), (Halloc 7%nat),
    (Halloc 8%nat), Hmask by lia.
  set (n := ny params * nx params).
  assert (Hn : 0 <= n) by (unfold n; nia).
  pose proof (malloc_block n junk Hn) as Hblock.
  set (fresh := {| s0 := malloc true n junk; s1 := malloc true n junk;
                   s2 := malloc true n junk; s3 := malloc true n junk;
                   s4 := malloc true n junk; s5 := malloc true n junk;
                   s6 := malloc true n junk; s7 := malloc true n junk;
                   s8 := malloc true n junk |}).
  assert (Hfresh : wf_soa n fresh = true).
  { apply wf_soa_intro. by intros []. }
  destruct (init_grid_spec params Hnx Hny fresh Hfresh) as (grid & -> & _).
  reflexivity.
Qed.

(** ** The files [write_values] and [main] produce *)

Lemma av_vels_file_zip {F : Type} (maxIters : Z) (a : list F) :
  Z.of_nat (length a) = maxIters ->
  for_loop maxIters (fun ii out =>
    v ← array_get (Some a) ii; Some (out ++ [(ii, v)])) []
  = Some (zip (seqZ 0 maxIters) a).
Proof.
  intros Hlen.
  destruct (for_loop_rule
    (fun p (out : list (Z * F)) =>
       out = zip (seqZ 0 p) (take (Z.to_nat p) a))
    maxIters
    (fun ii out => v ← array_get (Some a) ii; Some (out ++ [(ii, v)])) [])
    as (av & -> & ->); [lia|done| |].
  - intros ii out Hii ->.
    destruct (lookup_lt_is_Some_2 a (Z.to_nat ii)) as [v Hv]; [lia|].
    exists (zip (seqZ 0 ii) (take (Z.to_nat ii) a) ++ [(ii, v)]).
    split.
    + unfold array_get. simpl. rewrite decide_True by lia.
      by rewrite Hv.
    + rewrite seqZ_app by lia.
      replace (Z.to_nat (ii + 1)) with (Datatypes.S (Z.to_nat ii)) by lia.
      rewrite (take_S_r _ _ _ Hv).
      rewrite zip_with_app; [done|].
      rewrite length_seqZ, length_take. lia.
  - by rewrite firstn_all2 by lia.
Qed.

(** X13: the average-velocity file.  When [av_vels] holds [maxIters]
    values, [write_values] writes one line per time step, in order: line
    [tt] is the pair of [tt] and [av_vels[tt]]. *)
Theorem write_values_average_velocities
    {F : Type} {ops : FloatOps F} {sq : FloatSqrt F}
    (params : t_param F) (obstacles : ptr Z) (a : list F) (grid : soa F) :
  let n := (ny params * nx params)%Z in
  0 < nx params -> nx params <= ny params ->
  wf_soa n grid = true -> is_block n obstacles = true ->
  Z.of_nat (length a) = maxIters params ->
  exists final_state,
    write_values params obstacles (Some a) grid
    = Some (final_state, zip (seqZ 0 (maxIters params)) a).
Proof.
  intros n Hnx Hle Hgrid Hobs Hlen.
  destruct (final_state_spec params obstacles grid Hgrid Hobs)
    as (final_state & Hrun & _); [lia|lia| |].
  { intros jj ii Hj Hi. nia. }
  exists final_state. unfold write_values. rewrite Hrun. simpl.
  by rewrite av_vels_file_zip.
Qed.

(** X14: a run of no time steps.  With [maxIters = 0] the program
    reports on the grid [initialise] built: the Reynolds number and the
    final-state file are those of the initial grid, and the
    average-velocity file is empty. *)
Theorem main_without_iterations
    {F : Type} {ops : FloatOps F} {sq : FloatSqrt F}
    (alloc_ok : nat -> bool) (junk : F) (params : t_param F)
    (obstaclefile : list (option (Z * Z * Z))) :
  0 < nx params -> nx params <= ny params -> maxIters params = 0 ->
  (forall k, alloc_ok k = true) ->
  valid_obstacle_file params obstaclefile = true ->
  exists st r,
    initialise alloc_ok junk params obstaclefile = Done st /\
    main alloc_ok junk params obstaclefile = Done r /\
    calc_reynolds params (st_obstacles st) (st_grid st)
    = Some (r_reynolds r) /\
    length (r_final_state r) = Z.to_nat (ny params * nx params) /\
    (forall jj ii, 0 <= jj < ny params -> 0 <= ii < nx params ->
       r_final_state r !! Z.to_nat (ii + jj * nx params)
       = Some (line_of params (st_obstacles st) (st_grid st) jj ii)) /\
    r_av_vels r = [].
Proof.
  intros Hnx Hle Hiters Halloc Hvalid.
  destruct (initialise_total params Hnx ltac:(lia) alloc_ok junk obstaclefile
              ltac:(lia) Halloc Hvalid)
    as (st & Hinit & Hgrid & Htmp & Hobs & Hav).
  destruct (av_velocity_total params Hnx ltac:(lia) (st_obstacles st)
              (st_grid st) Hgrid Hobs) as (av & Hvel).
  destruct (is_block_Some _ _ Hav) as (a & Ha & Hlen).
  destruct (final_state_spec params (st_obstacles st) (st_grid st) Hgrid Hobs)
    as (final_state & Hrun & Hlength & Hlines); [lia|lia| |].
  { intros jj ii Hj Hi. nia. }
  assert (Hwrite : write_values params (st_obstacles st) (st_av_vels st)
                     (st_grid st) = Some (final_state, [])).
  { unfold write_values. rewrite Hrun. simpl. by rewrite Hiters. }
  eexists st, _. split; [done|]. split.
  { unfold main, main_loop. rewrite Hinit, Hiters. simpl.
    unfold calc_reynolds. rewrite Hvel. simpl. rewrite Hwrite. simpl.
    reflexivity. }
  simpl. unfold calc_reynolds. rewrite Hvel. by repeat split.
Qed.

(** ** The copy loop of [test.c] *)

Lemma for_loop_stops {S : Type} (n : Z) (body : Z -> S -> option S) (s : S) :
  0 < n -> body 0 s = None -> for_loop n body s = None.
Proof.
  intros Hn Hbody. unfold for_loop. rewrite seqZ_cons by lia. simpl.
  by rewrite Hbody.
Qed.

Lemma foo_spec {A : Type} (g t : list A) :
  Z.of_nat (length g) = 128 * 128 -> Z.of_nat (length t) = 128 * 128 ->
  foo (Some g) (Some t) = Some (Some t).
Proof.
  intros Hg Ht. unfold foo.
  destruct (grid_loop_rule
    (fun p (s : ptr A) =>
       exists l, s = Some l /\ length l = length g /\
                 take (Z.to_nat p) l = take (Z.to_nat p) t)
    128 128
    (fun jj ii grid_ptr =>
       v ← array_get (Some t) (ii + jj * 128);
       a ← array_set grid_ptr (ii + jj * 128) v;
       Some (Some a))
    (Some g)) as (s & -> & l & -> & Hlen & Htake); [lia|lia| | |].
  - exists g. by rewrite take_0.
  - intros jj ii s Hj Hi (l & -> & Hlen & Htake).
    set (idx := ii + jj * 128) in *.
    assert (Hidx : 0 <= idx < 128 * 128) by (unfold idx; lia).
    destruct (lookup_lt_is_Some_2 t (Z.to_nat idx)) as [v Hv]; [lia|].
    exists (Some (<[Z.to_nat idx := v]> l)). split.
    + unfold array_get, array_set. simpl.
      rewrite decide_True by lia. rewrite Hv. simpl.
      by rewrite decide_True by lia.
    + eexists. split; [done|]. split; [by rewrite length_insert|].
      replace (Z.to_nat (idx + 1)) with (Datatypes.S (Z.to_nat idx)) by lia.
      rewrite (take_S_r t _ v Hv).
      rewrite (take_S_r _ _ v); [|apply list_lookup_insert_eq; lia].
      by rewrite take_insert_ge, Htake by lia.
  - rewrite !firstn_all2 in Htake by lia. by subst l.
Qed.

(** Through a null pointer the first assignment is already undefined. *)
Lemma foo_null_l {A : Type} (tmp_grid_ptr : ptr A) : foo None tmp_grid_ptr = None.
Proof.
  unfold foo. apply for_loop_stops; [lia|]. apply for_loop_stops; [lia|].
  by destruct (array_get tmp_grid_ptr (0 + 0 * 128)).
Qed.

Lemma foo_null_r {A : Type} (grid_ptr : ptr A) : foo grid_ptr None = None.
Proof.
  unfold foo. apply for_loop_stops; [lia|]. by apply for_loop_stops; [lia|].
Qed.

(** X15: [foo] is a copy.  On two blocks of [128 * 128] elements it
    leaves in the first exactly the contents of the second. *)
Theorem foo_copies {A : Type} (g t : list A) :
  Z.of_nat (length g) = 128 * 128 -> Z.of_nat (length t) = 128 * 128 ->
  foo (Some g) (Some t) = Some (Some t).
Proof. apply foo_spec. Qed.

(** X16: the driver of [test.c] does not check its allocations.  When
    both succeed, the hundred calls of [foo] end with the first block a
    copy of the second, still as the allocator returned it; when either
    fails, the first call of [foo] goes through a null pointer. *)
Theorem test_main_unchecked {A : Type} (alloc_ok : nat -> bool)
    (junk1 junk2 : A) :
  test_main alloc_ok junk1 junk2
  = if alloc_ok 0%nat && alloc_ok 1%nat
    then Some (Some (replicate (Z.to_nat (128 * 128)) junk2))
    else None.
Proof.
  unfold test_main.
  destruct (alloc_ok 0%nat); [destruct (alloc_ok 1%nat)|]; simpl andb; cbv iota.
  - unfold malloc.
    set (g := replicate (Z.to_nat (128 * 128)) junk1).
    set (t := replicate (Z.to_nat (128 * 128)) junk2).
    assert (Hg : Z.of_nat (length g) = 128 * 128).
    { unfold g. rewrite length_replicate. lia. }
    assert (Ht : Z.of_nat (length t) = 128 * 128).
    { unfold t. rewrite length_replicate. lia. }
    destruct (for_loop_rule
      (fun p (s : ptr A) =>
         exists l, s = Some l /\ Z.of_nat (length l) = 128 * 128 /\
                   (0 < p -> l = t))
      100 (fun _ grid_ptr => foo grid_ptr (Some t)) (Some g))
      as (s & -> & l & -> & _ & Hl); [lia| | |].
    + exists g. split; [done|]. split; [done|lia].
    + intros i s _ (l & -> & Hlen & _). exists (Some t).
      split; [by apply foo_spec|].
      exists t. split; [reflexivity|]. split; [exact Ht|reflexivity].
    + by rewrite Hl by lia.
  - apply for_loop_stops; [lia|]. apply foo_null_r.
  - apply for_loop_stops; [lia|]. apply foo_null_l.
Qed.

(** ** The relaxation of [collision] in exact arithmetic *)

Section ExactCollision.
Local Open Scope Q_scope.
Variable params : t_param Q.

Lemma collision_mass (t : speed -> Q) :
  ~ cell_mass t == 0 ->
  cell_mass (collision_relax params t) == cell_mass t.
Proof.
  unfold cell_mass, collision_relax, collision_d_equ, zero, one. simpl.
  generalize (t S0) (t S1) (t S2) (t S3) (t S4) (t S5) (t S6) (t S7) (t S8).
  intros q0 q1 q2 q3 q4 q5 q6 q7 q8 Hm. unfold inject_Z in *.
  field. intros H. apply Hm. lra.
Qed.

Lemma collision_momentum_x (t : speed -> Q) :
  ~ cell_mass t == 0 ->
  cell_momentum_x (collision_relax params t) == cell_momentum_x t.
Proof.
  unfold cell_mass, cell_momentum_x, collision_relax, collision_d_equ, zero, one.
  simpl.
  generalize (t S0) (t S1) (t S2) (t S3) (t S4) (t S5) (t S6) (t S7) (t S8).
  intros q0 q1 q2 q3 q4 q5 q6 q7 q8 Hm. unfold inject_Z in *.
  field. intros H. apply Hm. lra.
Qed.

Lemma collision_momentum_y (t : speed -> Q) :
  ~ cell_mass t == 0 ->
  cell_momentum_y (collision_relax params t) == cell_momentum_y t.
Proof.
  unfold cell_mass, cell_momentum_y, collision_relax, collision_d_equ, zero, one.
  simpl.
  generalize (t S0) (t S1) (t S2) (t S3) (t S4) (t S5) (t S6) (t S7) (t S8).
  intros q0 q1 q2 q3 q4 q5 q6 q7 q8 Hm. unfold inject_Z in *.
  field. intros H. apply Hm. lra.
Qed.
End ExactCollision.

(** X17: the relaxation of [collision] keeps a cell at rest.  In exact
    arithmetic the nine values [initialise] writes for a density [rho]
    are a fixed point of the relaxation step, for every [omega]: the
    equilibrium computed from them is these values again. *)
Theorem collision_keeps_equilibrium (params : t_param Q) (rho : Q) (k : speed) :
  (~ rho == 0)%Q ->
  (collision_relax params (equilibrium_cell rho) k == equilibrium_cell rho k)%Q.
Proof.
  intros Hrho.
  unfold collision_relax, collision_d_equ, equilibrium_cell, zero, one.
  simpl. destruct k; unfold inject_Z; field; intros H; apply Hrho; lra.
Qed.

(** X18: the relaxation of [collision] conserves mass.  In exact
    arithmetic the nine relaxed values of a cell add up to the local
    density of the values they were computed from, for every [omega]. *)
Theorem collision_conserves_mass (params : t_param Q) (t : speed -> Q) :
  (~ cell_mass t == 0)%Q ->
  (cell_mass (collision_relax params t) == cell_mass t)%Q.
Proof. apply collision_mass. Qed.

(** X19: the relaxation of [collision] conserves momentum.  In exact
    arithmetic the relaxed values of a cell have the x- and y-momentum
    ([f1 + f5 + f8 - (f3 + f6 + f7)] and [f2 + f5 + f6 - (f4 + f7 + f8)])
    of the values they were computed from. *)
Theorem collision_conserves_momentum (params : t_param Q) (t : speed -> Q) :
  (~ cell_mass t == 0)%Q ->
  (cell_momentum_x (collision_relax params t) == cell_momentum_x t)%Q /\
  (cell_momentum_y (collision_relax params t) == cell_momentum_y t)%Q.
Proof.
  intros Hm. split.
  - by apply collision_momentum_x.
  - by apply collision_momentum_y.
Qed.

(** ** [total_density] *)

Section TotalDensity.
Context {F : Type} {ops : FloatOps F}.
Local Open Scope float_scope.

Lemma total_density_spec (params : t_param F) (cs : list (t_speed F)) :
  0 <= nx params -> 0 <= ny params ->
  Z.of_nat (length cs) = ny params * nx params ->
  total_density params (Some cs) = Some (sum_cells cs).
Proof.
  intros Hnx Hny Hlen. unfold total_density.
  destruct (grid_loop_rule
    (fun p (total : F) => total = sum_cells (take (Z.to_nat p) cs))
    (nx params) (ny params)
    (fun jj ii =>
       for_speeds speeds (fun kk total =>
         v ← load_speed (Some cs) (ii + jj * nx params) kk;
         Some (total ⊕ v)))
    zero) as (total & -> & ->); [done|done|done| |].
  - intros jj ii total Hj Hi ->.
    pose proof (idx_range _ _ _ _ Hi Hj) as Hidx.
    set (idx := ii + jj * nx params) in *.
    destruct (lookup_lt_is_Some_2 cs (Z.to_nat idx)) as [c Hc]; [lia|].
    assert (Hload : forall kk, load_speed (Some cs) idx kk
                               = Some (speed_values c kk)).
    { intros kk. unfold load_speed, array_get. simpl.
      rewrite decide_True by lia. by rewrite Hc. }
    eexists. split.
    + simpl. rewrite !Hload. simpl. reflexivity.
    + replace (Z.to_nat (idx + 1)) with (Datatypes.S (Z.to_nat idx)) by lia.
      rewrite (take_S_r _ _ _ Hc). unfold sum_cells.
      by rewrite foldl_app.
  - by rewrite firstn_all2 by lia.
Qed.
End TotalDensity.

(** X20: [total_density] adds every value of the array once.  On an
    array of [nx * ny] cells it returns the sum that starts from 0 and
    adds the nine values of each cell, cells in memory order and
    directions 0 to 8 within a cell; obstacle cells are counted like any
    other. *)
Theorem total_density_sums {F : Type} {ops : FloatOps F}
    (params : t_param F) (cs : list (t_speed F)) :
  0 <= nx params -> 0 <= ny params ->
  Z.of_nat (length cs) = ny params * nx params ->
  total_density params (Some cs)
  = Some (foldl (fun total c =>
                   (total ⊕ speed_values c S0 ⊕ speed_values c S1
                    ⊕ speed_values c S2 ⊕ speed_values c S3
                    ⊕ speed_values c S4 ⊕ speed_values c S5
                    ⊕ speed_values c S6 ⊕ speed_values c S7
                    ⊕ speed_values c S8)%fl) (of_int 0) cs).
Proof. apply total_density_spec. Qed.

Section ExactTotals.
Local Open Scope Q_scope.

Lemma add_cell_mass (a : Q) (c : t_speed Q) :
  add_cell a c == a + cell_mass (speed_values c).
Proof.
  unfold add_cell, cell_mass, zero. simpl. unfold inject_Z. ring.
Qed.

Lemma sum_cells_ext (l k : list (t_speed Q)) :
  Forall2 (fun c d => cell_mass (speed_values c) == cell_mass (speed_values d))
    l k ->
  forall a b, a == b -> foldl add_cell a l == foldl add_cell b k.
Proof.
  induction 1 as [|c d l k Hcd _ IH]; intros a b Hab; [done|].
  simpl. apply IH. by rewrite !add_cell_mass, Hcd, Hab.
Qed.

Lemma collision_total_density (params : t_param Q)
    (cells tmp_cells : ptr (t_speed Q)) (obstacles : ptr Z) :
  let n := (ny params * nx params)%Z in
  (0 < nx params)%Z -> (0 < ny params)%Z ->
  is_block n cells = true -> is_block n tmp_cells = true ->
  is_block n obstacles = true ->
  (forall i, (0 <= i < n)%Z ->
     if blocked obstacles i
     then cell_mass (rd_speed cells i) == cell_mass (rd_speed tmp_cells i)
     else ~ cell_mass (rd_speed tmp_cells i) == 0) ->
  exists cells' before after,
    collision params cells tmp_cells obstacles = Some cells' /\
    total_density params tmp_cells = Some before /\
    total_density params cells' = Some after /\
    after == before.
Proof.
  intros n Hnx Hny Hcells Htmp Hobs Hmass.
  destruct (collision_spec params Hnx Hny cells tmp_cells obstacles
              Hcells Htmp Hobs) as (cells' & Hrun & Hblock & Hcollided).
  destruct (is_block_Some _ _ Htmp) as (ts & -> & Hts).
  destruct (is_block_Some _ _ Hblock) as (cs & -> & Hcs).
  exists (Some cs), (sum_cells ts), (sum_cells cs).
  split; [done|].
  split; [apply total_density_spec; lia|].
  split; [apply total_density_spec; lia|].
  apply sum_cells_ext; [|done].
  apply Forall2_same_length_lookup_2; [lia|].
  intros i c t Hc Ht.
  pose proof (lookup_lt_Some _ _ _ Hc) as Hi.
  assert (Hrange : (0 <= Z.of_nat i < n)%Z) by lia.
  set (idx := Z.of_nat i) in *.
  assert (Hrd : forall k, rd_speed (Some ts) idx k = speed_values t k).
  { intros k. unfold rd_speed, load_speed, array_get. simpl.
    rewrite decide_True by lia. unfold idx. rewrite Nat2Z.id, Ht. done. }
  assert (Hnew : forall k,
            speed_values c k
            = collided params obstacles cells (Some ts) idx k).
  { intros k.
    specialize (Hcollided (idx `div` nx params)%Z (idx `mod` nx params)%Z k).
    replace (idx `mod` nx params + idx `div` nx params * nx params)%Z
      with idx in Hcollided
      by (rewrite (Z.div_mod idx (nx params)) at 1; lia).
    assert (Some (speed_values c k)
            = Some (collided params obstacles cells (Some ts) idx k))
      as [= ->]; [|done].
    rewrite <- Hcollided.
    - unfold load_speed, array_get. simpl. rewrite decide_True by lia.
      unfold idx. by rewrite Nat2Z.id, Hc.
    - split; [apply Z.div_pos; lia|]. apply Z.div_lt_upper_bound; lia.
    - apply Z.mod_pos_bound; lia. }
  specialize (Hmass idx Hrange).
  transitivity (cell_mass (collided params obstacles cells (Some ts) idx)).
  { unfold cell_mass. by rewrite !Hnew. }
  transitivity (cell_mass (rd_speed (Some ts) idx)).
  2:{ unfold cell_mass. by rewrite !Hrd. }
  unfold collided. destruct (blocked obstacles idx).
  - exact Hmass.
  - by apply collision_mass.
Qed.
End ExactTotals.

(** X21: [collision] conserves the total density.  In exact arithmetic,
    when no fluid cell of the scratch array has local density 0 and the
    obstacle cells of the two arrays hold the same mass (as they do after
    [rebound]), [total_density] of the array [collision] writes is
    [total_density] of the scratch array it read. *)
Theorem collision_conserves_total_density (params : t_param Q)
    (cells tmp_cells : ptr (t_speed Q)) (obstacles : ptr Z) :
  let n := (ny params * nx params)%Z in
  (0 < nx params)%Z -> (0 < ny params)%Z ->
  is_block n cells = true -> is_block n tmp_cells = true ->
  is_block n obstacles = true ->
  (forall i, (0 <= i < n)%Z ->
     if blocked obstacles i
     then (cell_mass (rd_speed cells i)
           == cell_mass (rd_speed tmp_cells i))%Q
     else (~ cell_mass (rd_speed tmp_cells i) == 0)%Q) ->
  exists cells' before after,
    collision params cells tmp_cells obstacles = Some cells' /\
    total_density params tmp_cells = Some before /\
    total_density params cells' = Some after /\
    (after == before)%Q.
Proof. apply collision_total_density. Qed.

(** ** Reads outside the arrays *)

Lemma array_get_outside {A : Type} (n : Z) (p : ptr A) (i : Z) :
  is_block n p = true -> i < 0 \/ n <= i -> array_get p i = None.
Proof.
  intros (a & -> & Hlen)%is_block_Some Hi. unfold array_get. simpl.
  case_decide; [|done]. apply lookup_ge_None. lia.
Qed.

Lemma array_get_negative {A : Type} (p : ptr A) (i : Z) :
  i < 0 -> array_get p i = None.
Proof.
  intros Hi. destruct p as [a|]; [|done]. unfold array_get. simpl.
  by rewrite decide_False by lia.
Qed.

Lemma for_each_fails {S : Type} (body : Z -> S -> option S) (i : Z) l :
  i ∈ l -> (forall s, body i s = None) -> forall s, for_each l body s = None.
Proof.
  intros Hin Hbody. induction l as [|j l IH]; intros s.
  - by apply elem_of_nil in Hin.
  - simpl. apply elem_of_cons in Hin as [<-|Hin].
    + by rewrite Hbody.
    + destruct (body j s); [by apply IH|done].
Qed.

Lemma for_loop_fails {S : Type} (n : Z) (body : Z -> S -> option S) (i : Z) :
  0 <= i < n -> (forall s, body i s = None) ->
  forall s, for_loop n body s = None.
Proof.
  intros Hi Hbody s. unfold for_loop. apply (for_each_fails body i); [|done].
  apply elem_of_seqZ. lia.
Qed.

(** X22: [accelerate_flow] needs two rows.  The row it works on is
    [ny - 2]; on a grid of fewer than two rows that row does not exist
    and the first read, of [obstacles[(ny - 2) * nx]], is at a negative
    index, whatever the arrays hold. *)
Theorem accelerate_flow_needs_two_rows {F : Type} {ops : FloatOps F}
    (params : t_param F) (obstacles : ptr Z) (grid : soa F) :
  0 < nx params -> ny params < 2 ->
  accelerate_flow params obstacles grid = None.
Proof.
  intros Hnx Hny. unfold accelerate_flow.
  apply for_loop_stops; [done|].
  unfold accelerate_cell, accelerate_guard.
  rewrite array_get_negative by nia. reflexivity.
Qed.

(** X23: [write_values] needs a grid at least as high as wide.  The flag
    it prints is read at the transposed index [ii * nx + jj]; when
    [ny < nx] the read for the last cell, at [(nx - 1) * nx + ny - 1],
    lies beyond the [nx * ny] elements of the obstacle array. *)
Theorem write_values_wide_reads_outside {F : Type} {ops : FloatOps F} {sq : FloatSqrt F}
    (params : t_param F) (obstacles : ptr Z) (av_vels : ptr F) (grid : soa F) :
  0 < ny params -> ny params < nx params ->
  is_block (ny params * nx params) obstacles = true ->
  write_values params obstacles av_vels grid = None.
Proof.
  intros Hny Hwide Hobs. unfold write_values.
  rewrite (for_loop_fails (ny params) _ (ny params - 1)); [done|lia|].
  intros out.
  apply (for_loop_fails (nx params) _ (nx params - 1)); [lia|].
  clear out. intros out. unfold write_values_cell.
  rewrite (array_get_outside _ obstacles
             ((nx params - 1) * nx params + (ny params - 1)) Hobs) by nia.
  destruct (array_get obstacles _) as [ob|]; [|done]. simpl.
  by destruct (if negb (ob =? 0) then _ else _) as [[[[u_x u_y] u] pressure]|].
Qed.

Lemma for_each_app {S : Type} (body : Z -> S -> option S) l1 l2 (s : S) :
  for_each (l1 ++ l2) body s = (s' ← for_each l1 body s; for_each l2 body s').
Proof.
  revert s. induction l1 as [|i l1 IH]; intros s; [done|].
  simpl. destruct (body i s) as [s1|]; [apply IH|done].
Qed.

Lemma for_loop_snoc {S : Type} (p : Z) (body : Z -> S -> option S) (s : S) :
  0 <= p -> for_loop (p + 1) body s = (s' ← for_loop p body s; body p s').
Proof.
  intros Hp. unfold for_loop. rewrite seqZ_app by lia.
  rewrite for_each_app. destruct (for_each (seqZ 0 p) body s) as [s'|]; [|done].
  simpl. replace (Z.of_nat 0 + (0 + p)) with p by lia.
  by destruct (body p s').
Qed.

Section Records.
Context {F : Type} {ops : FloatOps F} {sq : FloatSqrt F}.
Local Open Scope float_scope.

Variable params : t_param F.
Let n : Z := (ny params * nx params)%Z.
Hypothesis Hnx : 0 < nx params.
Hypothesis Hny : 2 <= ny params.

Lemma main_loop_records (obstacles : ptr Z) (grid tmp : soa F)
    (av_vels : ptr F) :
  0 <= maxIters params ->
  wf_soa n grid = true -> wf_soa n tmp = true ->
  is_block n obstacles = true ->
  is_block (maxIters params) av_vels = true ->
  exists grid' tmp' a,
    main_loop params obstacles (grid, tmp, av_vels)
    = Some (grid', tmp', Some a) /\
    wf_soa n grid' = true /\
    Z.of_nat (length a) = maxIters params /\
    forall tt, 0 <= tt < maxIters params ->
      exists g t a0 av g' t',
        for_loop tt (main_iteration params obstacles) (grid, tmp, av_vels)
        = Some (g, t, a0) /\
        timestep params obstacles g t = Some (av, g', t') /\
        a !! Z.to_nat tt = Some av.
Proof.
  intros Hiters Hgrid Htmp Hobs Hav. unfold main_loop.
  destruct (for_loop_rule
    (fun p (st : soa F * soa F * ptr F) =>
       for_loop p (main_iteration params obstacles) (grid, tmp, av_vels)
       = Some st /\
       wf_soa n st.1.1 = true /\ wf_soa n st.1.2 = true /\
       exists a, st.2 = Some a /\ Z.of_nat (length a) = maxIters params /\
         forall tt, 0 <= tt < p ->
           exists g t a0 av g' t',
             for_loop tt (main_iteration params obstacles) (grid, tmp, av_vels)
             = Some (g, t, a0) /\
             timestep params obstacles g t = Some (av, g', t') /\
             a !! Z.to_nat tt = Some av)
    (maxIters params) (main_iteration params obstacles) (grid, tmp, av_vels))
    as ([[grid' tmp'] av_vels'] & Hrun & _ & Hwf & _ & a & Ha & Hlen & Hrec);
    [done| | |].
  - split; [done|]. split; [done|]. split; [done|].
    destruct (is_block_Some _ _ Hav) as (a & -> & Hlen).
    exists a. split; [done|]. split; [done|]. intros tt Htt. lia.
  - intros p [[g t] a0] Hp (Hprefix & Hg & Ht & a & Ha & Hlen & Hrec).
    simpl in Hg, Ht, Ha. subst a0.
    destruct (timestep_total params ltac:(lia) ltac:(lia) obstacles g t Hny Hg Ht Hobs)
      as (av & g' & t' & Hstep & Hg' & Ht').
    exists (t', g', Some (<[Z.to_nat p := av]> a)).
    assert (Hbody : main_iteration params obstacles p (g, t, Some a)
                    = Some (t', g', Some (<[Z.to_nat p := av]> a))).
    { unfold main_iteration. rewrite Hstep. simpl.
      unfold array_set. simpl. by rewrite decide_True by lia. }
    split; [done|]. split.
    { rewrite for_loop_snoc by lia. rewrite Hprefix. done. }
    split; [done|]. split; [done|].
    exists (<[Z.to_nat p := av]> a). split; [done|].
    split; [by rewrite length_insert|].
    intros tt Htt. destruct (decide (tt = p)) as [->|Hne].
    + exists g, t, (Some a), av, g', t'. split; [done|]. split; [done|].
      apply list_lookup_insert_eq. lia.
    + destruct (Hrec tt) as (g1 & t1 & a1 & av1 & g1' & t1' & H1 & H2 & H3);
        [lia|].
      exists g1, t1, a1, av1, g1', t1'. split; [done|]. split; [done|].
      rewrite list_lookup_insert_ne by lia. done.
  - simpl in Hwf, Ha. subst av_vels'.
    exists grid', tmp', a. by repeat split.
Qed.
End Records.

(** X24: the average-velocity file of a run.  The file has [maxIters]
    lines, and line [tt] holds [tt] and the value the call of [timestep]
    in iteration [tt] returned, computed from the buffers the first [tt]
    iterations left; no later iteration overwrites it. *)
Theorem main_records_every_step
    {F : Type} {ops : FloatOps F} {sq : FloatSqrt F}
    (alloc_ok : nat -> bool) (junk : F) (params : t_param F)
    (obstaclefile : list (option (Z * Z * Z))) :
  0 < nx params -> nx params <= ny params -> 2 <= ny params ->
  0 <= maxIters params ->
  (forall k, alloc_ok k = true) ->
  valid_obstacle_file params obstaclefile = true ->
  exists st r,
    initialise alloc_ok junk params obstaclefile = Done st /\
    main alloc_ok junk params obstaclefile = Done r /\
    length (r_av_vels r) = Z.to_nat (maxIters params) /\
    forall tt, 0 <= tt < maxIters params ->
      exists grid tmp_grid av_vels av grid' tmp_grid',
        for_loop tt (main_iteration params (st_obstacles st))
          (st_grid st, st_tmp_grid st, st_av_vels st)
        = Some (grid, tmp_grid, av_vels) /\
        timestep params (st_obstacles st) grid tmp_grid
        = Some (av, grid', tmp_grid') /\
        r_av_vels r !! Z.to_nat tt = Some (tt, av).
Proof.
  intros Hnx Hle Hny Hiters Halloc Hvalid.
  destruct (initialise_total params Hnx ltac:(lia) alloc_ok junk obstaclefile
              Hiters Halloc Hvalid)
    as (st & Hinit & Hgrid & Htmp & Hobs & Hav).
  destruct (main_loop_records params Hnx Hny (st_obstacles st)
              (st_grid st) (st_tmp_grid st) (st_av_vels st)
              Hiters Hgrid Htmp Hobs Hav)
    as (grid & tmp_grid & a & Hloop & Hgrid' & Hlen & Hrec).
  destruct (av_velocity_total params Hnx ltac:(lia) (st_obstacles st) grid
              Hgrid' Hobs) as (av & Hvel).
  destruct (final_state_spec params (st_obstacles st) grid Hgrid' Hobs)
    as (final_state & Hrun & _); [lia|lia| |].
  { intros jj ii Hj Hi. nia. }
  eexists st, _. split; [done|]. split.
  { unfold main. rewrite Hinit. simpl. rewrite Hloop. simpl.
    unfold calc_reynolds. rewrite Hvel. simpl.
    unfold write_values. rewrite Hrun. simpl.
    rewrite av_vels_file_zip by done. simpl. reflexivity. }
  simpl. split.
  { rewrite length_zip_with, length_seqZ. lia. }
  intros tt Htt.
  destruct (Hrec tt Htt) as (g & t & a0 & av_tt & g' & t' & H1 & H2 & H3).
  exists g, t, a0, av_tt, g', t'. split; [done|]. split; [done|].
  apply lookup_zip_with_Some. exists tt, av_tt. split; [done|].
  split; [|done]. apply lookup_seqZ. lia.
Qed.

(** ** These theorems at concrete inputs *)

Lemma propagate_gathers_witness :
  exists tmp_cells',
    propagate Cells.params Cells.cells Cells.tmp_cells = Some tmp_cells' /\
    load_speed tmp_cells' 0 S1 = load_speed Cells.cells 1 S1 /\
    load_speed tmp_cells' 0 S5 = load_speed Cells.cells 3 S5.
Proof.
  destruct (propagate_gathers Cells.params Cells.cells Cells.tmp_cells)
    as (tmp_cells' & Hrun & _ & Hcells);
    [reflexivity|reflexivity|reflexivity|reflexivity|].
  exists tmp_cells'. split; [exact Hrun|].
  destruct (Hcells 0 0) as (_ & H1 & _ & _ & _ & H5 & _);
    [simpl; lia|simpl; lia|].
  split; [exact H1|exact H5].
Defined.

Lemma rebound_mirrors_witness :
  exists cells',
    rebound Cells.params Cells.cells Cells.tmp_cells Cells.obstacles
    = Some cells' /\
    load_speed cells' 0 S1 = load_speed Cells.tmp_cells 0 S3 /\
    forall k, load_speed cells' 1 k = load_speed Cells.cells 1 k.
Proof.
  destruct (rebound_mirrors Cells.params Cells.cells Cells.tmp_cells
              Cells.obstacles)
    as (cells' & Hrun & _ & Hcells);
    [reflexivity|reflexivity|reflexivity|reflexivity|reflexivity|].
  exists cells'. split; [exact Hrun|]. split.
  - destruct (Hcells 0 0 1) as [Hwall _];
      [simpl; lia|simpl; lia|reflexivity|].
    destruct Hwall as (_ & H1 & _); [lia|exact H1].
  - destruct (Hcells 0 1 0) as [_ Hfluid];
      [simpl; lia|simpl; lia|reflexivity|].
    apply Hfluid. reflexivity.
Defined.

Lemma collision_relaxes_fluid_cells_witness :
  exists cells',
    collision Cells.params Cells.cells Cells.tmp_cells Cells.obstacles
    = Some cells' /\
    (exists t,
       array_get Cells.tmp_cells 1 = Some t /\
       forall k,
         load_speed cells' 1 k
         = Some (speed_values t k
                 ⊕ omega Cells.params
                   ⊗ (collision_d_equ (speed_values t) k
                      ⊖ speed_values t k))%fl) /\
    forall k, load_speed cells' 0 k = load_speed Cells.cells 0 k.
Proof.
  destruct (collision_relaxes_fluid_cells Cells.params Cells.cells
              Cells.tmp_cells Cells.obstacles)
    as (cells' & Hrun & _ & Hcells);
    [reflexivity|reflexivity|reflexivity|reflexivity|reflexivity|].
  exists cells'. split; [exact Hrun|]. split.
  - destruct (Hcells 0 1 0) as [Hfluid _];
      [simpl; lia|simpl; lia|reflexivity|].
    apply Hfluid. reflexivity.
  - destruct (Hcells 0 0 1) as [_ Hwall];
      [simpl; lia|simpl; lia|reflexivity|].
    apply Hwall. lia.
Defined.

Lemma unfused_agrees_with_fusion_at_obstacles_witness :
  same_grid 4 Cells.cells Sample.grid /\
  exists tmp_cells' cells' av tmp_grid',
    propagate Cells.params Cells.cells Cells.tmp_cells = Some tmp_cells' /\
    rebound Cells.params Cells.cells tmp_cells' Cells.obstacles
    = Some cells' /\
    fusion Cells.params Cells.obstacles Sample.grid Sample.tmp_grid
    = Some (av, tmp_grid') /\
    forall k, load_speed cells' 0 k = load tmp_grid' k 0.
Proof.
  assert (Hsame : same_grid 4 Cells.cells Sample.grid).
  { split; [reflexivity|]. split; [reflexivity|].
    intros k i Hi.
    assert (i = 0 \/ i = 1 \/ i = 2 \/ i = 3) as [->|[->|[->| ->]]] by lia;
      destruct k; vm_compute; reflexivity. }
  split; [exact Hsame|].
  destruct (unfused_agrees_with_fusion_at_obstacles Cells.params
              Cells.obstacles Cells.cells Cells.tmp_cells
              Sample.grid Sample.tmp_grid)
    as (tmp_cells' & cells' & av & tmp_grid' & Hpropagate & Hrebound
        & Hfusion & Hcells);
    [reflexivity|reflexivity|exact Hsame|reflexivity|reflexivity|reflexivity|].
  exists tmp_cells', cells', av, tmp_grid'.
  split; [exact Hpropagate|]. split; [exact Hrebound|].
  split; [exact Hfusion|].
  intros k. apply (Hcells 0 0 1 k); [simpl; lia|simpl; lia|reflexivity|lia].
Defined.

Lemma fusion_ignores_scratch_witness :
  exists av tmp',
    fusion Sample.params Sample.obstacles Sample.grid Sample.tmp_grid
    = Some (av, tmp') /\
    fusion Sample.params Sample.obstacles Sample.grid Sample.grid
    = Some (av, tmp').
Proof.
  apply (fusion_ignores_scratch Sample.params Sample.obstacles Sample.grid
           Sample.tmp_grid Sample.grid); reflexivity.
Defined.

Lemma kernels_count_fluid_cells_witness :
  exists tmp' tot_u tot_u',
    fusion_loop Sample.params (Some [1; 0; 0; 0]) Sample.grid Sample.tmp_grid
    = Some (tmp', tot_u, 3) /\
    fusion Sample.params (Some [1; 0; 0; 0]) Sample.grid Sample.tmp_grid
    = Some ((tot_u ⊘ of_int 3)%fl, tmp') /\
    av_velocity_loop Sample.params (Some [1; 0; 0; 0]) Sample.grid
    = Some (tot_u', 3) /\
    av_velocity Sample.params (Some [1; 0; 0; 0]) Sample.grid
    = Some (tot_u' ⊘ of_int 3)%fl.
Proof.
  apply (kernels_count_fluid_cells Sample.params [1; 0; 0; 0] Sample.grid
           Sample.tmp_grid); reflexivity.
Defined.

Lemma fusion_fluid_cell_step_witness :
  exists tmp' tot_u,
    fusion_cell Sample.params Sample.obstacles Sample.grid 0 1
      (Sample.tmp_grid, of_int 0, 0)
    = Some (tmp', tot_u, 1) /\
    wf_soa 4 tmp' = true /\
    forall k, load tmp' k 0 = load Sample.tmp_grid k 0.
Proof.
  destruct (fusion_fluid_cell_step Sample.params Sample.obstacles Sample.grid
              Sample.tmp_grid 0 1 (of_int 0) 0)
    as (tmp' & g & _ & Hrun & Hwf & _ & Hrest);
    [reflexivity|reflexivity|reflexivity|simpl; lia|simpl; lia|reflexivity|].
  exists tmp'. eexists. split; [exact Hrun|]. split; [exact Hwf|].
  intros k. apply Hrest. simpl. lia.
Defined.

Lemma main_loop_between_walls_witness :
  exists mirror tmp' av_vels',
    accelerate_flow Sample.params Sample.walls Sample.grid
    = Some Sample.grid /\
    timestep Sample.params Sample.walls Sample.grid Sample.tmp_grid
    = Some ((zero ⊘ of_int 0)%fl, Sample.grid, mirror) /\
    timestep Sample.params Sample.walls mirror Sample.grid
    = Some ((zero ⊘ of_int 0)%fl, mirror, Sample.grid) /\
    main_loop Sample.params Sample.walls
      (Sample.grid, Sample.tmp_grid, Sample.av_vels)
    = Some (Sample.grid, tmp', av_vels').
Proof.
  apply (main_loop_between_walls Sample.params Sample.walls Sample.grid
           Sample.tmp_grid Sample.av_vels); try reflexivity; simpl; lia.
Defined.

Lemma initialise_buffers_witness :
  exists st,
    initialise (fun _ => true) UniformRun.junk Sample.params
      Sample.obstaclefile = Done st /\
    load (st_grid st) S0 3
    = Some (density Sample.params ⊗ of_int 4 ⊘ of_int 9)%fl /\
    load (st_grid st) S7 3 = Some (density Sample.params ⊘ of_int 36)%fl /\
    st_av_vels st = Some [UniformRun.junk; UniformRun.junk].
Proof.
  destruct (initialise_buffers (fun _ => true) UniformRun.junk Sample.params
              Sample.obstaclefile)
    as (st & Hrun & Hcells & _ & Hav);
    [reflexivity|reflexivity|simpl; lia|reflexivity|reflexivity|].
  exists st. split; [exact Hrun|].
  destruct (Hcells 1 1) as (H0 & _ & H5); [simpl; lia|simpl; lia|].
  split; [exact H0|]. split; [|exact Hav].
  apply (H5 S7). simpl. tauto.
Defined.

Lemma initialise_mask_witness :
  exists st,
    initialise (fun _ => true) UniformRun.junk Sample.params
      Sample.obstaclefile = Done st /\
    array_get (st_obstacles st) 0 = Some 1 /\
    array_get (st_obstacles st) 3 = Some 0.
Proof.
  destruct (initialise_mask (fun _ => true) UniformRun.junk Sample.params
              Sample.obstaclefile)
    as (st & Hrun & _ & Hflags);
    [reflexivity|reflexivity|simpl; lia|reflexivity|reflexivity|].
  exists st. split; [exact Hrun|]. split.
  - destruct (Hflags 0 0) as [Hlisted _]; [simpl; lia|simpl; lia|].
    apply Hlisted. left. reflexivity.
  - destruct (Hflags 1 1) as [_ Hfree]; [simpl; lia|simpl; lia|].
    apply Hfree. intros [Hin|[]]. discriminate Hin.
Defined.

Lemma initialise_rejects_obstacle_record_witness :
  initialise (fun _ => true) UniformRun.junk Sample.params
    ([Some (0, 0, 1)] ++ Some (5, 0, 1) :: [None; Some (0, 7, 1)])
  = Died "obstacle x-coord out of range".
Proof.
  apply (initialise_rejects_obstacle_record (fun _ => true) UniformRun.junk
           Sample.params [Some (0, 0, 1)] [None; Some (0, 7, 1)]
           (Some (5, 0, 1))); reflexivity.
Defined.

Lemma initialise_reports_mask_allocation_witness :
  initialise (fails_at 18) UniformRun.junk Sample.params Sample.obstaclefile
  = Died "cannot allocate column memory for obstacles".
Proof.
  apply (initialise_reports_mask_allocation (fails_at 18) UniformRun.junk
           Sample.params Sample.obstaclefile);
    [reflexivity|reflexivity| |reflexivity].
  intros k Hk. do 9 (destruct k as [|k]; [reflexivity|]). lia.
Defined.

Lemma write_values_average_velocities_witness :
  exists final_state,
    write_values Sample.params Sample.obstacles
      (Some [of_int 3; of_int 5]) Sample.grid
    = Some (final_state, [(0, of_int 3); (1, of_int 5)]).
Proof.
  apply (write_values_average_velocities Sample.params Sample.obstacles
           [of_int 3; of_int 5] Sample.grid); try reflexivity; simpl; lia.
Defined.

Lemma main_without_iterations_witness :
  exists st r,
    initialise (fun _ => true) UniformRun.junk Cells.no_steps
      Sample.obstaclefile = Done st /\
    main (fun _ => true) UniformRun.junk Cells.no_steps Sample.obstaclefile
    = Done r /\
    calc_reynolds Cells.no_steps (st_obstacles st) (st_grid st)
    = Some (r_reynolds r) /\
    length (r_final_state r) = 4%nat /\
    (forall jj ii, 0 <= jj < 2 -> 0 <= ii < 2 ->
       r_final_state r !! Z.to_nat (ii + jj * 2)
       = Some (line_of Cells.no_steps (st_obstacles st) (st_grid st) jj ii)) /\
    r_av_vels r = [].
Proof.
  apply (main_without_iterations (fun _ => true) UniformRun.junk
           Cells.no_steps Sample.obstaclefile); try reflexivity; simpl; lia.
Defined.

Lemma foo_copies_witness :
  foo (Some Cells.zeros) (Some Cells.ones) = Some (Some Cells.ones).
Proof.
  apply (foo_copies Cells.zeros Cells.ones); vm_compute; reflexivity.
Defined.

Lemma collision_keeps_equilibrium_witness :
  (collision_relax Cells.params_Q (equilibrium_cell 1) S5
   == equilibrium_cell 1 S5)%Q.
Proof.
  apply (collision_keeps_equilibrium Cells.params_Q 1%Q S5).
  vm_compute. lia.
Defined.

Lemma collision_conserves_mass_witness :
  (cell_mass (collision_relax Cells.params_Q Cells.moving)
   == cell_mass Cells.moving)%Q.
Proof.
  apply (collision_conserves_mass Cells.params_Q Cells.moving).
  vm_compute. lia.
Defined.

Lemma collision_conserves_momentum_witness :
  (cell_momentum_x (collision_relax Cells.params_Q Cells.moving)
   == cell_momentum_x Cells.moving)%Q /\
  (cell_momentum_y (collision_relax Cells.params_Q Cells.moving)
   == cell_momentum_y Cells.moving)%Q.
Proof.
  apply (collision_conserves_momentum Cells.params_Q Cells.moving).
  vm_compute. lia.
Defined.

Lemma total_density_sums_witness :
  total_density Cells.params Cells.cells
  = Some (foldl (fun total c =>
                   (total ⊕ speed_values c S0 ⊕ speed_values c S1
                    ⊕ speed_values c S2 ⊕ speed_values c S3
                    ⊕ speed_values c S4 ⊕ speed_values c S5
                    ⊕ speed_values c S6 ⊕ speed_values c S7
                    ⊕ speed_values c S8)%fl) (of_int 0)
            (map (Cells.numbered 0) [1; 2; 3; 4])).
Proof.
  apply (total_density_sums Cells.params (map (Cells.numbered 0) [1; 2; 3; 4]));
    [simpl; lia|simpl; lia|reflexivity].
Defined.

Lemma collision_conserves_total_density_witness :
  exists cells' before after,
    collision Cells.params_Q Cells.cells_Q Cells.tmp_cells_Q Cells.obstacles_Q
    = Some cells' /\
    total_density Cells.params_Q Cells.tmp_cells_Q = Some before /\
    total_density Cells.params_Q cells' = Some after /\
    (after == before)%Q.
Proof.
  apply (collision_conserves_total_density Cells.params_Q Cells.cells_Q
           Cells.tmp_cells_Q Cells.obstacles_Q);
    [reflexivity|reflexivity|reflexivity|reflexivity|reflexivity|].
  intros i Hi. simpl in Hi.
  assert (i = 0 \/ i = 1) as [->| ->] by lia; vm_compute; lia.
Defined.

Lemma accelerate_flow_needs_two_rows_witness :
  accelerate_flow OneCell.params OneCell.obstacles OneCell.grid = None.
Proof.
  apply (accelerate_flow_needs_two_rows OneCell.params OneCell.obstacles
           OneCell.grid); simpl; lia.
Defined.

Lemma write_values_wide_reads_outside_witness :
  write_values Cells.wide (Some [0; 0]) (Some [of_int 7])
    (uniform_soa 2 (fun _ => OneCell.half)) = None.
Proof.
  apply (write_values_wide_reads_outside Cells.wide (Some [0; 0])
           (Some [of_int 7]) (uniform_soa 2 (fun _ => OneCell.half)));
    [simpl; lia|simpl; lia|reflexivity].
Defined.

Lemma main_records_every_step_witness :
  exists st r,
    initialise (fun _ => true) UniformRun.junk Sample.params
      Sample.obstaclefile = Done st /\
    main (fun _ => true) UniformRun.junk Sample.params Sample.obstaclefile
    = Done r /\
    length (r_av_vels r) = 2%nat /\
    forall tt, 0 <= tt < 2 ->
      exists grid tmp_grid av_vels av grid' tmp_grid',
        for_loop tt (main_iteration Sample.params (st_obstacles st))
          (st_grid st, st_tmp_grid st, st_av_vels st)
        = Some (grid, tmp_grid, av_vels) /\
        timestep Sample.params (st_obstacles st) grid tmp_grid
        = Some (av, grid', tmp_grid') /\
        r_av_vels r !! Z.to_nat tt = Some (tt, av).
Proof.
  apply (main_records_every_step (fun _ => true) UniformRun.junk
           Sample.params Sample.obstaclefile); try reflexivity; simpl; lia.
Defined.
